(** * framework_add_batchnorm.py: a CIFAR10 classifier trained with a
    hand-written [fit]/[evaluate] loop over torch.

    The script is embedded shallowly.  Everything the script itself does
    (the order of the layer calls in [forward], the loops of [fit] and
    [evaluate], the aggregation of [validation_epoch_end], the split and
    the loaders, the hard-coded constants) is written out as Rocq
    definitions.  What the script calls but does not define, torch's tensor
    kernels, its autograd engine and its random number generator, is the
    interface [Backend]: floating-point tensors are kept abstract, so every
    theorem of the generic part holds for whatever these kernels compute.
    The control flow that torch's own Python modules add around the kernels
    (the [training] flag of [nn.Module], the buffers of [BatchNorm2d], the
    loop of [SGD.step], the empty-list check of [torch.stack]) is modelled
    next to the script, since the script's behaviour depends on it. *)

From Stdlib Require Import ZArith QArith Lia.
From stdpp Require Import gmap strings list.

Local Open Scope Z_scope.

(** ** Exceptions

    The script has no [try]: an exception raised anywhere aborts the run.
    A computation therefore either returns a value or raises. *)

Inductive exn : Type :=
  | RuntimeError (msg : string)
  | ValueError (msg : string)
  | IndexError
  | KeyError (key : string)
  | ZeroDivisionError.

Inductive Res (A : Type) : Type :=
  | Ok (a : A)
  | Raise (e : exn).
Arguments Ok {A} a.
Arguments Raise {A} e.

Definition is_Ok {A} (r : Res A) : Prop := ∃ a, r = Ok a.

Global Instance Res_ret : MRet Res := λ A a, Ok a.
Global Instance Res_bind : MBind Res := λ A C f r,
  match r with Ok a => f a | Raise e => Raise e end.
Global Instance Res_throw : MThrow exn Res := λ A e, Raise e.
Global Instance Res_fmap : FMap Res := λ A C f r,
  match r with Ok a => Ok (f a) | Raise e => Raise e end.

(** A computation over a state [S]: when it raises, the state it leaves
    is of no interest, since nothing runs after it. *)
Definition StateRes (S A : Type) : Type := S → Res (A * S).

Global Instance StateRes_ret {S} : MRet (StateRes S) := λ A a s, Ok (a, s).
Global Instance StateRes_bind {S} : MBind (StateRes S) := λ A C f m s,
  match m s with
  | Ok (a, s') => f a s'
  | Raise e => Raise e
  end.
Global Instance StateRes_throw {S} : MThrow exn (StateRes S) :=
  λ A e s, Raise e.

(** a call of a library function that may raise *)
Definition lift {S A} (r : Res A) : StateRes S A :=
  λ s, match r with Ok a => Ok (a, s) | Raise e => Raise e end.

(** ** The tensor library *)

Class Backend : Type := {
  Tensor : Type;
  (** a Python float *)
  Scalar : Type;
  (** the state of a [torch.Generator] *)
  Generator : Type;
  Device : Type;

  (** a float literal [m e k] of the script, m * 10^k *)
  float_lit : Z → Z → Scalar;
  (** Python's [a / b] on two ints, for b <> 0 *)
  int_truediv : Z → Z → Scalar;
  float_neg : Scalar → Scalar;
  float_is_zero : Scalar → bool;
  (** Python's [a < 0.0] *)
  float_is_negative : Scalar → bool;

  (** torch.nn.functional *)
  F_conv2d : Tensor → Tensor → Tensor → nat → Res Tensor;
  F_relu : Tensor → Tensor;
  F_max_pool2d : Tensor → nat → nat → Res Tensor;
  F_linear : Tensor → Tensor → Tensor → Res Tensor;
  F_cross_entropy : Tensor → Tensor → Res Tensor;
  (** [F.batch_norm] with [training=True]: the output is normalised with
      the statistics of the batch (input, weight, bias, eps) ... *)
  batch_norm_batch_stats : Tensor → Tensor → Tensor → Scalar → Res Tensor;
  (** ... and the running mean and variance move towards those of the
      batch (running value, input, momentum); *)
  running_mean_update : Tensor → Tensor → Scalar → Tensor;
  running_var_update : Tensor → Tensor → Scalar → Tensor;
  (** with [training=False] the output is normalised with the running
      statistics (input, running_mean, running_var, weight, bias, eps). *)
  batch_norm_running_stats :
    Tensor → Tensor → Tensor → Tensor → Tensor → Scalar → Res Tensor;
  (** [F.dropout2d] with [training=True]: draws the mask from the default
      generator (input, p). *)
  dropout2d_sample : Tensor → Scalar → Generator → Tensor * Generator;

  (** torch *)
  torch_flatten : Tensor → nat → Tensor;
  (** the indices returned by [torch.max(input, dim)] *)
  torch_argmax : Tensor → nat → Tensor;
  (** [torch.sum(a == b).item()] *)
  count_eq : Tensor → Tensor → Z;
  tensor_len : Tensor → Z;
  torch_tensor : Scalar → Tensor;
  detach : Tensor → Tensor;
  (** [torch.stack] of a first tensor and the rest, all of them 0-dim *)
  stack_scalars : Tensor → list Tensor → Tensor;
  tensor_mean : Tensor → Tensor;
  item : Tensor → Scalar;
  (** [self.add_(other, alpha)] *)
  add_alpha : Tensor → Tensor → Scalar → Tensor;
  tensor_add : Tensor → Tensor → Tensor;
  tensor_mul : Tensor → Scalar → Tensor;
  tensor_clone : Tensor → Tensor;
  zeros_like : Tensor → Tensor;
  tensor_to : Tensor → Device → Tensor;
  ones : list nat → Tensor;
  zeros : list nat → Tensor;
  (** the initialiser of a weight or bias of the given shape and fan-in *)
  init_uniform : list nat → nat → Generator → Tensor * Generator;

  (** autograd: the gradient of a loss with respect to the i-th tensor of
      [model.parameters()], [None] when the loss does not depend on it *)
  autograd_grad : Tensor → nat → option Tensor;
  (** the default of [set_to_none] in [Optimizer.zero_grad] (False before
      torch 2.0, True since) *)
  zero_grad_set_to_none : bool;

  (** random numbers *)
  manual_seed : Z → Generator;
  random_int64 : Generator → Z * Generator;
  randperm : nat → Generator → list nat * Generator;

  (** [default_collate] of a list of (image, label) samples *)
  default_collate : list (Tensor * Z) → Tensor * Tensor;
}.

Section Framework.
Context {B : Backend}.

(** ** Parameters and modules *)

(** A [torch.nn.Parameter]: its value and its [.grad]. *)
Record Param : Type := mkParam {
  data : Tensor;
  grad : option Tensor;
}.

(** [nn.Conv2d(in_channels, out_channels, kernel_size, padding)] *)
Record Conv2d : Type := mkConv2d {
  conv_in : nat;
  conv_out : nat;
  conv_kernel : nat;
  conv_padding : nat;
  conv_weight : Param;
  conv_bias : Param;
}.

(** [nn.Linear(in_features, out_features)] *)
Record Linear : Type := mkLinear {
  lin_in : nat;
  lin_out : nat;
  lin_weight : Param;
  lin_bias : Param;
}.

(** [nn.BatchNorm2d(num_features)], with torch's defaults eps = 1e-5,
    momentum = 0.1, affine and track_running_stats on. *)
Record BatchNorm2d : Type := mkBatchNorm2d {
  bn_features : nat;
  bn_weight : Param;
  bn_bias : Param;
  running_mean : Tensor;
  running_var : Tensor;
  num_batches_tracked : Z;
}.

(** The attributes [CIFAR10Model.__init__] sets, and the [training] flag
    every [nn.Module] has. *)
Record CIFAR10Model : Type := mkModel {
  conv1 : Conv2d;
  conv2 : Conv2d;
  maxpool1 : nat * nat;
  conv3 : Conv2d;
  conv4 : Conv2d;
  conv5 : Conv2d;
  conv6 : Conv2d;
  linear1 : Linear;
  linear2 : Linear;
  dropout1 : Scalar;
  bn1 : BatchNorm2d;
  bn2 : BatchNorm2d;
  bn3 : BatchNorm2d;
  training : bool;
}.

(** The line printed by [epoch_end]. *)
Record Line : Type := EpochLine {
  line_epoch : nat;
  line_val_loss : Scalar;
  line_val_acc : Scalar;
}.

(** ** The state of a run: the model object, torch's default generator
    and what has been printed. *)
Record World : Type := mkWorld {
  model : CIFAR10Model;
  rng : Generator;
  stdout : list Line;
}.

(** computations on the whole state, and those that only draw random
    numbers *)
Abbreviation M := (StateRes World).
Abbreviation R := (StateRes Generator).

Definition get_model : M CIFAR10Model := λ w, Ok (model w, w).

Definition put_model (m : CIFAR10Model) : M unit :=
  λ w, Ok ((), mkWorld m (rng w) (stdout w)).

(** a draw from a generator *)
Definition draw {A} (f : Generator → A * Generator) : R A :=
  λ g, Ok (f g).

(** a computation on torch's default generator *)
Definition with_rng {A} (r : R A) : M A :=
  λ w, match r (rng w) with
       | Ok (a, g) => Ok (a, mkWorld (model w) g (stdout w))
       | Raise e => Raise e
       end.

Definition print (l : Line) : M unit :=
  λ w, Ok ((), mkWorld (model w) (rng w) (stdout w ++ [l])).


(** ** torch's modules *)

Definition Conv2d_forward (c : Conv2d) (input : Tensor) : Res Tensor :=
  F_conv2d input (data (conv_weight c)) (data (conv_bias c)) (conv_padding c).

Definition Linear_forward (l : Linear) (input : Tensor) : Res Tensor :=
  F_linear input (data (lin_weight l)) (data (lin_bias l)).

Definition MaxPool2d_forward (p : nat * nat) (input : Tensor) : Res Tensor :=
  F_max_pool2d input (fst p) (snd p).

Definition bn_eps : Scalar := float_lit 1 (-5).
Definition bn_momentum : Scalar := float_lit 1 (-1).

(** [BatchNorm2d.forward]: in training mode the module counts the batch,
    normalises with the statistics of the batch and updates its running
    statistics; in evaluation mode it normalises with the running
    statistics and changes nothing. *)
Definition BatchNorm2d_forward (bn : BatchNorm2d) (train : bool)
    (input : Tensor) : Res (Tensor * BatchNorm2d) :=
  if train then
    out ← batch_norm_batch_stats input (data (bn_weight bn))
            (data (bn_bias bn)) bn_eps;
    mret (out,
          mkBatchNorm2d (bn_features bn) (bn_weight bn) (bn_bias bn)
            (running_mean_update (running_mean bn) input bn_momentum)
            (running_var_update (running_var bn) input bn_momentum)
            (num_batches_tracked bn + 1))
  else
    out ← batch_norm_running_stats input (running_mean bn) (running_var bn)
            (data (bn_weight bn)) (data (bn_bias bn)) bn_eps;
    mret (out, bn).

(** [Dropout2d.forward] is [F.dropout2d(input, p, self.training)]: the
    identity unless the module is in training mode. *)
Definition Dropout2d_forward (p : Scalar) (train : bool) (input : Tensor)
    : M Tensor :=
  if train then with_rng (draw (dropout2d_sample input p)) else mret input.

(** ** CIFAR10Model *)

Inductive bn_attr : Type := attr_bn1 | attr_bn2 | attr_bn3.

Definition getattr_bn (a : bn_attr) (m : CIFAR10Model) : BatchNorm2d :=
  match a with attr_bn1 => bn1 m | attr_bn2 => bn2 m | attr_bn3 => bn3 m end.

Definition setattr_bn (a : bn_attr) (b : BatchNorm2d) (m : CIFAR10Model)
    : CIFAR10Model :=
  mkModel (conv1 m) (conv2 m) (maxpool1 m) (conv3 m) (conv4 m) (conv5 m)
    (conv6 m) (linear1 m) (linear2 m) (dropout1 m)
    (match a with attr_bn1 => b | _ => bn1 m end)
    (match a with attr_bn2 => b | _ => bn2 m end)
    (match a with attr_bn3 => b | _ => bn3 m end)
    (training m).

(** [self.convN(out)], [self.linearN(out)], [self.maxpool1(out)] *)
Definition call_conv (attr : CIFAR10Model → Conv2d) (out : Tensor)
    : M Tensor :=
  self ← get_model; lift (Conv2d_forward (attr self) out).

Definition call_linear (attr : CIFAR10Model → Linear) (out : Tensor)
    : M Tensor :=
  self ← get_model; lift (Linear_forward (attr self) out).

Definition call_maxpool1 (out : Tensor) : M Tensor :=
  self ← get_model; lift (MaxPool2d_forward (maxpool1 self) out).

(** [self.bnN(out)]: the call writes the module's buffers back into the
    model object. *)
Definition call_bn (a : bn_attr) (out : Tensor) : M Tensor :=
  self ← get_model;
  '(out', bn') ← lift (BatchNorm2d_forward (getattr_bn a self)
                         (training self) out);
  put_model (setattr_bn a bn' self);;
  mret out'.

Definition call_dropout1 (out : Tensor) : M Tensor :=
  self ← get_model; Dropout2d_forward (dropout1 self) (training self) out.

Definition relu (out : Tensor) : M Tensor := mret (F_relu out).

Definition flatten (out : Tensor) (start_dim : nat) : M Tensor :=
  mret (torch_flatten out start_dim).

Definition forward (xb : Tensor) : M Tensor :=
  let out := xb in
  (* part 1 *)
  out ← call_conv conv1 out;
  out ← relu out;
  out ← call_bn attr_bn1 out;
  out ← call_conv conv2 out;
  out ← relu out;
  out ← call_bn attr_bn1 out;
  out ← call_maxpool1 out;
  (* part 2 *)
  out ← call_conv conv3 out;
  out ← relu out;
  out ← call_bn attr_bn2 out;
  out ← call_conv conv4 out;
  out ← relu out;
  out ← call_bn attr_bn2 out;
  out ← call_maxpool1 out;
  (* part 3 *)
  out ← call_conv conv5 out;
  out ← relu out;
  out ← call_bn attr_bn3 out;
  out ← call_conv conv6 out;
  out ← relu out;
  out ← call_bn attr_bn3 out;
  out ← call_maxpool1 out;
  (* part 4 *)
  out ← flatten out 1;
  out ← call_linear linear1 out;
  out ← relu out;
  out ← call_dropout1 out;
  out ← call_linear linear2 out;
  mret out.

(** [CIFAR10Model.__init__].  The layers draw their initial weights from
    the default generator, in the order in which they are created. *)
Definition output_size : nat := 10.
Definition input_size : nat := (3 * 32 * 32)%nat.

Definition new_param (shape : list nat) (fan_in : nat) (g : Generator)
    : Param * Generator :=
  let '(t, g) := init_uniform shape fan_in g in (mkParam t None, g).

Definition Conv2d_init (cin cout k padding : nat) (g : Generator)
    : Conv2d * Generator :=
  let '(w, g) := new_param [cout; cin; k; k] (cin * k * k)%nat g in
  let '(b, g) := new_param [cout] (cin * k * k)%nat g in
  (mkConv2d cin cout k padding w b, g).

Definition Linear_init (fin fout : nat) (g : Generator)
    : Linear * Generator :=
  let '(w, g) := new_param [fout; fin] fin g in
  let '(b, g) := new_param [fout] fin g in
  (mkLinear fin fout w b, g).

Definition BatchNorm2d_init (num_features : nat) : BatchNorm2d :=
  mkBatchNorm2d num_features
    (mkParam (ones [num_features]) None) (mkParam (zeros [num_features]) None)
    (zeros [num_features]) (ones [num_features]) 0.

Definition CIFAR10Model_init (g : Generator) : CIFAR10Model * Generator :=
  let '(c1, g) := Conv2d_init 3 9 3 1 g in
  let '(c2, g) := Conv2d_init 9 9 3 1 g in
  let mp := (2, 2)%nat in
  let '(c3, g) := Conv2d_init 9 18 3 1 g in
  let '(c4, g) := Conv2d_init 18 18 3 1 g in
  let '(c5, g) := Conv2d_init 18 36 3 1 g in
  let '(c6, g) := Conv2d_init 36 36 3 1 g in
  let '(l1, g) := Linear_init 576 100 g in
  let '(l2, g) := Linear_init 100 output_size g in
  let d1 := float_lit 5 (-1) in
  let b1 := BatchNorm2d_init 9 in
  let b2 := BatchNorm2d_init 18 in
  let b3 := BatchNorm2d_init 36 in
  (mkModel c1 c2 mp c3 c4 c5 c6 l1 l2 d1 b1 b2 b3 true, g).

(** ** [model.parameters()]

    The tensors are listed in the order in which [__init__] registers the
    modules: conv1, conv2, conv3 ... conv6, linear1, linear2, bn1, bn2,
    bn3, each with its weight before its bias. *)

Definition conv_params (c : Conv2d) : list Param :=
  [conv_weight c; conv_bias c].
Definition lin_params (l : Linear) : list Param :=
  [lin_weight l; lin_bias l].
Definition bn_params (b : BatchNorm2d) : list Param :=
  [bn_weight b; bn_bias b].

Definition parameters (m : CIFAR10Model) : list Param :=
  conv_params (conv1 m) ++ conv_params (conv2 m) ++ conv_params (conv3 m) ++
  conv_params (conv4 m) ++ conv_params (conv5 m) ++ conv_params (conv6 m) ++
  lin_params (linear1 m) ++ lin_params (linear2 m) ++
  bn_params (bn1 m) ++ bn_params (bn2 m) ++ bn_params (bn3 m).

(** An in-place update of every parameter; [f] receives the position of
    the tensor in [parameters]. *)
Definition conv_imap (f : nat → Param → Param) (i : nat) (c : Conv2d)
    : Conv2d :=
  mkConv2d (conv_in c) (conv_out c) (conv_kernel c) (conv_padding c)
    (f i (conv_weight c)) (f (S i) (conv_bias c)).

Definition lin_imap (f : nat → Param → Param) (i : nat) (l : Linear)
    : Linear :=
  mkLinear (lin_in l) (lin_out l) (f i (lin_weight l)) (f (S i) (lin_bias l)).

Definition bn_imap (f : nat → Param → Param) (i : nat) (b : BatchNorm2d)
    : BatchNorm2d :=
  mkBatchNorm2d (bn_features b) (f i (bn_weight b)) (f (S i) (bn_bias b))
    (running_mean b) (running_var b) (num_batches_tracked b).

Definition imap_parameters (f : nat → Param → Param) (m : CIFAR10Model)
    : CIFAR10Model :=
  mkModel (conv_imap f 0 (conv1 m)) (conv_imap f 2 (conv2 m)) (maxpool1 m)
    (conv_imap f 4 (conv3 m)) (conv_imap f 6 (conv4 m))
    (conv_imap f 8 (conv5 m)) (conv_imap f 10 (conv6 m))
    (lin_imap f 12 (linear1 m)) (lin_imap f 14 (linear2 m)) (dropout1 m)
    (bn_imap f 16 (bn1 m)) (bn_imap f 18 (bn2 m)) (bn_imap f 20 (bn3 m))
    (training m).

(** ** autograd and the optimizer *)

(** [loss.backward()] adds the gradient of the loss to the [.grad] of
    every parameter the loss depends on. *)
Definition accumulate (p : Param) (g : option Tensor) : Param :=
  match g with
  | None => p
  | Some g =>
      match grad p with
      | None => mkParam (data p) (Some g)
      | Some acc => mkParam (data p) (Some (tensor_add acc g))
      end
  end.

Definition backward (loss : Tensor) : M unit :=
  self ← get_model;
  put_model (imap_parameters (λ i p, accumulate p (autograd_grad loss i)) self).

(** What [opt_func] may be: the constructor checks the learning rate and
    may raise, an optimizer is created from the parameters and the
    learning rate, and a step computes, from the state before the step,
    the new value of each parameter and the new state. *)
Record Optimizer : Type := mkOptimizer {
  opt_state : Type;
  opt_check : Scalar → Res unit;
  opt_new : list Param → Scalar → opt_state;
  opt_step_param : opt_state → nat → Param → Param;
  opt_step_state : opt_state → list Param → opt_state;
}.

(** [torch.optim.SGD(params, lr, momentum)], dampening, weight decay and
    nesterov left at their defaults.  [sgd_momentum] is [None] when the
    caller leaves momentum at its default 0.  [state[p]['momentum_buffer']]
    is the only state kept per parameter. *)
Record SGD_state : Type := mkSGD {
  sgd_lr : Scalar;
  sgd_momentum : option Scalar;
  sgd_buffers : gmap nat Tensor;
}.

(** the test [momentum != 0] of [SGD.step] *)
Definition sgd_has_momentum (st : SGD_state) : option Scalar :=
  match sgd_momentum st with
  | None => None
  | Some mu => if float_is_zero mu then None else Some mu
  end.

Definition sgd_buffer (st : SGD_state) (mu : Scalar) (i : nat)
    (d_p : Tensor) : Tensor :=
  match sgd_buffers st !! i with
  | None => detach (tensor_clone d_p)
  | Some buf => tensor_add (tensor_mul buf mu) d_p
  end.

Definition sgd_step_param (st : SGD_state) (i : nat) (p : Param) : Param :=
  match grad p with
  | None => p
  | Some d_p =>
      let d_p :=
        match sgd_has_momentum st with
        | None => d_p
        | Some mu => sgd_buffer st mu i d_p
        end in
      mkParam (add_alpha (data p) d_p (float_neg (sgd_lr st))) (grad p)
  end.

Definition sgd_step_buffers (st : SGD_state) (ps : list Param)
    : gmap nat Tensor :=
  match sgd_has_momentum st with
  | None => sgd_buffers st
  | Some mu =>
      foldl (λ bufs ip,
               match grad ip.2 with
               | None => bufs
               | Some d_p => <[ip.1 := sgd_buffer st mu ip.1 d_p]> bufs
               end)
            (sgd_buffers st) (imap pair ps)
  end.

Definition sgd_step_state (st : SGD_state) (ps : list Param) : SGD_state :=
  mkSGD (sgd_lr st) (sgd_momentum st) (sgd_step_buffers st ps).

(** the checks of [SGD.__init__]: a negative learning rate or momentum
    is refused *)
Definition sgd_check (momentum : option Scalar) (lr : Scalar) : Res unit :=
  if float_is_negative lr then mthrow (ValueError "Invalid learning rate")
  else
    match momentum with
    | Some mu =>
        if float_is_negative mu
        then mthrow (ValueError "Invalid momentum value")
        else mret ()
    | None => mret ()
    end.

Definition SGD_with (momentum : option Scalar) : Optimizer :=
  mkOptimizer SGD_state (sgd_check momentum) (λ _ lr, mkSGD lr momentum ∅)
    sgd_step_param sgd_step_state.

(** [torch.optim.SGD], the default of [opt_func] *)
Definition SGD : Optimizer := SGD_with None.

(** [optimizer.step()] *)
Definition step (opt : Optimizer) (st : opt_state opt)
    : M (opt_state opt) :=
  self ← get_model;
  put_model (imap_parameters (opt_step_param opt st) self);;
  mret (opt_step_state opt st (parameters self)).

(** [optimizer.zero_grad()] *)
Definition clear_grad (p : Param) : Param :=
  match grad p with
  | None => p
  | Some g =>
      if zero_grad_set_to_none then mkParam (data p) None
      else mkParam (data p) (Some (zeros_like (detach g)))
  end.

Definition zero_grad : M unit :=
  self ← get_model; put_model (imap_parameters (λ _, clear_grad) self).

(** ** The base class *)

(** Python's [a / b] on ints *)
Definition truediv (a b : Z) : Res Scalar :=
  if decide (b = 0) then mthrow ZeroDivisionError
  else mret (int_truediv a b).

Definition accuracy (outputs labels : Tensor) : Res Tensor :=
  let preds := torch_argmax outputs 1 in
  q ← truediv (count_eq preds labels) (tensor_len preds);
  mret (torch_tensor q).

(** a batch, as the loaders yield it: images and labels *)
Definition Batch : Type := Tensor * Tensor.

Definition training_step (batch : Batch) : M Tensor :=
  let '(images, labels) := batch in
  out ← forward images;
  loss ← lift (F_cross_entropy out labels);
  mret loss.

Definition validation_step (batch : Batch) : M (gmap string Tensor) :=
  let '(images, labels) := batch in
  out ← forward images;
  loss ← lift (F_cross_entropy out labels);
  acc ← lift (accuracy out labels);
  mret ({[ "val_loss" := detach loss; "val_acc" := acc ]} : gmap string Tensor).

(** [d[key]] *)
Definition getitem {V} (key : string) (d : gmap string V) : Res V :=
  match d !! key with
  | Some v => mret v
  | None => mthrow (KeyError key)
  end.

(** [torch.stack] refuses the empty list. *)
Definition torch_stack (tensors : list Tensor) : Res Tensor :=
  match tensors with
  | [] => mthrow (RuntimeError "stack expects a non-empty TensorList")
  | t :: ts => mret (stack_scalars t ts)
  end.

Definition validation_epoch_end (outputs : list (gmap string Tensor))
    : Res (gmap string Scalar) :=
  batch_losses ← mapM (getitem "val_loss") outputs;
  stacked ← torch_stack batch_losses;
  let epoch_loss := tensor_mean stacked in
  batch_accs ← mapM (getitem "val_acc") outputs;
  stacked ← torch_stack batch_accs;
  let epoch_acc := tensor_mean stacked in
  mret ({[ "val_loss" := item epoch_loss; "val_acc" := item epoch_acc ]}
          : gmap string Scalar).

Definition epoch_end (epoch : nat) (result : gmap string Scalar) : M unit :=
  val_loss ← lift (getitem "val_loss" result);
  val_acc ← lift (getitem "val_acc" result);
  print (EpochLine epoch val_loss val_acc).

(** ** Datasets and loaders *)

Inductive Dataset : Type :=
  | CIFAR10 (samples : list (Tensor * Z))
  | Subset (dataset : Dataset) (indices : list nat).

Definition len (d : Dataset) : nat :=
  match d with
  | CIFAR10 samples => length samples
  | Subset _ indices => length indices
  end.

Fixpoint dataset_getitem (d : Dataset) (idx : nat) : Res (Tensor * Z) :=
  match d with
  | CIFAR10 samples =>
      match samples !! idx with
      | Some x => mret x
      | None => mthrow IndexError
      end
  | Subset dataset indices =>
      match indices !! idx with
      | Some i => dataset_getitem dataset i
      | None => mthrow IndexError
      end
  end.

(** Python's [l[lo:hi]] *)
Definition slice_bound (n i : Z) : Z :=
  if decide (i < 0) then Z.max 0 (n + i) else Z.min n i.

Definition py_slice {A} (l : list A) (lo hi : Z) : list A :=
  let n := Z.of_nat (length l) in
  let lo := slice_bound n lo in
  let hi := slice_bound n hi in
  take (Z.to_nat (hi - lo)) (drop (Z.to_nat lo) l).

(** [itertools.accumulate] *)
Fixpoint accumulate_from (acc : Z) (l : list Z) : list Z :=
  match l with
  | [] => []
  | x :: l => (acc + x) :: accumulate_from (acc + x) l
  end.

Definition sum_list (l : list Z) : Z := foldr Z.add 0 l.

(** [torch.utils.data.random_split(dataset, lengths)] *)
Definition random_split (dataset : Dataset) (lengths : list Z)
    : R (list Dataset) :=
  if decide (sum_list lengths = Z.of_nat (len dataset)) then
    indices ← draw (randperm (Z.to_nat (sum_list lengths)));
    mret (zip_with
            (λ offset length,
               Subset dataset (py_slice indices (offset - length) offset))
            (accumulate_from 0 lengths) lengths)
  else
    mthrow (ValueError
      "Sum of input lengths does not equal the length of the input dataset!").

Record DataLoader : Type := mkDataLoader {
  dl_dataset : Dataset;
  dl_batch_size : Z;
  dl_shuffle : bool;
}.

(** [DataLoader(dataset, batch_size, shuffle)]: with [shuffle=True] the
    constructor builds a [RandomSampler], which refuses a dataset without
    samples; the [BatchSampler] built next refuses a batch size that is
    not positive. *)
Definition DataLoader_new (dataset : Dataset) (batch_size : Z)
    (shuffle : bool) : Res DataLoader :=
  if decide (shuffle = true ∧ len dataset = 0%nat) then
    mthrow (ValueError "num_samples should be a positive integer value")
  else if decide (batch_size ≤ 0) then
    mthrow (ValueError "batch_size should be a positive integer value")
  else mret (mkDataLoader dataset batch_size shuffle).

Record DeviceDataLoader : Type := mkDeviceDataLoader {
  dl : DataLoader;
  device : Device;
}.

(** the batches of a sampler's order; the last one may be short *)
Fixpoint chunks_upto (fuel n : nat) (l : list nat) : list (list nat) :=
  match fuel with
  | O => []
  | S fuel =>
      match l with
      | [] => []
      | _ => take n l :: chunks_upto fuel n (drop n l)
      end
  end.

Definition chunks (n : nat) (l : list nat) : list (list nat) :=
  chunks_upto (length l) n l.

(** Starting an iteration fixes the order of the samples: the order of
    the dataset, or with [shuffle=True] a permutation drawn from a
    generator that is seeded from the default generator. *)
Definition sampler (loader : DataLoader) : R (list nat) :=
  let n := len (dl_dataset loader) in
  if dl_shuffle loader then
    seed ← draw random_int64;
    mret (randperm n (manual_seed seed)).1
  else mret (seq 0 n).

(** [iter(loader)]: the iterator of a [DataLoader] first draws its base
    seed from the default generator, whether the loader shuffles or not;
    then the sampler fixes the order, which is cut into batches. *)
Definition batch_indices (loader : DataLoader) : M (list (list nat)) :=
  with_rng (draw random_int64) ;;
  order ← with_rng (sampler loader);
  mret (chunks (Z.to_nat (dl_batch_size loader)) order).

(** the next batch of a [DataLoader] *)
Definition fetch (loader : DataLoader) (indices : list nat) : Res Batch :=
  samples ← mapM (dataset_getitem (dl_dataset loader)) indices;
  mret (default_collate samples).

(** [to_device] on a batch, a list of two tensors *)
Definition to_device (data : Batch) (device : Device) : Batch :=
  (tensor_to data.1 device, tensor_to data.2 device).

(** the next batch of a [DeviceDataLoader] *)
Definition next_batch (loader : DeviceDataLoader) (indices : list nat)
    : M Batch :=
  b ← lift (fetch (dl loader) indices);
  mret (to_device b (device loader)).

(** [[body(batch) for batch in loader]] *)
Definition for_batches {A} (loader : DeviceDataLoader)
    (body : Batch → M A) : M (list A) :=
  batches ← batch_indices (dl loader);
  mapM (λ indices, batch ← next_batch loader indices; body batch) batches.

(** ** [evaluate] and [fit] *)

Definition evaluate (val_loader : DeviceDataLoader)
    : M (gmap string Scalar) :=
  outputs ← for_batches val_loader validation_step;
  lift (validation_epoch_end outputs).

(** a loop that carries the variables it assigns *)
Fixpoint for_each {A S} (l : list A) (s : S) (body : A → S → M S) : M S :=
  match l with
  | [] => mret s
  | x :: l => s ← body x s; for_each l s body
  end.

(** the body of the loop over the training batches *)
Definition train_batch (opt : Optimizer) (batch : Batch)
    (optimizer : opt_state opt) : M (opt_state opt) :=
  loss ← training_step batch;
  backward loss;;
  optimizer ← step opt optimizer;
  zero_grad;;
  mret optimizer.

Definition train_epoch (opt : Optimizer) (train_loader : DeviceDataLoader)
    (optimizer : opt_state opt) : M (opt_state opt) :=
  batches ← batch_indices (dl train_loader);
  for_each batches optimizer
    (λ indices optimizer,
       batch ← next_batch train_loader indices;
       train_batch opt batch optimizer).

(** the body of the loop over the epochs; it carries [history] and the
    optimizer *)
Definition fit_epoch (opt : Optimizer)
    (train_loader val_loader : DeviceDataLoader) (epoch : nat)
    (s : list (gmap string Scalar) * opt_state opt)
    : M (list (gmap string Scalar) * opt_state opt) :=
  let '(history, optimizer) := s in
  (* Training Phase *)
  optimizer ← train_epoch opt train_loader optimizer;
  (* Validation phase *)
  result ← evaluate val_loader;
  epoch_end epoch result;;
  mret (history ++ [result], optimizer).

(** [fit] from the optimizer it has created: the loop over the epochs.
    The optimizer is a local variable of [fit]; it is returned here next
    to the history so that its last state can be spoken about. *)
Definition fit_loop (opt : Optimizer) (epochs : nat)
    (optimizer : opt_state opt)
    (train_loader val_loader : DeviceDataLoader)
    : M (list (gmap string Scalar) * opt_state opt) :=
  for_each (seq 0 epochs) ([], optimizer)
    (fit_epoch opt train_loader val_loader).

(** the optimizer [fit] works with *)
Definition fit_optimizer (opt : Optimizer) (lr : Scalar)
    : M (opt_state opt) :=
  self ← get_model;
  lift (opt_check opt lr) ;;
  mret (opt_new opt (parameters self) lr).

Definition fit (epochs : nat) (lr : Scalar)
    (train_loader val_loader : DeviceDataLoader) (opt_func : Optimizer)
    : M (list (gmap string Scalar)) :=
  optimizer ← fit_optimizer opt_func lr;
  r ← fit_loop opt_func epochs optimizer train_loader val_loader;
  mret r.1.

(** ** The script *)

(** [Module.to(device)] moves every parameter, its gradient and every
    buffer. *)
Definition param_to (d : Device) (p : Param) : Param :=
  mkParam (tensor_to (data p) d) ((λ g, tensor_to g d) <$> grad p).

Definition bn_to (d : Device) (b : BatchNorm2d) : BatchNorm2d :=
  mkBatchNorm2d (bn_features b) (bn_weight b) (bn_bias b)
    (tensor_to (running_mean b) d) (tensor_to (running_var b) d)
    (num_batches_tracked b).

Definition module_to (d : Device) (m : CIFAR10Model) : CIFAR10Model :=
  let m := imap_parameters (λ _, param_to d) m in
  setattr_bn attr_bn1 (bn_to d (bn1 m))
    (setattr_bn attr_bn2 (bn_to d (bn2 m))
       (setattr_bn attr_bn3 (bn_to d (bn3 m)) m)).

Definition val_size : Z := 5000.
Definition train_size (dataset : Dataset) : Z :=
  Z.of_nat (len dataset) - val_size.
Definition batch_size : Z := 128.

Record Loaders : Type := mkLoaders {
  train_loader : DeviceDataLoader;
  val_loader : DeviceDataLoader;
  test_loader : DeviceDataLoader;
}.

(** [train_ds, val_ds = ...] *)
Definition unpack2 {A} (l : list A) : Res (A * A) :=
  match l with
  | [a; b] => mret (a, b)
  | _ => mthrow (ValueError "wrong number of values to unpack")
  end.

(** Lines 52 to 77 and 183 to 185: the split and the loaders.  The script
    reads a global [device] that it never assigns; it is an input here. *)
Definition prepare_data (dataset test_dataset : Dataset) (device : Device)
    : R Loaders :=
  (* torch.manual_seed(43) *)
  (λ _, Ok ((), manual_seed 43)) ;;
  parts ← random_split dataset [train_size dataset; val_size];
  '(train_ds, val_ds) ← lift (unpack2 parts);
  train_loader ← lift (DataLoader_new train_ds batch_size true);
  val_loader ← lift (DataLoader_new val_ds (batch_size * 2) false);
  test_loader ← lift (DataLoader_new test_dataset (batch_size * 2) false);
  (* for images, _ in train_loader: ... break *)
  draw random_int64 ;;
  order ← sampler train_loader;
  match chunks (Z.to_nat (dl_batch_size train_loader)) order with
  | [] => mret ()
  | indices :: _ => lift (fetch train_loader indices) ;; mret ()
  end ;;
  mret (mkLoaders (mkDeviceDataLoader train_loader device)
          (mkDeviceDataLoader val_loader device)
          (mkDeviceDataLoader test_loader device)).

(** Lines 274 to 300: the first evaluation, the four training phases and
    the two evaluations on the test set. *)
Definition train_and_test (l : Loaders)
    : M (list (gmap string Scalar) * gmap string Scalar) :=
  r ← evaluate (val_loader l);
  let history := [r] in
  h ← fit 10 (float_lit 1 (-1)) (train_loader l) (val_loader l) SGD;
  let history := history ++ h in
  h ← fit 10 (float_lit 1 (-2)) (train_loader l) (val_loader l) SGD;
  let history := history ++ h in
  h ← fit 10 (float_lit 1 (-3)) (train_loader l) (val_loader l) SGD;
  let history := history ++ h in
  h ← fit 10 (float_lit 1 (-4)) (train_loader l) (val_loader l) SGD;
  let history := history ++ h in
  evaluate (test_loader l) ;;
  final_result ← evaluate (test_loader l);
  mret (history, final_result).

Definition main (dataset test_dataset : Dataset) (device : Device)
    (g : Generator)
    : Res (list (gmap string Scalar) * gmap string Scalar * World) :=
  '(loaders, g) ← prepare_data dataset test_dataset device g;
  let '(m, g) := CIFAR10Model_init g in
  let m := module_to device m in
  train_and_test loaders (mkWorld m g []).

(** ** What the passes over the data leave alone

    [learnable] is the model without the buffers of its batch-norm
    modules: every parameter with its gradient, the hyperparameters of the
    layers and the [training] flag. *)

Definition bn_learnable (b : BatchNorm2d) : nat * Param * Param :=
  (bn_features b, bn_weight b, bn_bias b).

Definition learnable (m : CIFAR10Model) :=
  (conv1 m, conv2 m, maxpool1 m, conv3 m, conv4 m, conv5 m, conv6 m,
   linear1 m, linear2 m, dropout1 m,
   bn_learnable (bn1 m), bn_learnable (bn2 m), bn_learnable (bn3 m),
   training m).

(** the number of batches a batch-norm module has counted *)
Definition tracked (a : bn_attr) (w : World) : Z :=
  num_batches_tracked (getattr_bn a (model w)).

(** [frame k w w']: from [w] to [w'] nothing but batch-norm buffers has
    changed in the model, nothing was printed, a model in training mode has
    counted [k a] more batches in its module [a], and a model in evaluation
    mode is unchanged. *)
Definition frame (k : bn_attr → Z) (w w' : World) : Prop :=
  learnable (model w') = learnable (model w) ∧
  stdout w' = stdout w ∧
  (∀ a, tracked a w' = tracked a w + (if training (model w) then k a else 0)) ∧
  (training (model w) = false → model w' = model w).

Definition runs {A} (m : M A) (k : bn_attr → Z) : Prop :=
  ∀ w a w', m w = Ok (a, w') → frame k w w'.

(** [sim w v]: the two states differ at most in the batch-norm buffers of
    a model in training mode. *)
Definition sim (w v : World) : Prop :=
  learnable (model w) = learnable (model v) ∧
  rng w = rng v ∧
  stdout w = stdout v ∧
  (training (model w) = false → model w = model v).

(** [m] cannot tell such states apart. *)
Definition simulates {A} (m : M A) : Prop :=
  ∀ w v a w', sim w v → m w = Ok (a, w') →
    ∃ v', m v = Ok (a, v') ∧ sim w' v'.

(** an attribute that is no batch-norm module *)
Definition plain_attr {A} (attr : CIFAR10Model → A) : Prop :=
  ∀ m m', learnable m = learnable m' → attr m = attr m'.

(** ** Definitions the statements below speak about *)

(** The optimizer of a call of [fit] is local to the call.  This runs the
    call and returns the state of the optimizer when the loop is entered
    and when it is left. *)
Definition fit_states (opt : Optimizer) (epochs : nat) (lr : Scalar)
    (train_loader val_loader : DeviceDataLoader)
    : M (opt_state opt * opt_state opt) :=
  optimizer ← fit_optimizer opt lr;
  r ← fit_loop opt epochs optimizer train_loader val_loader;
  mret (optimizer, r.2).

(** The update of one training batch as the specification words it:
    gradients of the loss, one update scaled by the learning rate, then
    the gradients cleared. *)
Definition spec_gradients (loss : Tensor) (i : nat) (p : Param) : Param :=
  accumulate p (autograd_grad loss i).

Definition spec_descend (lr : Scalar) (p : Param) : Param :=
  match grad p with
  | None => p
  | Some g => mkParam (add_alpha (data p) g (float_neg lr)) (grad p)
  end.

Definition spec_update (lr : Scalar) (loss : Tensor) (m : CIFAR10Model)
    : CIFAR10Model :=
  imap_parameters
    (λ i p, clear_grad (spec_descend lr (spec_gradients loss i p))) m.

Definition spec_train_batch (lr : Scalar) (batch : Batch) : M unit :=
  loss ← training_step batch;
  self ← get_model;
  put_model (spec_update lr loss self).

(** The training loop as the specification words it: per epoch every
    training batch is processed, then the validation partition is
    evaluated and the result appended. *)
Definition spec_epoch (lr : Scalar)
    (train_loader val_loader : DeviceDataLoader) (epoch : nat)
    (history : list (gmap string Scalar))
    : M (list (gmap string Scalar)) :=
  batches ← batch_indices (dl train_loader);
  for_each batches ()
    (λ indices _,
       batch ← next_batch train_loader indices;
       spec_train_batch lr batch) ;;
  result ← evaluate val_loader;
  epoch_end epoch result ;;
  mret (history ++ [result]).

Definition spec_fit (epochs : nat) (lr : Scalar)
    (train_loader val_loader : DeviceDataLoader)
    : M (list (gmap string Scalar)) :=
  for_each (seq 0 epochs) [] (spec_epoch lr train_loader val_loader).

(** The update of a training batch once more, parameter by parameter
    and in terms of the tensor library alone: the gradient of the loss is
    added to what the parameter has accumulated, the parameter moves by
    the total times minus the learning rate, and its gradient is
    cleared. *)
Definition total_gradient (accumulated new : option Tensor)
    : option Tensor :=
  match accumulated, new with
  | None, new => new
  | Some acc, None => Some acc
  | Some acc, Some g => Some (tensor_add acc g)
  end.

Definition updated (lr : Scalar) (g : option Tensor) (p : Param) : Param :=
  match total_gradient (grad p) g with
  | None => mkParam (data p) None
  | Some total =>
      mkParam (add_alpha (data p) total (float_neg lr))
        (if zero_grad_set_to_none then None
         else Some (zeros_like (detach total)))
  end.

(** the sequence for one batch: the cross-entropy loss of the
    predictions, its gradients, the update, the gradients cleared *)
Definition sequence_batch (lr : Scalar) (batch : Batch) : M unit :=
  out ← forward batch.1;
  loss ← lift (F_cross_entropy out batch.2);
  self ← get_model;
  put_model (imap_parameters (λ i, updated lr (autograd_grad loss i)) self).

Definition sequence_epoch (lr : Scalar)
    (train_loader val_loader : DeviceDataLoader) (epoch : nat)
    (history : list (gmap string Scalar))
    : M (list (gmap string Scalar)) :=
  batches ← batch_indices (dl train_loader);
  for_each batches ()
    (λ indices _,
       batch ← next_batch train_loader indices;
       sequence_batch lr batch) ;;
  result ← evaluate val_loader;
  epoch_end epoch result ;;
  mret (history ++ [result]).

(** the loop; the optimizer refuses a negative learning rate before the
    first epoch *)
Definition sequence_fit (epochs : nat) (lr : Scalar)
    (train_loader val_loader : DeviceDataLoader)
    : M (list (gmap string Scalar)) :=
  if float_is_negative lr
  then mthrow (ValueError "Invalid learning rate")
  else for_each (seq 0 epochs) [] (sequence_epoch lr train_loader val_loader).

(** The forward pass as the specification words it: three stages of two
    convolutions, each followed by the activation and the batch-norm
    module of the stage, and a pooling; then the classifier. *)
Definition stage (conv_a conv_b : CIFAR10Model → Conv2d) (bn : bn_attr)
    (out : Tensor) : M Tensor :=
  out ← call_conv conv_a out;
  out ← relu out;
  out ← call_bn bn out;
  out ← call_conv conv_b out;
  out ← relu out;
  out ← call_bn bn out;
  call_maxpool1 out.

Definition classifier (out : Tensor) : M Tensor :=
  out ← flatten out 1;
  out ← call_linear linear1 out;
  out ← relu out;
  out ← call_dropout1 out;
  call_linear linear2 out.

Definition staged_forward (xb : Tensor) : M Tensor :=
  out ← stage conv1 conv2 attr_bn1 xb;
  out ← stage conv3 conv4 attr_bn2 out;
  out ← stage conv5 conv6 attr_bn3 out;
  classifier out.

(** What a batch-norm module in training mode keeps of one input: the
    running mean and the running variance move towards the statistics of
    the input with momentum 0.1, and the batch is counted. *)
Definition bn_observe (bn : BatchNorm2d) (input : Tensor) : BatchNorm2d :=
  mkBatchNorm2d (bn_features bn) (bn_weight bn) (bn_bias bn)
    (running_mean_update (running_mean bn) input (float_lit 1 (-1)))
    (running_var_update (running_var bn) input (float_lit 1 (-1)))
    (num_batches_tracked bn + 1).

(** The forward pass once more, as a function of the model, the
    generator and the input, in terms of the tensor library alone.  A
    batch normalisation returns its output and the module as the call
    leaves it. *)
Definition claimed_batch_norm (train : bool) (bn : BatchNorm2d)
    (x : Tensor) : Res (Tensor * BatchNorm2d) :=
  if train then
    y ← batch_norm_batch_stats x (data (bn_weight bn)) (data (bn_bias bn))
          (float_lit 1 (-5));
    mret (y, bn_observe bn x)
  else
    y ← batch_norm_running_stats x (running_mean bn) (running_var bn)
          (data (bn_weight bn)) (data (bn_bias bn)) (float_lit 1 (-5));
    mret (y, bn).

Definition claimed_conv (c : Conv2d) (x : Tensor) : Res Tensor :=
  F_conv2d x (data (conv_weight c)) (data (conv_bias c)) (conv_padding c).

Definition claimed_linear (l : Linear) (x : Tensor) : Res Tensor :=
  F_linear x (data (lin_weight l)) (data (lin_bias l)).

(** a stage: convolution, activation, batch normalisation, twice, with
    the one module [bn], which the second normalisation takes as the first
    has left it; then the pooling *)
Definition claimed_stage (train : bool) (conv_a conv_b : Conv2d)
    (pool : nat * nat) (bn : BatchNorm2d) (x : Tensor)
    : Res (Tensor * BatchNorm2d) :=
  x ← claimed_conv conv_a x;
  '(x, bn) ← claimed_batch_norm train bn (F_relu x);
  x ← claimed_conv conv_b x;
  '(x, bn) ← claimed_batch_norm train bn (F_relu x);
  x ← F_max_pool2d x pool.1 pool.2;
  mret (x, bn).

(** the two fully-connected layers, with the activation and the dropout
    between them; dropout draws its mask when the model is in training
    mode *)
Definition claimed_classifier (m : CIFAR10Model) (g : Generator)
    (x : Tensor) : Res (Tensor * Generator) :=
  x ← claimed_linear (linear1 m) (torch_flatten x 1);
  let '(x, g) :=
    if training m then dropout2d_sample (F_relu x) (dropout1 m) g
    else (F_relu x, g) in
  x ← claimed_linear (linear2 m) x;
  mret (x, g).

Definition claimed_forward (m : CIFAR10Model) (g : Generator) (xb : Tensor)
    : Res (Tensor * CIFAR10Model * Generator) :=
  '(x, b1) ← claimed_stage (training m) (conv1 m) (conv2 m) (maxpool1 m)
               (bn1 m) xb;
  '(x, b2) ← claimed_stage (training m) (conv3 m) (conv4 m) (maxpool1 m)
               (bn2 m) x;
  '(x, b3) ← claimed_stage (training m) (conv5 m) (conv6 m) (maxpool1 m)
               (bn3 m) x;
  '(x, g) ← claimed_classifier m g x;
  mret (x,
        mkModel (conv1 m) (conv2 m) (maxpool1 m) (conv3 m) (conv4 m)
          (conv5 m) (conv6 m) (linear1 m) (linear2 m) (dropout1 m)
          b1 b2 b3 (training m),
        g).

(** The training phases of the script as a schedule. *)
Definition phases : list (nat * Scalar) :=
  [(10%nat, float_lit 1 (-1)); (10%nat, float_lit 1 (-2));
   (10%nat, float_lit 1 (-3)); (10%nat, float_lit 1 (-4))].

Definition run_phases (schedule : list (nat * Scalar)) (l : Loaders)
    (history : list (gmap string Scalar))
    : M (list (gmap string Scalar)) :=
  for_each schedule history
    (λ phase history,
       h ← fit phase.1 phase.2 (train_loader l) (val_loader l) SGD;
       mret (history ++ h)).

(** the keys of a record of the history *)
Definition keys (record : gmap string Scalar) : gset string := dom record.

(** what [validation_step] returns for a loss and an accuracy *)
Definition step_result (la : Tensor * Tensor) : gmap string Tensor :=
  {[ "val_loss" := la.1; "val_acc" := la.2 ]}.

(** [torch.stack(ts).mean().item()] of a first tensor and the rest *)
Definition mean_of (t : Tensor) (ts : list Tensor) : Scalar :=
  item (tensor_mean (stack_scalars t ts)).

(** a gradient that [zero_grad] has cleared *)
Definition cleared (p : Param) : Prop :=
  match grad p with
  | None => True
  | Some g => ∃ g0, g = zeros_like (detach g0)
  end.

(** [m] prints nothing *)
Definition silent {A} (m : M A) : Prop :=
  ∀ w a w', m w = Ok (a, w') → stdout w' = stdout w.

(** the line [epoch_end] prints for a record of the history *)
Definition printed_as (epoch : nat) (record : gmap string Scalar)
    (line : Line) : Prop :=
  line_epoch line = epoch ∧
  record !! "val_loss" = Some (line_val_loss line) ∧
  record !! "val_acc" = Some (line_val_acc line).


(** ** More of the script *)

(** [len(dl)] of a [DataLoader] that keeps the last batch: the number of
    batches of an iteration *)
Definition DataLoader_len (loader : DataLoader) : Z :=
  (Z.of_nat (len (dl_dataset loader)) + dl_batch_size loader - 1)
    `div` dl_batch_size loader.

(** [DeviceDataLoader.__len__] *)
Definition DeviceDataLoader_len (loader : DeviceDataLoader) : Z :=
  DataLoader_len (dl loader).

(** [m] leaves a state that [R] relates to the state it starts from *)
Definition preserves {A} (R : World → World → Prop) (m : M A) : Prop :=
  ∀ w a w', m w = Ok (a, w') → R w w'.

(** the mode of the model is kept *)
Definition same_mode (w w' : World) : Prop :=
  training (model w') = training (model w).

(** with the model in evaluation mode nothing changes at all *)
Definition unchanged_in_eval (w w' : World) : Prop :=
  training (model w) = false → w' = w.

(** every batch-norm module of [w'] is the module of [w] after it has
    observed some inputs, one after the other *)
Definition observed (w w' : World) : Prop :=
  ∀ a, ∃ inputs,
    getattr_bn a (model w') = foldl bn_observe (getattr_bn a (model w)) inputs.

(** the state with another generator *)
Definition with_generator (g : Generator) (w : World) : World :=
  mkWorld (model w) g (stdout w).

(** with the model in evaluation mode [m] changes nothing, and returns the
    same whatever the generator *)
Definition repeatable_in_eval {A} (m : M A) : Prop :=
  ∀ w a w', training (model w) = false → m w = Ok (a, w') →
    w' = w ∧ ∀ g, m (with_generator g w) = Ok (a, with_generator g w).

(** [plot_losses] and [plot_accuracies] read one number from every record
    of the history and hand the list to [plt.plot]; the list is what is
    returned here. *)
Definition plot_losses (history : list (gmap string Scalar))
    : Res (list Scalar) :=
  mapM (getitem "val_loss") history.

Definition plot_accuracies (history : list (gmap string Scalar))
    : Res (list Scalar) :=
  mapM (getitem "val_acc") history.

(** [to_device] as the script defines it, on whatever it is given: a
    tensor, or a list or a tuple of such data.  Lists and tuples both come
    back as lists. *)
#[local] Unset Elimination Schemes.
Inductive Data : Type :=
  | DTensor (t : Tensor)
  | DList (l : list Data)
  | DTuple (l : list Data).
#[local] Set Elimination Schemes.

Fixpoint to_device_data (data : Data) (device : Device) : Data :=
  match data with
  | DList l | DTuple l => DList ((λ x, to_device_data x device) <$> l)
  | DTensor t => DTensor (tensor_to t device)
  end.

(** the tensors of a datum, from left to right *)
Fixpoint tensors (data : Data) : list Tensor :=
  match data with
  | DTensor t => [t]
  | DList l | DTuple l => concat (tensors <$> l)
  end.

Fixpoint has_tuple (data : Data) : bool :=
  match data with
  | DTensor _ => false
  | DList l => existsb has_tuple l
  | DTuple _ => true
  end.

(** a batch as the loader yields it: the list of the images and the
    labels *)
Definition batch_data (b : Batch) : Data := DList [DTensor b.1; DTensor b.2].

(** [count_parameters]: every parameter of the model requires a gradient,
    the script never turns that off; [numel] is the number of entries of a
    tensor. *)
Definition count_parameters (numel : Tensor → Z) (m : CIFAR10Model) : Z :=
  sum_list (numel <$> (data <$> parameters m)).

(** Python's [l[i]] *)
Definition py_index {A} (l : list A) (i : Z) : Res A :=
  let n := Z.of_nat (length l) in
  let j := if decide (i < 0) then n + i else i in
  if decide (0 ≤ j) then
    match l !! Z.to_nat j with
    | Some x => mret x
    | None => mthrow IndexError
    end
  else mthrow IndexError.

(** Lines 36 to 44: the number of images of each class.  [classes] is
    [dataset.classes]. *)
Definition class_count_step (classes : list string)
    (class_count : gmap string Z) (sample : Tensor * Z)
    : Res (gmap string Z) :=
  let index := sample.2 in
  label ← py_index classes index;
  let class_count :=
    match class_count !! label with
    | None => <[label := 0]> class_count
    | Some _ => class_count
    end in
  n ← getitem label class_count;
  mret (<[label := n + 1]> class_count).

Fixpoint class_count_from (classes : list string)
    (samples : list (Tensor * Z)) (class_count : gmap string Z)
    : Res (gmap string Z) :=
  match samples with
  | [] => mret class_count
  | sample :: samples =>
      class_count ← class_count_step classes class_count sample;
      class_count_from classes samples class_count
  end.

Definition class_count (classes : list string)
    (samples : list (Tensor * Z)) : Res (gmap string Z) :=
  class_count_from classes samples ∅.

(** the number of samples of a class *)
Definition images_of (classes : list string) (samples : list (Tensor * Z))
    (label : string) : nat :=
  length (filter (λ sample, classes !! Z.to_nat sample.2 = Some label)
            samples).

(** the number of entries of a tensor of a shape *)
Definition entries (shape : list nat) : Z :=
  foldr Z.mul 1 (Z.of_nat <$> shape).

(** [Module.train(mode)]; [model.eval()] is [model.train(False)].  The
    script calls neither. *)
Definition Module_train (mode : bool) (m : CIFAR10Model) : CIFAR10Model :=
  mkModel (conv1 m) (conv2 m) (maxpool1 m) (conv3 m) (conv4 m) (conv5 m)
    (conv6 m) (linear1 m) (linear2 m) (dropout1 m) (bn1 m) (bn2 m) (bn3 m)
    mode.

End Framework.


Abbreviation M := (StateRes World).
Abbreviation R := (StateRes Generator).

(** * Two instances of the interface

    [Shapes] computes with the shapes of the tensors and with the class
    indices of the labels only, and checks them the way torch does.  It
    decides which shapes and which labels the network accepts. *)

Module Shapes.

Definition shape_error {A} : Res A :=
  Raise (RuntimeError "shape mismatch").

Definition conv2d (input weight bias : list nat) (padding : nat)
    : Res (list nat) :=
  match input, weight, bias with
  | [n; c; h; w], [co; ci; kh; kw], [cb] =>
      if decide (c = ci ∧ cb = co ∧ kh ≤ h + 2 * padding
                 ∧ kw ≤ w + 2 * padding)%nat
      then Ok [n; co; h + 2 * padding - kh + 1; w + 2 * padding - kw + 1]%nat
      else shape_error
  | _, _, _ => shape_error
  end.

Definition max_pool2d (input : list nat) (kernel stride : nat)
    : Res (list nat) :=
  match input with
  | [n; c; h; w] =>
      if decide (kernel ≤ h ∧ kernel ≤ w ∧ 0 < stride)%nat
      then Ok [n; c; (h - kernel) / stride + 1; (w - kernel) / stride + 1]%nat
      else shape_error
  | _ => shape_error
  end.

Definition linear (input weight bias : list nat) : Res (list nat) :=
  match input, weight, bias with
  | [n; f], [o; i], [ob] =>
      if decide (f = i ∧ ob = o) then Ok [n; o] else shape_error
  | _, _, _ => shape_error
  end.

(** A tensor of class indices is kept as the list of its entries, each
    coded as a natural number: 0 for the index -100, which
    [F.cross_entropy] ignores, 1 for any other negative index, and k + 2
    for the index k. *)
Definition label_code (label : Z) : nat :=
  if decide (label = -100) then 0%nat
  else if decide (label < 0) then 1%nat
  else S (S (Z.to_nat label)).

(** [F.cross_entropy] on scores of shape [n, c] wants n class indices,
    each ignored or below c. *)
Definition cross_entropy (input target : list nat) : Res (list nat) :=
  match input with
  | [n; c] =>
      if decide (length target = n) then
        if decide (Forall (λ code, code = 0 ∨ 2 ≤ code < c + 2)%nat target)
        then Ok []
        else Raise IndexError
      else Raise (ValueError "Expected input batch_size to match target")
  | _ => shape_error
  end.

Definition batch_norm (input weight bias : list nat) : Res (list nat) :=
  match input, weight, bias with
  | [n; c; h; w], [cw], [cb] =>
      if decide (c = cw ∧ c = cb) then Ok input else shape_error
  | _, _, _ => shape_error
  end.

(** with [training=True] torch wants more than one value per channel *)
Definition batch_norm_train (input weight bias : list nat) (eps : unit)
    : Res (list nat) :=
  match input with
  | [n; c; h; w] =>
      if decide (1 < n * h * w)%nat then batch_norm input weight bias
      else Raise (ValueError "Expected more than 1 value per channel")
  | _ => shape_error
  end.

Definition flatten (input : list nat) (start_dim : nat) : list nat :=
  take start_dim input ++ [foldr Nat.mul 1%nat (drop start_dim input)].

Definition backend : Backend := {|
  Tensor := list nat;
  Scalar := unit;
  Generator := unit;
  Device := unit;
  float_lit := λ _ _, ();
  int_truediv := λ _ _, ();
  float_neg := λ _, ();
  float_is_zero := λ _, false;
  float_is_negative := λ _, false;
  F_conv2d := conv2d;
  F_relu := λ input, input;
  F_max_pool2d := max_pool2d;
  F_linear := linear;
  F_cross_entropy := cross_entropy;
  batch_norm_batch_stats := batch_norm_train;
  running_mean_update := λ running _ _, running;
  running_var_update := λ running _ _, running;
  batch_norm_running_stats := λ input _ _ weight bias _,
    batch_norm input weight bias;
  dropout2d_sample := λ input _ g, (input, g);
  torch_flatten := flatten;
  torch_argmax := λ input dim, take dim input ++ drop (S dim) input;
  count_eq := λ _ _, 0;
  tensor_len := λ t, Z.of_nat (hd 0%nat t);
  torch_tensor := λ _, [];
  detach := λ t, t;
  stack_scalars := λ t ts, [S (length ts)];
  tensor_mean := λ _, [];
  item := λ _, ();
  add_alpha := λ self _ _, self;
  tensor_add := λ a _, a;
  tensor_mul := λ a _, a;
  tensor_clone := λ a, a;
  zeros_like := λ a, a;
  tensor_to := λ a _, a;
  ones := λ shape, shape;
  zeros := λ shape, shape;
  init_uniform := λ shape _ g, (shape, g);
  autograd_grad := λ _ _, None;
  zero_grad_set_to_none := true;
  manual_seed := λ _, ();
  random_int64 := λ g, (0, g);
  randperm := λ n g, (seq 0 n, g);
  default_collate := λ samples,
    (length samples :: hd [] (fst <$> samples),
     (λ sample, label_code sample.2) <$> samples);
|}.

(** the network as the script creates it *)
Definition model0 : @CIFAR10Model backend :=
  (CIFAR10Model_init (B := backend) ()).1.

End Shapes.

(** a state whose model has the layers of the script's network, with
    whatever buffers *)
Definition as_created (W : @World Shapes.backend) : Prop :=
  learnable (B := Shapes.backend) (model W) =
  learnable (B := Shapes.backend) Shapes.model0.

(** a sample of CIFAR10: an image of 3 channels and 32 x 32 positions
    with the index of one of the 10 classes *)
Definition cifar_sample (sample : @Tensor Shapes.backend * Z) : Prop :=
  sample.1 = [3; 32; 32]%nat ∧ 0 ≤ sample.2 < 10.

(** a dataset of such samples: every index below its length selects
    one *)
Definition cifar_dataset (d : @Dataset Shapes.backend) : Prop :=
  ∀ i, (i < len (B := Shapes.backend) d)%nat →
    ∃ sample,
      dataset_getitem (B := Shapes.backend) d i = Ok sample ∧
      cifar_sample sample.

(** a batch of [n] such samples *)
Definition cifar_batch (n : nat) (batch : @Batch Shapes.backend) : Prop :=
  batch.1 = [n; 3; 32; 32]%nat ∧ length batch.2 = n ∧
  Forall (λ code, 2 ≤ code < 12)%nat batch.2.

(** a loader of such images *)
Definition cifar_loader (loader : @DeviceDataLoader Shapes.backend) : Prop :=
  0 < dl_batch_size (dl loader) ∧ cifar_dataset (dl_dataset (dl loader)).

(** [Toy] is a small instance with exact arithmetic, for closed examples:
    it is not torch's arithmetic.  A tensor holds one rational number per
    sample of the batch, a parameter tensor holds one number, and every
    number carries its partial derivatives with respect to the parameters
    (forward-mode differentiation), so that [autograd_grad] returns the
    true gradient of what the instance computes.  Convolutions and linear
    layers are affine maps [w * x + b], batch normalisation subtracts the
    mean, pooling and flattening do nothing, the loss is the mean squared
    distance to the labels, and dropout keeps or zeroes each sample by the
    next bit of a linear congruential generator. *)

Module Toy.

Definition q (a : Q) : Q := Qred a.
Definition qadd (a b : Q) : Q := Qred (Qplus a b).
Definition qsub (a b : Q) : Q := Qred (Qminus a b).
Definition qmul (a b : Q) : Q := Qred (Qmult a b).
Definition qdiv (a b : Q) : Q := Qred (Qdiv a b).
Definition qnat (n : nat) : Q := inject_Z (Z.of_nat n).

(** derivative vectors; a missing entry is zero *)
Fixpoint vadd (u v : list Q) : list Q :=
  match u, v with
  | [], v => v
  | u, [] => u
  | x :: u, y :: v => qadd x y :: vadd u v
  end.

Definition vscale (c : Q) (u : list Q) : list Q := qmul c <$> u.

Record Dual : Type := mkDual { val : Q; der : list Q }.

Definition const (c : Q) : Dual := mkDual (q c) [].
(** the [i]-th parameter, with value [c] *)
Definition leaf (i : nat) (c : Q) : Dual :=
  mkDual (q c) (replicate i 0%Q ++ [1%Q]).
Definition dadd (a b : Dual) : Dual :=
  mkDual (qadd (val a) (val b)) (vadd (der a) (der b)).
Definition dscale (c : Q) (a : Dual) : Dual :=
  mkDual (qmul c (val a)) (vscale c (der a)).
Definition dsub (a b : Dual) : Dual := dadd a (dscale (-1) b).
Definition dmul (a b : Dual) : Dual :=
  mkDual (qmul (val a) (val b))
    (vadd (vscale (val a) (der b)) (vscale (val b) (der a))).

Definition dsum (l : list Dual) : Dual := foldr dadd (const 0) l.
Definition dmean (l : list Dual) : Dual :=
  match l with
  | [] => const 0
  | _ => dscale (qdiv 1 (qnat (length l))) (dsum l)
  end.

Definition bad_shape {A} : Res A := Raise (RuntimeError "shape mismatch").

Definition affine (input weight bias : list Dual) : Res (list Dual) :=
  match weight, bias with
  | [w], [b] => Ok ((λ x, dadd (dmul w x) b) <$> input)
  | _, _ => bad_shape
  end.

Definition relu1 (x : Dual) : Dual :=
  if Qle_bool (val x) 0 then const 0 else x.

Definition centre (input : list Dual) (mean : Dual) (weight bias : list Dual)
    : Res (list Dual) :=
  match weight, bias with
  | [w], [b] => Ok ((λ x, dadd (dmul w (dsub x mean)) b) <$> input)
  | _, _ => bad_shape
  end.

Definition moving (running input : list Dual) (momentum : Q)
    (stat : list Dual → Dual) : list Dual :=
  match running with
  | [r] => [const (qadd (qmul (qsub 1 momentum) (val r))
                        (qmul momentum (val (stat input))))]
  | _ => running
  end.

Definition variance (input : list Dual) : Dual :=
  dmean ((λ x, let d := dsub x (dmean input) in dmul d d) <$> input).

Definition squared_error (input target : list Dual) : Res (list Dual) :=
  match input with
  | [] => bad_shape
  | _ =>
      if decide (length input = length target) then
        Ok [dmean (zip_with (λ x y, let d := dsub x y in dmul d d)
                     input target)]
      else bad_shape
  end.

(** the generator: x' = (1103515245 x + 12345) mod 2^31, bit 16 is used *)
Definition next (g : Z) : Z := (1103515245 * g + 12345) `mod` 2147483648.
Definition bit (g : Z) : bool := Z.odd (g / 65536).

Fixpoint dropout (input : list Dual) (p : Q) (g : Z) : list Dual * Z :=
  match input with
  | [] => ([], g)
  | x :: input =>
      let g := next g in
      let x := if bit g then dscale (qdiv 1 (qsub 1 p)) x else const 0 in
      let '(rest, g) := dropout input p g in
      (x :: rest, g)
  end.

Definition rotate (k : nat) (l : list nat) : list nat :=
  drop k l ++ take k l.

Definition pow10 (k : Z) : Q :=
  if decide (0 ≤ k) then inject_Z (10 ^ k)
  else Qinv (inject_Z (10 ^ (- k))).

Definition backend : Backend := {|
  Tensor := list Dual;
  Scalar := Q;
  Generator := Z;
  Device := unit;
  float_lit := λ m k, qmul (inject_Z m) (pow10 k);
  int_truediv := λ a b, qdiv (inject_Z a) (inject_Z b);
  float_neg := λ a, qsub 0 a;
  float_is_zero := λ a, Qeq_bool a 0;
  float_is_negative := λ a, negb (Qle_bool 0 a);
  F_conv2d := λ input weight bias _, affine input weight bias;
  F_relu := λ input, relu1 <$> input;
  F_max_pool2d := λ input _ _, Ok input;
  F_linear := affine;
  F_cross_entropy := squared_error;
  batch_norm_batch_stats := λ input weight bias _,
    centre input (dmean input) weight bias;
  running_mean_update := λ running input momentum,
    moving running input momentum dmean;
  running_var_update := λ running input momentum,
    moving running input momentum variance;
  batch_norm_running_stats := λ input mean _ weight bias _,
    centre input (const (val (dmean mean))) weight bias;
  dropout2d_sample := dropout;
  torch_flatten := λ input _, input;
  torch_argmax := λ input _,
    (λ x, const (if Qle_bool (val x) (1 # 2) then 0 else 1)) <$> input;
  count_eq := λ a b,
    Z.of_nat (length (filter (λ xy, Qeq_bool (val xy.1) (val xy.2) = true)
                        (zip a b)));
  tensor_len := λ t, Z.of_nat (length t);
  torch_tensor := λ c, [const c];
  detach := λ t, (λ x, const (val x)) <$> t;
  stack_scalars := λ t ts, t ++ concat ts;
  tensor_mean := λ t, [dmean t];
  item := λ t, match t with x :: _ => val x | [] => 0%Q end;
  add_alpha := λ self other alpha,
    zip_with (λ x y, mkDual (qadd (val x) (qmul alpha (val y))) (der x))
      self other;
  tensor_add := λ a b, zip_with (λ x y, const (qadd (val x) (val y))) a b;
  tensor_mul := λ a c, (λ x, const (qmul c (val x))) <$> a;
  tensor_clone := λ a, a;
  zeros_like := λ a, (λ _, const 0) <$> a;
  tensor_to := λ a _, a;
  ones := λ _, [const 1];
  zeros := λ _, [const 0];
  init_uniform := λ _ fan_in g,
    let g := next g in
    ([const (qdiv (inject_Z (g `mod` 201 - 100))
               (qnat (100 * S fan_in)))], g);
  autograd_grad := λ loss i,
    match loss with
    | [l] => Some [const (nth i (der l) 0%Q)]
    | _ => None
    end;
  zero_grad_set_to_none := true;
  manual_seed := λ s, s `mod` 2147483648;
  random_int64 := λ g, (next g, next g);
  randperm := λ n g,
    (rotate (Z.to_nat (next g `mod` Z.of_nat n)) (seq 0 n), next g);
  default_collate := λ samples,
    (concat (fst <$> samples), (λ s, const (inject_Z s.2)) <$> samples);
|}.

(** The model the instance works with: the network of the script with the
    given values for its 22 parameters, each registered as the leaf of its
    position, in training mode as the script leaves it. *)
Definition model_with (values : list Q) : @CIFAR10Model backend :=
  imap_parameters (B := backend)
    (λ i _, mkParam (B := backend) [leaf i (nth i values 0%Q)] None)
    (CIFAR10Model_init (B := backend) 0).1.

(** a data set of one-number images with their labels *)
Definition samples (l : list (Q * Z)) : @Dataset backend :=
  CIFAR10 (B := backend) ((λ xy, ([const xy.1], xy.2)) <$> l).

End Toy.

(** Inputs of the closed examples, in the instance [Toy]: a model in
    training mode, a data set of four samples, a validation loader over it
    with batches of two and a training loader that shuffles. *)

Module Example.

Definition weights : list Q :=
  [1; 0; 1; 0; 1; 0; 1; 0; 1; 0; 1; 0; 1; 1; 1; 0; 1; 0; 1; 0; 1; 0]%Q.

Definition world : @World Toy.backend :=
  mkWorld (B := Toy.backend) (Toy.model_with weights) 7 [].

Definition dataset : @Dataset Toy.backend :=
  Toy.samples [(0%Q, 0); (2%Q, 1); (1%Q, 1); (5%Q, 0)].

Definition val_loader : @DeviceDataLoader Toy.backend :=
  mkDeviceDataLoader (B := Toy.backend)
    (mkDataLoader (B := Toy.backend) dataset 2 false) ().

Definition train_loader : @DeviceDataLoader Toy.backend :=
  mkDeviceDataLoader (B := Toy.backend)
    (mkDataLoader (B := Toy.backend) dataset 2 true) ().

(** a loader over no sample at all *)
Definition empty_loader : @DeviceDataLoader Toy.backend :=
  mkDeviceDataLoader (B := Toy.backend)
    (mkDataLoader (B := Toy.backend) (Toy.samples []) 2 false) ().

(** two samples, one batch an epoch *)
Definition pair_dataset : @Dataset Toy.backend :=
  Toy.samples [(0%Q, 0); (2%Q, 1)].

Definition pair_train : @DeviceDataLoader Toy.backend :=
  mkDeviceDataLoader (B := Toy.backend)
    (mkDataLoader (B := Toy.backend) pair_dataset 2 true) ().

Definition pair_val : @DeviceDataLoader Toy.backend :=
  mkDeviceDataLoader (B := Toy.backend)
    (mkDataLoader (B := Toy.backend) pair_dataset 2 false) ().

(** A model whose second linear layer ignores its input and answers 1,
    and a batch with the labels 0 and 2: the loss is 1 and the
    contributions of the two samples to every gradient cancel. *)
Definition stationary : @World Toy.backend :=
  mkWorld (B := Toy.backend)
    (Toy.model_with
       [1; 0; 1; 0; 1; 0; 1; 0; 1; 0; 1; 0; 0; 0; 0; 1; 1; 0; 1; 0; 1; 0]%Q)
    7 [].

Definition batch02 : @Batch Toy.backend :=
  ([Toy.const 0; Toy.const 2], [Toy.const 0; Toy.const 2]).

(** a corpus of the size of the CIFAR10 training set *)
Definition corpus : list (@Tensor Toy.backend * Z) :=
  replicate (Z.to_nat 50000) ([Toy.const 0], 0).

(** an optimizer with momentum, as [opt_func] of [fit] *)
Definition SGD_momentum : @Optimizer Toy.backend :=
  SGD_with (B := Toy.backend) (Some (9 # 10)%Q).

(** an optimizer whose second step leaves the parameters without
    entries *)
Definition breaking : @Optimizer Toy.backend :=
  mkOptimizer (B := Toy.backend) nat (λ _, Ok ()) (λ _ _, 0%nat)
    (λ st _ p,
       if decide (st = 1%nat) then mkParam (B := Toy.backend) [] None else p)
    (λ st _, S st).

(** the state [world] after [model.eval()] *)
Definition eval_world : @World Toy.backend :=
  mkWorld (B := Toy.backend)
    (Module_train (B := Toy.backend) false (Toy.model_with weights)) 7 [].

End Example.

(** Examples in the instance [Shapes]: three images in batches of two. *)
Module ShapeExample.

Definition image : @Tensor Shapes.backend * Z := ([3; 32; 32]%nat, 0).

Definition images : @Dataset Shapes.backend :=
  CIFAR10 (B := Shapes.backend) (replicate 3 image).

Definition train : @DeviceDataLoader Shapes.backend :=
  mkDeviceDataLoader (B := Shapes.backend)
    (mkDataLoader (B := Shapes.backend) images 2 true) ().

Definition val : @DeviceDataLoader Shapes.backend :=
  mkDeviceDataLoader (B := Shapes.backend)
    (mkDataLoader (B := Shapes.backend) images 2 false) ().

Definition loaders : @Loaders Shapes.backend :=
  mkLoaders (B := Shapes.backend) train val val.

Definition world : @World Shapes.backend :=
  mkWorld (B := Shapes.backend) Shapes.model0 () [].

(** images of 28 x 28 positions, which the network does not take *)
Definition small_images : @Dataset Shapes.backend :=
  CIFAR10 (B := Shapes.backend) (replicate 3 ([3; 28; 28]%nat, 0)).

Definition small_val : @DeviceDataLoader Shapes.backend :=
  mkDeviceDataLoader (B := Shapes.backend)
    (mkDataLoader (B := Shapes.backend) small_images 2 false) ().

(** a corpus that leaves one image to train on *)
Definition corpus : list (@Tensor Shapes.backend * Z) :=
  replicate (Z.to_nat 5001) image.

End ShapeExample.

(** * Reasoning about computations *)

Section Monad.
Context {S : Type}.

Lemma bind_Ok {A C} (m : StateRes S A) (f : A → StateRes S C) s c s' :
  (m ≫= f) s = Ok (c, s') ↔ ∃ a s1, m s = Ok (a, s1) ∧ f a s1 = Ok (c, s').
Proof.
  unfold mbind, StateRes_bind. destruct (m s) as [[a s1]|e]; split.
  - eauto.
  - intros (? & ? & [= <- <-] & ?); done.
  - done.
  - intros (? & ? & ? & ?); done.
Qed.

Lemma bind_step {A C} (m : StateRes S A) (f : A → StateRes S C) s a s1 :
  m s = Ok (a, s1) → (m ≫= f) s = f a s1.
Proof. unfold mbind, StateRes_bind. by intros ->. Qed.

Lemma bind_Raise {A C} (m : StateRes S A) (f : A → StateRes S C) s e :
  m s = Raise e → (m ≫= f) s = Raise e.
Proof. unfold mbind, StateRes_bind. by intros ->. Qed.

Lemma ret_Ok {A} (a b : A) (s s' : S) :
  (mret a : StateRes S A) s = Ok (b, s') ↔ a = b ∧ s = s'.
Proof. unfold mret, StateRes_ret. naive_solver. Qed.

Lemma lift_Ok {A} (r : Res A) (a : A) (s s' : S) :
  lift r s = Ok (a, s') ↔ r = Ok a ∧ s = s'.
Proof. unfold lift. destruct r; naive_solver. Qed.

Lemma bind_assoc {A C D} (m : StateRes S A) (f : A → StateRes S C)
    (g : C → StateRes S D) s :
  ((m ≫= f) ≫= g) s = (m ≫= (λ a, f a ≫= g)) s.
Proof. unfold mbind, StateRes_bind. by destruct (m s) as [[??]|?]. Qed.

End Monad.

Lemma Res_bind_Ok {A C} (r : Res A) (f : A → Res C) c :
  r ≫= f = Ok c ↔ ∃ a, r = Ok a ∧ f a = Ok c.
Proof. destruct r; simpl; naive_solver. Qed.


Section Theory.
Context {B : Backend}.

Global Instance bn_attr_eq_dec : EqDecision bn_attr.
Proof. solve_decision. Defined.

(** inverts a successful run of a sequence of commands *)
Ltac inv_run H :=
  match type of H with
  | (_ ≫= _) _ = Ok _ =>
      let a := fresh "a" in let w := fresh "w" in
      let H1 := fresh "Hrun" in let H2 := fresh "Hrun" in
      apply bind_Ok in H as (a & w & H1 & H2);
      inv_run H1; inv_run H2
  | mret _ _ = Ok _ =>
      apply ret_Ok in H as [? ?]; simplify_eq/=
  | lift _ _ = Ok _ =>
      apply lift_Ok in H as [H ?]; simplify_eq/=
  | get_model _ = Ok _ => injection H as <- <-
  | put_model _ _ = Ok _ => injection H as <-
  | print _ _ = Ok _ => injection H as <-
  | (let '(_, _) := ?p in _) _ = Ok _ => destruct p; inv_run H
  | _ => idtac
  end.

(** ** Frames *)

Lemma draw_Ok {A} (f : Generator → A * Generator) g :
  draw f g = Ok ((f g).1, (f g).2).
Proof. unfold draw. by destruct (f g). Qed.

Lemma frame_refl w : frame (λ _, 0) w w.
Proof.
  unfold frame. split_and!; try done.
  intros a. destruct (training _); lia.
Qed.

Lemma frame_trans k1 k2 w w1 w2 :
  frame k1 w w1 → frame k2 w1 w2 → frame (λ a, k1 a + k2 a) w w2.
Proof.
  intros (Hl1 & Ho1 & Ht1 & He1) (Hl2 & Ho2 & Ht2 & He2).
  assert (training (model w1) = training (model w)) as Htr
    by (by injection Hl1).
  repeat split.
  - congruence.
  - congruence.
  - intros a. rewrite Ht2, Ht1, Htr. destruct (training _); lia.
  - intros Hf. rewrite He2, He1; congruence.
Qed.

Lemma frame_weaken k k' w w' : (∀ a, k a = k' a) → frame k w w' → frame k' w w'.
Proof.
  intros Hk (? & ? & Ht & ?). repeat split; try done.
  intros a. by rewrite Ht, Hk.
Qed.

Lemma runs_weaken {A} (m : M A) k k' :
  (∀ a, k a = k' a) → runs m k → runs m k'.
Proof. intros Hk Hm w a w' Hrun. eapply frame_weaken, Hm; eauto. Qed.

Lemma runs_ret {A} (a : A) : runs (mret a) (λ _, 0).
Proof. intros w b w' Hrun. inv_run Hrun. apply frame_refl. Qed.

Lemma runs_lift {A} (r : Res A) : runs (lift r) (λ _, 0).
Proof. intros w b w' Hrun. inv_run Hrun. apply frame_refl. Qed.

Lemma runs_bind {A C} (m : M A) (f : A → M C) k1 k2 :
  runs m k1 → (∀ a, runs (f a) k2) → runs (m ≫= f) (λ a, k1 a + k2 a).
Proof.
  intros Hm Hf w c w' Hrun. apply bind_Ok in Hrun as (a & w1 & H1 & H2).
  eapply frame_trans; [by eapply Hm | by eapply Hf].
Qed.

(** a command that counts no batch, followed by another *)
Lemma runs_bind0 {A C} (m : M A) (f : A → M C) k :
  runs m (λ _, 0) → (∀ a, runs (f a) k) → runs (m ≫= f) k.
Proof.
  intros Hm Hf. eapply runs_weaken; [|by apply runs_bind].
  intros a; simpl; lia.
Qed.

Lemma runs_with_rng {A} (r : R A) : runs (with_rng r) (λ _, 0).
Proof.
  intros w a w'. unfold with_rng.
  destruct (r (rng w)) as [[a' g]|e]; [|done]. intros [= <- <-].
  unfold frame; simpl. split_and!; try done.
  intros a0. unfold tracked; simpl. destruct (training _); lia.
Qed.

Lemma runs_call_conv attr out : runs (call_conv attr out) (λ _, 0).
Proof. intros w a w' Hrun. unfold call_conv in Hrun. inv_run Hrun. apply frame_refl. Qed.

Lemma runs_call_linear attr out : runs (call_linear attr out) (λ _, 0).
Proof. intros w a w' Hrun. unfold call_linear in Hrun. inv_run Hrun. apply frame_refl. Qed.

Lemma runs_call_maxpool1 out : runs (call_maxpool1 out) (λ _, 0).
Proof. intros w a w' Hrun. unfold call_maxpool1 in Hrun. inv_run Hrun. apply frame_refl. Qed.

Lemma runs_relu out : runs (relu out) (λ _, 0).
Proof. apply runs_ret. Qed.

Lemma runs_flatten out d : runs (flatten out d) (λ _, 0).
Proof. apply runs_ret. Qed.

Lemma runs_call_dropout1 out : runs (call_dropout1 out) (λ _, 0).
Proof.
  intros w a w' Hrun. unfold call_dropout1 in Hrun.
  apply bind_Ok in Hrun as (m & w1 & H1 & H2). inv_run H1.
  unfold Dropout2d_forward in H2. destruct (training (model _)) eqn:Htr.
  - by eapply runs_with_rng.
  - inv_run H2. apply frame_refl.
Qed.

(** one call of a batch-norm module counts one batch in that module *)
Definition tick (a a' : bn_attr) : Z := if decide (a = a') then 1 else 0.

Lemma runs_call_bn a out : runs (call_bn a out) (tick a).
Proof.
  intros w r w' Hrun. unfold call_bn in Hrun.
  apply bind_Ok in Hrun as (m & w1 & H1 & H2). inv_run H1.
  apply bind_Ok in H2 as ([out' bn'] & w2 & H2 & H3).
  apply lift_Ok in H2 as [H2 <-]. inv_run H3.
  unfold BatchNorm2d_forward in H2.
  destruct w as [m g o]; simpl in *.
  destruct (training m) eqn:Htr.
  - apply Res_bind_Ok in H2 as (y & Hy & [= <- <-]).
    unfold frame; simpl. split_and!; try done.
    + by destruct a, m.
    + intros a'. unfold tracked, tick; simpl. rewrite Htr.
      destruct a, a'; simpl; lia.
    + by rewrite Htr.
  - apply Res_bind_Ok in H2 as (y & Hy & [= <- <-]).
    assert (setattr_bn a (getattr_bn a m) m = m) as -> by (by destruct a, m).
    unfold frame; simpl. split_and!; try done.
    intros a'. rewrite Htr. lia.
Qed.
Create HintDb runs discriminated.
Hint Resolve runs_ret runs_lift runs_with_rng runs_call_conv runs_call_linear
  runs_call_maxpool1 runs_relu runs_flatten runs_call_dropout1 runs_call_bn
  : runs.

(** splits a sequence of commands, adding up what its commands count *)
Ltac runs_seq :=
  repeat (eapply runs_bind; [solve [eauto with runs] | intros ?]);
  eauto with runs.

(** A forward pass calls each batch-norm module twice. *)
Lemma runs_forward xb : runs (forward xb) (λ _, 2).
Proof.
  eapply runs_weaken; cycle 1.
  - unfold forward. runs_seq.
  - by intros [].
Qed.
Hint Resolve runs_forward : runs.

Lemma runs_training_step batch : runs (training_step batch) (λ _, 2).
Proof.
  destruct batch as [images labels]. eapply runs_weaken; cycle 1.
  - unfold training_step. runs_seq.
  - by intros [].
Qed.

Lemma runs_validation_step batch : runs (validation_step batch) (λ _, 2).
Proof.
  destruct batch as [images labels]. eapply runs_weaken; cycle 1.
  - unfold validation_step. runs_seq.
  - by intros [].
Qed.
Hint Resolve runs_training_step runs_validation_step : runs.

Lemma runs_next_batch loader indices : runs (next_batch loader indices) (λ _, 0).
Proof.
  eapply runs_weaken; cycle 1.
  - unfold next_batch. runs_seq.
  - by intros [].
Qed.

Lemma runs_batch_indices loader : runs (batch_indices loader) (λ _, 0).
Proof.
  eapply runs_weaken; cycle 1.
  - unfold batch_indices. runs_seq.
  - by intros [].
Qed.
Hint Resolve runs_next_batch runs_batch_indices : runs.

Lemma mapM_nil_Ok {S A C} (f : A → StateRes S C) s r s' :
  mapM f [] s = Ok (r, s') ↔ r = [] ∧ s = s'.
Proof. simpl. rewrite ret_Ok. naive_solver. Qed.

Lemma mapM_cons_Ok {S A C} (f : A → StateRes S C) x l s r s' :
  mapM f (x :: l) s = Ok (r, s') ↔
  ∃ y s1 ys, f x s = Ok (y, s1) ∧ mapM f l s1 = Ok (ys, s') ∧ r = y :: ys.
Proof.
  change (mapM f (x :: l)) with (y ← f x; k ← mapM f l; mret (y :: k)).
  rewrite bind_Ok. split.
  - intros (y & s1 & Hy & Hk). apply bind_Ok in Hk as (ys & s2 & Hys & Hr).
    apply ret_Ok in Hr as [<- <-]. eauto 10.
  - intros (y & s1 & ys & Hy & Hys & ->). exists y, s1. split; [done|].
    apply bind_Ok. exists ys, s'. by rewrite ret_Ok.
Qed.

Lemma mapM_length {S A C} (f : A → StateRes S C) l s r s' :
  mapM f l s = Ok (r, s') → length r = length l.
Proof.
  revert s r. induction l as [|x l IH]; intros s r.
  - rewrite mapM_nil_Ok. by intros [-> _].
  - rewrite mapM_cons_Ok. intros (y & s1 & ys & _ & Hys & ->).
    simpl. f_equal. eauto.
Qed.

(** A loop over [n] batches whose body counts [k] batches counts [n * k]. *)
Lemma runs_mapM {A C} (f : A → M C) (l : list A) k :
  (∀ x, runs (f x) k) → runs (mapM f l) (λ a, Z.of_nat (length l) * k a).
Proof.
  intros Hf. induction l as [|x l IH]; intros w r w'.
  - rewrite mapM_nil_Ok. intros [-> <-].
    eapply frame_weaken, frame_refl. intros a; simpl; lia.
  - rewrite mapM_cons_Ok. intros (y & w1 & ys & Hy & Hys & ->).
    eapply frame_weaken; [|eapply frame_trans; [by eapply Hf|by eapply IH]].
    intros a; simpl. lia.
Qed.

Lemma for_batches_Ok {A} loader (body : Batch → M A) w r w' :
  for_batches loader body w = Ok (r, w') ↔
  ∃ batches w0, batch_indices (dl loader) w = Ok (batches, w0) ∧
    mapM (λ indices, batch ← next_batch loader indices; body batch)
      batches w0 = Ok (r, w').
Proof. unfold for_batches. by rewrite bind_Ok. Qed.

Lemma evaluate_Ok loader w result w' :
  evaluate loader w = Ok (result, w') ↔
  ∃ outputs, for_batches loader validation_step w = Ok (outputs, w') ∧
    validation_epoch_end outputs = Ok result.
Proof.
  unfold evaluate. rewrite bind_Ok. split.
  - intros (outputs & w1 & H1 & H2). apply lift_Ok in H2 as [H2 <-]. eauto.
  - intros (outputs & H1 & H2). exists outputs, w'. by rewrite lift_Ok.
Qed.

(** [evaluate] runs the forward pass once per batch, in whatever mode the
    model is in. *)
Lemma evaluate_frame loader w result w' :
  evaluate loader w = Ok (result, w') →
  ∃ batches w0, batch_indices (dl loader) w = Ok (batches, w0) ∧
    frame (λ _, 2 * Z.of_nat (length batches)) w w'.
Proof.
  rewrite evaluate_Ok. intros (outputs & Hrun & _).
  apply for_batches_Ok in Hrun as (batches & w0 & Hb & Hm).
  exists batches, w0. split; [done|].
  eapply frame_weaken; cycle 1.
  - eapply frame_trans; [by eapply runs_batch_indices|].
    eapply runs_mapM; [|done]. intros indices.
    eapply runs_bind; [apply runs_next_batch|]. intros batch.
    apply runs_validation_step.
  - intros a; simpl; lia.
Qed.

Lemma learnable_parameters m m' :
  learnable m = learnable m' → parameters m = parameters m'.
Proof.
  unfold learnable, bn_learnable, parameters, conv_params, lin_params,
    bn_params.
  intros [=]. congruence.
Qed.

Lemma learnable_bn a m m' :
  learnable m = learnable m' →
  bn_learnable (getattr_bn a m) = bn_learnable (getattr_bn a m').
Proof. intros [=]. destruct a; unfold bn_learnable; simpl; congruence. Qed.

Lemma learnable_training m m' :
  learnable m = learnable m' → training m = training m'.
Proof. by intros [=]. Qed.

Lemma learnable_setattr_bn a b b' m m' :
  learnable m = learnable m' → bn_learnable b = bn_learnable b' →
  learnable (setattr_bn a b m) = learnable (setattr_bn a b' m').
Proof.
  intros [=] Hb. unfold learnable. destruct a; simpl; rewrite ?Hb;
    unfold bn_learnable; congruence.
Qed.

(** ** Simulation *)

Lemma sim_refl w : sim w w.
Proof. by unfold sim. Qed.

Lemma simulates_ret {A} (a : A) : simulates (mret a).
Proof. intros w v b w' Hs Hrun. inv_run Hrun. by exists v. Qed.

Lemma simulates_lift {A} (r : Res A) : simulates (lift r).
Proof.
  intros w v b w' Hs Hrun. inv_run Hrun. by exists v.
Qed.

Lemma simulates_bind {A C} (m : M A) (f : A → M C) :
  simulates m → (∀ a, simulates (f a)) → simulates (m ≫= f).
Proof.
  intros Hm Hf w v c w' Hs Hrun.
  apply bind_Ok in Hrun as (a & w1 & H1 & H2).
  destruct (Hm _ _ _ _ Hs H1) as (v1 & Hv1 & Hs1).
  destruct (Hf _ _ _ _ _ Hs1 H2) as (v' & Hv' & Hs').
  exists v'. split; [|done]. by rewrite (bind_step _ _ _ _ _ Hv1).
Qed.

Lemma simulates_with_rng {A} (r : R A) : simulates (with_rng r).
Proof.
  intros w v a w' (Hl & Hg & Ho & He). unfold with_rng. rewrite <- Hg.
  destruct (r (rng w)) as [[a' g]|e]; [|done]. intros [= <- <-].
  eexists; split; [done|]. by unfold sim.
Qed.

Lemma simulates_plain {A C} (attr : CIFAR10Model → A) (f : A → Res C) :
  plain_attr attr → simulates (self ← get_model; lift (f (attr self))).
Proof.
  intros Hattr w v c w' Hs Hrun.
  apply bind_Ok in Hrun as (m & w1 & [= <- <-] & H2).
  apply lift_Ok in H2 as [H2 <-].
  exists v. split; [|done].
  erewrite bind_step by done. apply lift_Ok. split; [|done].
  rewrite <- H2. f_equal. symmetry. apply Hattr, Hs.
Qed.

Lemma plain_conv1 : plain_attr conv1. Proof. by intros ?? [=]. Qed.
Lemma plain_conv2 : plain_attr conv2. Proof. by intros ?? [=]. Qed.
Lemma plain_conv3 : plain_attr conv3. Proof. by intros ?? [=]. Qed.
Lemma plain_conv4 : plain_attr conv4. Proof. by intros ?? [=]. Qed.
Lemma plain_conv5 : plain_attr conv5. Proof. by intros ?? [=]. Qed.
Lemma plain_conv6 : plain_attr conv6. Proof. by intros ?? [=]. Qed.
Lemma plain_linear1 : plain_attr linear1. Proof. by intros ?? [=]. Qed.
Lemma plain_linear2 : plain_attr linear2. Proof. by intros ?? [=]. Qed.
Lemma plain_maxpool1 : plain_attr maxpool1. Proof. by intros ?? [=]. Qed.

Lemma simulates_call_conv attr out :
  plain_attr attr → simulates (call_conv attr out).
Proof. intros. by apply (simulates_plain attr (λ c, Conv2d_forward c out)). Qed.

Lemma simulates_call_linear attr out :
  plain_attr attr → simulates (call_linear attr out).
Proof. intros. by apply (simulates_plain attr (λ c, Linear_forward c out)). Qed.

Lemma simulates_call_maxpool1 out : simulates (call_maxpool1 out).
Proof.
  apply (simulates_plain maxpool1 (λ c, MaxPool2d_forward c out)), plain_maxpool1.
Qed.

Lemma simulates_call_dropout1 out : simulates (call_dropout1 out).
Proof.
  intros w v r w' Hs Hrun. unfold call_dropout1 in *.
  apply bind_Ok in Hrun as (m & w1 & H1 & H2). inv_run H1.
  erewrite bind_step by done.
  pose proof Hs as (Hl & Hg & Ho & He).
  assert (dropout1 (model v) = dropout1 (model w) ∧
          training (model v) = training (model w)) as [-> ->]
    by (by injection Hl).
  unfold Dropout2d_forward in *. destruct (training (model w)).
  - eapply simulates_with_rng; [exact Hs | exact H2].
  - eapply simulates_ret; [exact Hs | exact H2].
Qed.

(** In training mode a batch-norm module normalises with the statistics
    of the batch: its output does not depend on its buffers. *)
Lemma simulates_call_bn a out : simulates (call_bn a out).
Proof.
  intros w v r w' Hs Hrun. unfold call_bn in *.
  apply bind_Ok in Hrun as (m & w1 & [= <- <-] & H2).
  apply bind_Ok in H2 as ([out' bn'] & w2 & H2 & H3).
  apply lift_Ok in H2 as [H2 <-].
  apply bind_Ok in H3 as ([] & w3 & [= <-] & [= <- <-]).
  erewrite bind_step by done.
  destruct Hs as (Hl & Hg & Ho & He).
  pose proof (learnable_training _ _ Hl) as Htr.
  pose proof (learnable_bn a _ _ Hl) as Hbn.
  rewrite <- Htr. unfold BatchNorm2d_forward in *.
  destruct (training (model w)) eqn:Hmode.
  - injection Hbn as Hf Hw Hb. rewrite <- Hw, <- Hb.
    apply Res_bind_Ok in H2 as (y & -> & [= <- <-]). simpl.
    eexists; split; [done|].
    unfold sim; simpl. split_and!; try done.
    + apply learnable_setattr_bn; [done|].
      unfold bn_learnable; simpl. congruence.
    + destruct a; simpl; by rewrite Hmode.
  - rewrite <- (He eq_refl).
    apply Res_bind_Ok in H2 as (y & -> & [= <- <-]). simpl.
    eexists; split; [done|].
    unfold sim; simpl. by split_and!.
Qed.

Create HintDb sims discriminated.
Hint Resolve simulates_ret simulates_lift simulates_with_rng
  simulates_call_conv simulates_call_linear simulates_call_maxpool1
  simulates_call_dropout1 simulates_call_bn
  plain_conv1 plain_conv2 plain_conv3 plain_conv4 plain_conv5 plain_conv6
  plain_linear1 plain_linear2 : sims.

Ltac sims_seq :=
  repeat (eapply simulates_bind; [solve [eauto with sims] | intros ?]);
  eauto with sims.

Lemma simulates_forward xb : simulates (forward xb).
Proof. unfold forward, relu, flatten. sims_seq. Qed.
Hint Resolve simulates_forward : sims.

Lemma simulates_validation_step batch : simulates (validation_step batch).
Proof. destruct batch. unfold validation_step. sims_seq. Qed.

Lemma simulates_training_step batch : simulates (training_step batch).
Proof. destruct batch. unfold training_step. sims_seq. Qed.

Lemma simulates_next_batch loader indices :
  simulates (next_batch loader indices).
Proof. unfold next_batch. sims_seq. Qed.

Lemma simulates_batch_indices loader : simulates (batch_indices loader).
Proof. unfold batch_indices. sims_seq. Qed.
Hint Resolve simulates_validation_step simulates_training_step
  simulates_next_batch simulates_batch_indices : sims.

Lemma simulates_mapM {A C} (f : A → M C) (l : list A) :
  (∀ x, simulates (f x)) → simulates (mapM f l).
Proof.
  intros Hf. induction l as [|x l IH]; intros w v r w' Hs.
  - rewrite mapM_nil_Ok. intros [-> <-]. exists v. by rewrite mapM_nil_Ok.
  - rewrite mapM_cons_Ok. intros (y & w1 & ys & Hy & Hys & ->).
    destruct (Hf _ _ _ _ _ Hs Hy) as (v1 & Hv1 & Hs1).
    destruct (IH _ _ _ _ Hs1 Hys) as (v' & Hv' & Hs').
    exists v'. split; [|done]. rewrite mapM_cons_Ok. eauto 10.
Qed.

Lemma simulates_for_batches {A} loader (body : Batch → M A) :
  (∀ b, simulates (body b)) → simulates (for_batches loader body).
Proof.
  intros Hbody. unfold for_batches.
  eapply simulates_bind; [eauto with sims|]. intros batches.
  apply simulates_mapM. intros indices.
  eapply simulates_bind; eauto with sims.
Qed.

Lemma simulates_evaluate loader : simulates (evaluate loader).
Proof.
  unfold evaluate. eapply simulates_bind; [|eauto with sims].
  apply simulates_for_batches. eauto with sims.
Qed.

(** What a state keeps of a frame when the generator is put back. *)
Lemma frame_sim k w w' :
  frame k w w' → sim w (mkWorld (model w') (rng w) (stdout w')).
Proof.
  intros (Hl & Ho & _ & He). unfold sim; simpl. split_and!; try done.
  intros Hf. by rewrite He.
Qed.

(** ** The evaluator *)

(** C2, as amended.  The metrics of [evaluate] are determined by the
    parameters, the mode, the partition and the state of the default
    generator: a second run that starts from the generator state of the
    first returns the same metrics, although the first run has changed the
    batch-norm buffers.  (Run in succession, the second run starts from the
    generator state the first has left, and in training mode dropout then
    draws another mask.) *)
Theorem evaluate_again_same_generator loader w result w1 :
  evaluate loader w = Ok (result, w1) →
  ∃ w2, evaluate loader (mkWorld (model w1) (rng w) (stdout w1))
        = Ok (result, w2).
Proof.
  intros Hrun.
  destruct (evaluate_frame _ _ _ _ Hrun) as (batches & w0 & Hb & Hf).
  destruct (simulates_evaluate loader _ _ _ _ (frame_sim _ _ _ Hf) Hrun)
    as (w2 & Hw2 & _).
  by exists w2.
Qed.

(** ** Aggregation *)

Lemma getitem_val_loss la : getitem "val_loss" (step_result la) = Ok la.1.
Proof. unfold getitem, step_result. by rewrite lookup_insert_eq. Qed.

Lemma getitem_val_acc la : getitem "val_acc" (step_result la) = Ok la.2.
Proof.
  unfold getitem, step_result.
  by rewrite lookup_insert_ne, lookup_singleton_eq.
Qed.

Lemma mapM_getitem key (proj : Tensor * Tensor → Tensor) l :
  (∀ la, getitem key (step_result la) = Ok (proj la)) →
  mapM (getitem key) (step_result <$> l) = Ok (proj <$> l).
Proof.
  intros Hk. induction l as [|la l IH]; [done|].
  rewrite fmap_cons.
  change (mapM (getitem key) (step_result la :: (step_result <$> l)))
    with (y ← getitem key (step_result la);
          k ← mapM (getitem key) (step_result <$> l); mret (y :: k)).
  by rewrite Hk, IH.
Qed.

Lemma validation_epoch_end_nil :
  validation_epoch_end [] =
  Raise (RuntimeError "stack expects a non-empty TensorList").
Proof. reflexivity. Qed.

Lemma validation_epoch_end_cons first rest :
  validation_epoch_end (step_result <$> first :: rest) =
  Ok {[ "val_loss" := mean_of first.1 (rest.*1);
        "val_acc" := mean_of first.2 (rest.*2) ]}.
Proof.
  unfold validation_epoch_end.
  rewrite (mapM_getitem "val_loss" fst), (mapM_getitem "val_acc" snd)
    by (intros; first [apply getitem_val_loss | apply getitem_val_acc]).
  reflexivity.
Qed.

Lemma validation_step_result batch w out w' :
  validation_step batch w = Ok (out, w') → ∃ la, out = step_result la.
Proof.
  destruct batch as [images labels]. unfold validation_step. intros Hrun.
  apply bind_Ok in Hrun as (o & w1 & _ & Hrun).
  apply bind_Ok in Hrun as (loss & w2 & _ & Hrun).
  apply bind_Ok in Hrun as (acc & w3 & _ & Hrun).
  apply ret_Ok in Hrun as [<- _]. by exists (detach loss, acc).
Qed.

Lemma mapM_outputs {A} (f : A → M (gmap string Tensor)) l w outputs w' :
  (∀ x w out w', f x w = Ok (out, w') → ∃ la, out = step_result la) →
  mapM f l w = Ok (outputs, w') →
  ∃ las, outputs = step_result <$> las ∧ length las = length l.
Proof.
  intros Hf. revert w outputs. induction l as [|x l IH]; intros w outputs.
  - rewrite mapM_nil_Ok. intros [-> _]. by exists [].
  - rewrite mapM_cons_Ok. intros (y & w1 & ys & Hy & Hys & ->).
    destruct (Hf _ _ _ _ Hy) as (la & ->).
    destruct (IH _ _ Hys) as (las & -> & Hlen).
    exists (la :: las). simpl. by rewrite Hlen.
Qed.

(** C10, as amended.  Over a partition that yields no batch [evaluate]
    raises the error of [torch.stack] on an empty list.  Over a partition
    that yields at least one batch it returns the record of the mean of
    the losses of the batches and the mean of their accuracies, provided
    [validation_step] returns on every batch; when the loop over the
    batches raises, as it does at the first batch on which
    [validation_step] raises, [evaluate] raises that error and returns
    nothing. *)
Theorem evaluate_aggregates loader w batches w0 :
  batch_indices (dl loader) w = Ok (batches, w0) →
  (batches = [] →
   evaluate loader w =
   Raise (RuntimeError "stack expects a non-empty TensorList")) ∧
  (batches ≠ [] → ∀ outputs w',
   for_batches loader validation_step w = Ok (outputs, w') →
   ∃ first rest,
     outputs = step_result <$> first :: rest ∧
     length outputs = length batches ∧
     evaluate loader w =
     Ok ({[ "val_loss" := mean_of first.1 (rest.*1);
            "val_acc" := mean_of first.2 (rest.*2) ]}, w')) ∧
  (∀ e, for_batches loader validation_step w = Raise e →
        evaluate loader w = Raise e) ∧
  (∀ before indices rest outputs w1 batch w2 e,
     batches = before ++ indices :: rest →
     mapM (λ indices, batch ← next_batch loader indices;
                      validation_step batch) before w0 = Ok (outputs, w1) →
     next_batch loader indices w1 = Ok (batch, w2) →
     validation_step batch w2 = Raise e →
     evaluate loader w = Raise e).
Proof.
  intros Hb. split; [|split; [|split]]; cycle 2.
  { intros e He. unfold evaluate. by rewrite (bind_Raise _ _ _ _ He). }
  { intros before indices rest outs w1 batch w2 e -> Hdone Hnext He.
    unfold evaluate. apply bind_Raise. unfold for_batches.
    rewrite (bind_step _ _ _ _ _ Hb).
    clear Hb. revert w0 outs Hdone.
    induction before as [|x before IH]; intros w0 outs Hdone.
    - apply mapM_nil_Ok in Hdone as [_ ->]. cbn [app].
      change (mapM ?f (indices :: rest))
        with (y ← f indices; k ← mapM f rest; mret (y :: k)).
      apply bind_Raise. rewrite (bind_step _ _ _ _ _ Hnext). exact He.
    - apply mapM_cons_Ok in Hdone as (y & w3 & ys & Hy & Hys & _).
      cbn [app].
      change (mapM ?f (x :: ?l))
        with (y ← f x; k ← mapM f l; mret (y :: k)).
      rewrite (bind_step _ _ _ _ _ Hy).
      by rewrite (bind_Raise _ _ _ _ (IH _ _ Hys)). }
  - intros ->. unfold evaluate, for_batches.
    rewrite (bind_step _ _ _ _ _ (bind_step _ _ _ _ _ Hb)). reflexivity.
  - intros Hne outputs w' Hrun.
    pose proof Hrun as Hrun'.
    apply for_batches_Ok in Hrun' as (batches' & w0' & Hb' & Hm).
    rewrite Hb in Hb'. injection Hb' as <- <-.
    destruct (mapM_outputs _ _ _ _ _
                (λ x w out w' H,
                   match proj1 (bind_Ok _ _ _ _ _) H with
                   | ex_intro _ b (ex_intro _ w1 (conj _ H2)) =>
                       validation_step_result b w1 out w' H2
                   end) Hm) as (las & -> & Hlen).
    destruct las as [|first rest]; [by destruct batches|].
    exists first, rest. split; [done|]. split; [by rewrite length_fmap|].
    unfold evaluate. rewrite (bind_step _ _ _ _ _ Hrun).
    unfold lift. by rewrite validation_epoch_end_cons.
Qed.

(** ** Loops *)

Lemma for_each_cons {A St} (x : A) l (s : St) (body : A → St → M St) w :
  for_each (x :: l) s body w = (s ← body x s; for_each l s body) w.
Proof. reflexivity. Qed.

Lemma for_each_app {A St} (l1 l2 : list A) (s : St)
    (body : A → St → M St) w :
  for_each (l1 ++ l2) s body w =
  (s ← for_each l1 s body; for_each l2 s body) w.
Proof.
  revert s w. induction l1 as [|x l1 IH]; intros s w; [done|].
  simpl. rewrite bind_assoc.
  destruct (body x s w) as [[s1 w1]|e] eqn:Hx.
  - rewrite !(bind_step _ _ _ _ _ Hx). apply IH.
  - by rewrite !(bind_Raise _ _ _ _ Hx).
Qed.

Lemma bind_ext {S A C} (m : StateRes S A) (f g : A → StateRes S C) s :
  (∀ a s1, f a s1 = g a s1) → (m ≫= f) s = (m ≫= g) s.
Proof.
  intros Hfg. unfold mbind, StateRes_bind. by destruct (m s) as [[??]|?].
Qed.

Lemma for_each_ext {A St} (l : list A) (s : St)
    (body1 body2 : A → St → M St) w :
  (∀ x s w, body1 x s w = body2 x s w) →
  for_each l s body1 w = for_each l s body2 w.
Proof.
  intros Hb. revert s w. induction l as [|x l IH]; intros s w; [done|].
  simpl. destruct (body1 x s w) as [[s1 w1]|e] eqn:Hx.
  - rewrite (bind_step _ _ _ _ _ Hx). rewrite Hb in Hx.
    rewrite (bind_step _ _ _ _ _ Hx). apply IH.
  - rewrite (bind_Raise _ _ _ _ Hx). rewrite Hb in Hx.
    by rewrite (bind_Raise _ _ _ _ Hx).
Qed.

(** ** What prints *)

Lemma silent_ret {A} (a : A) : silent (mret a).
Proof. intros w b w' Hrun. by apply ret_Ok in Hrun as [_ <-]. Qed.

Lemma silent_bind {A C} (m : M A) (f : A → M C) :
  silent m → (∀ a, silent (f a)) → silent (m ≫= f).
Proof.
  intros Hm Hf w c w' Hrun. apply bind_Ok in Hrun as (a & w1 & H1 & H2).
  rewrite (Hf _ _ _ _ H2). by eapply Hm.
Qed.

Lemma silent_runs {A} (m : M A) k : runs m k → silent m.
Proof. intros Hm w a w' Hrun. by destruct (Hm _ _ _ Hrun) as (_ & ? & _). Qed.

Lemma silent_get_model : silent get_model.
Proof. by intros w a w' [= <- <-]. Qed.

Lemma silent_put_model m : silent (put_model m).
Proof. by intros w a w' [= <- <-]. Qed.

Lemma silent_for_each {A St} (l : list A) (s : St) (body : A → St → M St) :
  (∀ x s, silent (body x s)) → silent (for_each l s body).
Proof.
  intros Hb. revert s. induction l as [|x l IH]; intros s.
  - apply silent_ret.
  - apply silent_bind; [apply Hb|]. intros s1. apply IH.
Qed.

Lemma silent_backward loss : silent (backward loss).
Proof.
  apply silent_bind; [apply silent_get_model|]. intros. apply silent_put_model.
Qed.

Lemma silent_zero_grad : silent zero_grad.
Proof.
  apply silent_bind; [apply silent_get_model|]. intros. apply silent_put_model.
Qed.

Lemma silent_step opt st : silent (step opt st).
Proof.
  apply silent_bind; [apply silent_get_model|]. intros.
  apply silent_bind; [apply silent_put_model|]. intros. apply silent_ret.
Qed.

Lemma silent_train_batch opt batch st : silent (train_batch opt batch st).
Proof.
  unfold train_batch.
  apply silent_bind; [eapply silent_runs, runs_training_step|]. intros.
  apply silent_bind; [apply silent_backward|]. intros.
  apply silent_bind; [apply silent_step|]. intros.
  apply silent_bind; [apply silent_zero_grad|]. intros. apply silent_ret.
Qed.

Lemma silent_train_epoch opt loader st : silent (train_epoch opt loader st).
Proof.
  unfold train_epoch.
  apply silent_bind; [eapply silent_runs, runs_batch_indices|]. intros.
  apply silent_for_each. intros.
  apply silent_bind; [eapply silent_runs, runs_next_batch|]. intros.
  apply silent_train_batch.
Qed.

Lemma silent_evaluate loader : silent (evaluate loader).
Proof.
  intros w r w' Hrun.
  destruct (evaluate_frame _ _ _ _ Hrun) as (batches & w0 & _ & Hf).
  by destruct Hf as (_ & ? & _).
Qed.

(** ** The history *)

Lemma validation_epoch_end_result outputs r :
  validation_epoch_end outputs = Ok r →
  ∃ l a, r = {[ "val_loss" := l; "val_acc" := a ]}.
Proof.
  unfold validation_epoch_end. intros H.
  apply Res_bind_Ok in H as (losses & _ & H).
  apply Res_bind_Ok in H as (sl & _ & H).
  apply Res_bind_Ok in H as (accs & _ & H).
  apply Res_bind_Ok in H as (sa & _ & H).
  injection H as <-. eauto.
Qed.

Lemma evaluate_result loader w r w' :
  evaluate loader w = Ok (r, w') →
  ∃ l a, r = {[ "val_loss" := l; "val_acc" := a ]}.
Proof.
  rewrite evaluate_Ok. intros (outputs & _ & H).
  by eapply validation_epoch_end_result.
Qed.

Lemma keys_result (l a : Scalar) :
  keys {[ "val_loss" := l; "val_acc" := a ]} = {[ "val_loss"; "val_acc" ]}.
Proof. unfold keys. by rewrite dom_insert_L, dom_singleton_L. Qed.

Lemma epoch_end_Ok epoch (l a : Scalar) w u w' :
  epoch_end epoch {[ "val_loss" := l; "val_acc" := a ]} w = Ok (u, w') →
  w' = mkWorld (model w) (rng w) (stdout w ++ [EpochLine epoch l a]).
Proof.
  unfold epoch_end, getitem.
  rewrite lookup_insert_eq, lookup_insert_ne, lookup_singleton_eq by done.
  by intros [= _ <-].
Qed.

Lemma fit_epoch_Ok opt tl vl epoch h o h' o' w w' :
  fit_epoch opt tl vl epoch (h, o) w = Ok ((h', o'), w') →
  ∃ l a,
    h' = h ++ [{[ "val_loss" := l; "val_acc" := a ]}] ∧
    stdout w' = stdout w ++ [EpochLine epoch l a].
Proof.
  unfold fit_epoch. intros Hrun.
  apply bind_Ok in Hrun as (o1 & w1 & Ht & Hrun).
  apply bind_Ok in Hrun as (r & w2 & He & Hrun).
  apply bind_Ok in Hrun as (u & w3 & Hp & Hrun).
  apply ret_Ok in Hrun as [[= <- <-] <-].
  destruct (evaluate_result _ _ _ _ He) as (l & a & ->).
  apply epoch_end_Ok in Hp as ->. simpl.
  rewrite (silent_evaluate _ _ _ _ He), (silent_train_epoch _ _ _ _ _ _ Ht).
  eauto.
Qed.

Lemma fit_loop_S opt n o tl vl w :
  fit_loop opt (S n) o tl vl w =
  (s ← fit_loop opt n o tl vl; fit_epoch opt tl vl n s) w.
Proof.
  unfold fit_loop. rewrite seq_S, for_each_app. simpl.
  apply bind_ext. intros s w1. unfold mbind, StateRes_bind.
  by destruct (fit_epoch _ _ _ _ _ _) as [[??]|?].
Qed.

(** what the loop of [fit] has appended and printed after [n] epochs *)
Lemma fit_loop_history opt n o tl vl w h o' w' :
  fit_loop opt n o tl vl w = Ok ((h, o'), w') →
  length h = n ∧
  Forall (λ record, keys record = {[ "val_loss"; "val_acc" ]}) h ∧
  ∃ lines,
    stdout w' = stdout w ++ lines ∧ length lines = n ∧
    ∀ i record, h !! i = Some record →
      ∃ line, lines !! i = Some line ∧ printed_as i record line.
Proof.
  revert h o' w'. induction n as [|n IH]; intros h o' w'.
  - intros [= <- <- <-]. split; [done|]. split; [done|].
    exists []. by rewrite app_nil_r.
  - rewrite fit_loop_S. intros Hrun.
    apply bind_Ok in Hrun as ([h1 o1] & w1 & H1 & H2).
    destruct (IH _ _ _ H1) as (Hlen & Hkeys & lines & Hout & Hlines & Hp).
    destruct (fit_epoch_Ok _ _ _ _ _ _ _ _ _ _ H2) as (l & a & -> & Hout').
    split; [rewrite length_app; simpl; lia|].
    split; [apply Forall_app; split; [done|];
            apply Forall_singleton, keys_result|].
    exists (lines ++ [EpochLine n l a]).
    split; [by rewrite Hout', Hout, app_assoc|].
    split; [rewrite length_app; simpl; lia|].
    intros i record Hi.
    destruct (decide (i < length h1)%nat) as [Hlt|Hge].
    + rewrite lookup_app_l in Hi by done.
      destruct (Hp _ _ Hi) as (line & Hline & Hpr).
      exists line. split; [|done]. rewrite lookup_app_l; [done|lia].
    + rewrite lookup_app_r in Hi by lia.
      destruct (i - length h1)%nat as [|j] eqn:Hj; [|done].
      injection Hi as <-. assert (i = n) as -> by lia.
      exists (EpochLine n l a). split.
      * rewrite lookup_app_r by lia.
        by replace (n - length lines)%nat with 0%nat by lia.
      * unfold printed_as; simpl.
        by rewrite lookup_insert_eq, lookup_insert_ne, lookup_singleton_eq.
Qed.

(** the history after [k] epochs is a prefix of the history after more *)
Lemma fit_loop_prefix opt n k o tl vl w h o' w' :
  fit_loop opt n o tl vl w = Ok ((h, o'), w') → (k ≤ n)%nat →
  ∃ ok wk, fit_loop opt k o tl vl w = Ok ((take k h, ok), wk).
Proof.
  revert k h o' w'. induction n as [|n IH]; intros k h o' w' Hrun Hk.
  - assert (k = 0)%nat as -> by lia. injection Hrun as <- <- <-.
    by exists o, w.
  - destruct (decide (k = S n)) as [->|Hne].
    + destruct (fit_loop_history _ _ _ _ _ _ _ _ _ Hrun) as (Hlen & _).
      exists o', w'. by rewrite take_ge by lia.
    + rewrite fit_loop_S in Hrun.
      apply bind_Ok in Hrun as ([h1 o1] & w1 & H1 & H2).
      destruct (fit_epoch_Ok _ _ _ _ _ _ _ _ _ _ H2) as (l & a & -> & _).
      destruct (IH k _ _ _ H1) as (ok & wk & Hk'); [lia|].
      destruct (fit_loop_history _ _ _ _ _ _ _ _ _ H1) as (Hlen & _).
      exists ok, wk. rewrite take_app_le by lia. done.
Qed.

Lemma fit_optimizer_Ok opt lr w o w' :
  fit_optimizer opt lr w = Ok (o, w') ↔
  opt_check opt lr = Ok () ∧
  o = opt_new opt (parameters (model w)) lr ∧ w' = w.
Proof.
  unfold fit_optimizer, get_model, lift, mbind, StateRes_bind, mret,
    StateRes_ret.
  destruct (opt_check opt lr) as [[]|e]; naive_solver.
Qed.

Lemma fit_Ok epochs lr tl vl opt w history w' :
  fit epochs lr tl vl opt w = Ok (history, w') ↔
  opt_check opt lr = Ok () ∧
  ∃ o, fit_loop opt epochs (opt_new opt (parameters (model w)) lr) tl vl w
       = Ok ((history, o), w').
Proof.
  unfold fit. split.
  - intros Hrun. apply bind_Ok in Hrun as (o & w1 & H1 & Hrun).
    apply fit_optimizer_Ok in H1 as (Hc & -> & ->).
    apply bind_Ok in Hrun as ([h o'] & w2 & H2 & [= <- <-]).
    split; [done|]. by exists o'.
  - intros (Hc & o & Hrun).
    erewrite bind_step; [|by apply fit_optimizer_Ok].
    by rewrite (bind_step _ _ _ _ _ Hrun).
Qed.

(** C9, as amended.  A call of [fit] that returns has appended one record
    per epoch: the history has [epochs] records, the history after fewer
    epochs is a prefix of it, and every record has exactly the keys
    [val_loss] and [val_acc].  The index of the epoch is not stored: it is
    the position of the record, and it appears in the line that
    [epoch_end] prints for the record. *)
Theorem fit_history epochs lr tl vl opt w history w' :
  fit epochs lr tl vl opt w = Ok (history, w') →
  length history = epochs ∧
  Forall (λ record, keys record = {[ "val_loss"; "val_acc" ]}) history ∧
  (∀ k, (k ≤ epochs)%nat →
     ∃ wk, fit k lr tl vl opt w = Ok (take k history, wk)) ∧
  ∃ lines,
    stdout w' = stdout w ++ lines ∧ length lines = epochs ∧
    ∀ epoch record, history !! epoch = Some record →
      ∃ line, lines !! epoch = Some line ∧ printed_as epoch record line.
Proof.
  rewrite fit_Ok. intros (Hc & o & Hrun).
  destruct (fit_loop_history _ _ _ _ _ _ _ _ _ Hrun) as (Hlen & Hkeys & Hl).
  split; [done|]. split; [done|]. split; [|done].
  intros k Hk.
  destruct (fit_loop_prefix _ _ k _ _ _ _ _ _ _ Hrun Hk) as (ok & wk & Hk').
  exists wk. apply fit_Ok. split; [done|]. by exists ok.
Qed.

(** ** The update of one batch *)

Lemma parameters_imap f m :
  parameters (imap_parameters f m) = imap f (parameters m).
Proof. reflexivity. Qed.

Lemma imap_parameters_compose f g m :
  imap_parameters f (imap_parameters g m) =
  imap_parameters (λ i p, f i (g i p)) m.
Proof. reflexivity. Qed.

Lemma length_parameters m : length (parameters m) = 22%nat.
Proof. reflexivity. Qed.

(** the default optimizer keeps the learning rate it was created with and
    no momentum buffer *)
Lemma sgd_step_plain lr i p :
  sgd_step_param (mkSGD lr None ∅) i p = spec_descend lr p.
Proof. reflexivity. Qed.

Lemma train_batch_spec lr batch w :
  train_batch SGD batch (mkSGD lr None ∅) w =
  (spec_train_batch lr batch ;; mret (mkSGD lr None ∅)) w.
Proof.
  unfold train_batch, spec_train_batch. rewrite bind_assoc.
  destruct (training_step batch w) as [[loss w1]|e] eqn:Hstep.
  - rewrite !(bind_step _ _ _ _ _ Hstep). reflexivity.
  - by rewrite !(bind_Raise _ _ _ _ Hstep).
Qed.

(** a loop that carries a variable it never changes *)
Lemma for_each_carry {A H St} (l : list A) (h : H) (s : St)
    (body : A → H * St → M (H * St)) (body' : A → H → M H) w :
  (∀ x h w, body x (h, s) w = (h' ← body' x h; mret (h', s)) w) →
  for_each l (h, s) body w = (h' ← for_each l h body'; mret (h', s)) w.
Proof.
  intros Hb. revert h w. induction l as [|x l IH]; intros h w; [done|].
  cbn [for_each]. rewrite bind_assoc.
  destruct (body' x h w) as [[h1 w1]|e] eqn:Hx.
  - rewrite (bind_step _ _ _ _ _ Hx).
    assert (body x (h, s) w = Ok ((h1, s), w1)) as Hx'
      by (by rewrite Hb, (bind_step _ _ _ _ _ Hx)).
    rewrite (bind_step _ _ _ _ _ Hx'). apply IH.
  - rewrite (bind_Raise _ _ _ _ Hx).
    assert (body x (h, s) w = Raise e) as Hx'
      by (by rewrite Hb, (bind_Raise _ _ _ _ Hx)).
    by rewrite (bind_Raise _ _ _ _ Hx').
Qed.

Lemma for_each_carry_unit {A St} (l : list A) (s : St)
    (body : A → St → M St) (body' : A → unit → M unit) w :
  (∀ x w, body x s w = (body' x () ;; mret s) w) →
  for_each l s body w = (for_each l () body' ;; mret s) w.
Proof.
  intros Hb. revert w. induction l as [|x l IH]; intros w; [done|].
  cbn [for_each]. rewrite bind_assoc.
  destruct (body' x () w) as [[[] w1]|e] eqn:Hx.
  - rewrite (bind_step _ _ _ _ _ Hx).
    assert (body x s w = Ok (s, w1)) as Hx'
      by (by rewrite Hb, (bind_step _ _ _ _ _ Hx)).
    rewrite (bind_step _ _ _ _ _ Hx'). apply IH.
  - rewrite (bind_Raise _ _ _ _ Hx).
    assert (body x s w = Raise e) as Hx'
      by (by rewrite Hb, (bind_Raise _ _ _ _ Hx)).
    by rewrite (bind_Raise _ _ _ _ Hx').
Qed.

Lemma train_epoch_spec lr loader w :
  train_epoch SGD loader (mkSGD lr None ∅) w =
  (batches ← batch_indices (dl loader);
   for_each batches ()
     (λ indices _, batch ← next_batch loader indices;
                   spec_train_batch lr batch) ;;
   mret (mkSGD lr None ∅)) w.
Proof.
  unfold train_epoch. apply bind_ext. intros batches w1.
  apply for_each_carry_unit. intros indices w2.
  rewrite bind_assoc. apply bind_ext. intros batch w3.
  apply train_batch_spec.
Qed.

Lemma bind_cong {A C} (m m' : M A) (k : A → M C) w :
  m w = m' w → (m ≫= k) w = (m' ≫= k) w.
Proof. unfold mbind, StateRes_bind. by intros ->. Qed.

Lemma ret_bind {A C} (a : A) (k : A → M C) w : (mret a ≫= k) w = k a w.
Proof. reflexivity. Qed.

Lemma fit_epoch_spec lr tl vl epoch h w :
  fit_epoch SGD tl vl epoch (h, mkSGD lr None ∅) w =
  (h' ← spec_epoch lr tl vl epoch h; mret (h', mkSGD lr None ∅)) w.
Proof.
  unfold fit_epoch, spec_epoch.
  rewrite (bind_cong _ _ _ _ (train_epoch_spec lr tl w)).
  rewrite !bind_assoc. apply bind_ext. intros batches w1.
  rewrite !bind_assoc. apply bind_ext. intros [] w2.
  rewrite ret_bind, bind_assoc. apply bind_ext. intros r w3.
  rewrite bind_assoc. apply bind_ext. by intros [] w4.
Qed.

Lemma fit_loop_spec lr tl vl l h w :
  for_each l (h, mkSGD lr None ∅) (fit_epoch SGD tl vl) w =
  (h' ← for_each l h (spec_epoch lr tl vl); mret (h', mkSGD lr None ∅)) w.
Proof. apply for_each_carry. intros. apply fit_epoch_spec. Qed.

Lemma imap_parameters_ext f g m :
  (∀ i p, f i p = g i p) → imap_parameters f m = imap_parameters g m.
Proof.
  intros H. unfold imap_parameters, conv_imap, lin_imap, bn_imap.
  by rewrite !H.
Qed.

Lemma updated_spec lr g p :
  clear_grad (spec_descend lr (accumulate p g)) = updated lr g p.
Proof.
  unfold clear_grad, spec_descend, accumulate, updated, total_gradient.
  destruct p as [d [acc|]], g as [g|]; simpl;
    by destruct zero_grad_set_to_none.
Qed.

Lemma sequence_batch_spec lr batch w :
  spec_train_batch lr batch w = sequence_batch lr batch w.
Proof.
  destruct batch as [images labels].
  unfold spec_train_batch, sequence_batch, training_step.
  rewrite !bind_assoc. apply bind_ext. intros out w1.
  rewrite !bind_assoc. apply bind_ext. intros loss w2.
  rewrite ret_bind. apply bind_ext. intros self w3.
  unfold spec_update, spec_gradients. f_equal.
  apply imap_parameters_ext. intros i p. apply updated_spec.
Qed.

Lemma sequence_epoch_spec lr tl vl epoch h w :
  spec_epoch lr tl vl epoch h w = sequence_epoch lr tl vl epoch h w.
Proof.
  unfold spec_epoch, sequence_epoch. apply bind_ext. intros batches w1.
  apply bind_cong. apply for_each_ext. intros indices [] w2.
  apply bind_ext. intros batch w3. apply sequence_batch_spec.
Qed.

(** C4.  With the optimizer [fit] uses by default, [fit] is the loop of
    the claim: in every epoch, for every training batch, the forward pass
    and the cross-entropy loss of its predictions are computed, the
    gradient of that loss is added to what each parameter has accumulated,
    every parameter with a gradient moves by the total times minus the
    learning rate that was passed to [fit], and its gradient is cleared;
    after the batches of an epoch the validation partition is evaluated
    and the result printed and appended.  A negative learning rate is
    refused before the first epoch.  After the update of a batch every
    gradient is cleared, whatever it was before. *)
Theorem fit_follows_update_sequence epochs lr tl vl :
  (∀ w, fit epochs lr tl vl SGD w = sequence_fit epochs lr tl vl w) ∧
  (∀ g p, cleared (updated lr g p)) ∧
  (∀ batch w u w',
     sequence_batch lr batch w = Ok (u, w') →
     Forall cleared (parameters (model w'))).
Proof.
  split; [|split].
  - intros w. unfold fit, sequence_fit.
    destruct (float_is_negative lr) eqn:Hneg.
    { apply bind_Raise.
      unfold fit_optimizer, get_model, lift, mbind, StateRes_bind.
      cbn [opt_check SGD SGD_with]. unfold sgd_check. by rewrite Hneg. }
    erewrite bind_step; cycle 1.
    { apply fit_optimizer_Ok. split; [|done]. cbn. unfold sgd_check.
      by rewrite Hneg. }
    change (opt_new SGD (parameters (model w)) lr) with (mkSGD lr None ∅).
    unfold fit_loop.
    rewrite (bind_cong _ _ _ _ (fit_loop_spec lr tl vl _ _ w)).
    rewrite bind_assoc.
    rewrite (bind_cong _ _ _ _
               (for_each_ext (seq 0 epochs) [] (spec_epoch lr tl vl)
                  (sequence_epoch lr tl vl) w
                  (λ epoch h w, sequence_epoch_spec lr tl vl epoch h w))).
    destruct (for_each (seq 0 epochs) [] (sequence_epoch lr tl vl) w)
      as [[h w1]|e] eqn:Hrun.
    + by rewrite (bind_step _ _ _ _ _ Hrun).
    + by rewrite (bind_Raise _ _ _ _ Hrun).
  - intros g p. unfold cleared, updated.
    destruct (total_gradient (grad p) g) as [total|]; [|done]. simpl.
    destruct zero_grad_set_to_none; [done|by exists total].
  - intros batch w u w' Hrun. unfold sequence_batch in Hrun.
    apply bind_Ok in Hrun as (out & w1 & _ & Hrun).
    apply bind_Ok in Hrun as (loss & w2 & _ & Hrun).
    apply bind_Ok in Hrun as (self & w3 & _ & Hrun).
    injection Hrun as _ <-. cbn [model]. rewrite parameters_imap.
    apply Forall_forall. intros p Hp.
    apply list_elem_of_lookup in Hp as (i & Hi).
    rewrite list_lookup_imap in Hi.
    destruct (parameters self !! i) as [p0|]; [|done]. injection Hi as <-.
    unfold cleared, updated.
    destruct (total_gradient (grad p0) _) as [total|]; [|done]. simpl.
    destruct zero_grad_set_to_none; [done|by exists total].
Qed.

Lemma data_clear_grad p : data (clear_grad p) = data p.
Proof.
  unfold clear_grad. destruct (grad p); [|done].
  by destruct zero_grad_set_to_none.
Qed.

Lemma data_accumulate p g : data (accumulate p g) = data p.
Proof. unfold accumulate. destruct g; [|done]. by destruct (grad p). Qed.

(** the value of a parameter after the update of a batch whose loss is
    [loss] *)
Lemma data_update lr loss i p :
  data (clear_grad (spec_descend lr (spec_gradients loss i p))) =
  match grad (spec_gradients loss i p) with
  | None => data p
  | Some g => add_alpha (data p) g (float_neg lr)
  end.
Proof.
  rewrite data_clear_grad. unfold spec_descend.
  destruct (grad (spec_gradients loss i p)) eqn:Hg; simpl;
    unfold spec_gradients; by rewrite ?data_accumulate.
Qed.

Lemma train_batch_Ok lr batch w st' w' :
  train_batch SGD batch (mkSGD lr None ∅) w = Ok (st', w') →
  ∃ loss w1,
    training_step batch w = Ok (loss, w1) ∧
    parameters (model w1) = parameters (model w) ∧
    model w' = spec_update lr loss (model w1).
Proof.
  rewrite train_batch_spec. unfold spec_train_batch. intros Hrun.
  apply bind_Ok in Hrun as ([] & w2 & Hrun & Hret).
  apply ret_Ok in Hret as [_ <-].
  apply bind_Ok in Hrun as (loss & w1 & Hstep & Hrun).
  apply bind_Ok in Hrun as (m & w3 & Hget & Hput).
  injection Hget as <- <-. injection Hput as <-.
  exists loss, w1. split; [done|]. split; [|done].
  apply learnable_parameters.
  by destruct (runs_training_step _ _ _ _ Hstep) as (? & _).
Qed.

(** C7, as amended.  After the update of a training batch by the default
    optimizer every parameter holds [p.add_(g, alpha=-lr)] of its value
    before, [g] being the gradient accumulated for it, and a parameter
    without gradient holds its value before.  The parameters are all
    unchanged exactly when each of these additions returns the value it
    was given: that the loss and the learning rate are not zero decides
    nothing. *)
Theorem sgd_update_visible lr batch w st' w' :
  train_batch SGD batch (mkSGD lr None ∅) w = Ok (st', w') →
  ∃ loss w1,
    training_step batch w = Ok (loss, w1) ∧
    parameters (model w') =
    imap (λ i p, clear_grad (spec_descend lr (spec_gradients loss i p)))
      (parameters (model w)) ∧
    (data <$> parameters (model w') = data <$> parameters (model w) ↔
     ∀ i p g,
       parameters (model w) !! i = Some p →
       grad (spec_gradients loss i p) = Some g →
       add_alpha (data p) g (float_neg lr) = data p).
Proof.
  intros Hrun.
  destruct (train_batch_Ok _ _ _ _ _ Hrun) as (loss & w1 & Hstep & Hp & ->).
  exists loss, w1. split; [done|].
  unfold spec_update. rewrite parameters_imap, Hp. split; [done|].
  split.
  - intros Heq i p g Hi Hg.
    apply (f_equal (λ l, l !! i)) in Heq.
    rewrite !list_lookup_fmap, list_lookup_imap, Hi in Heq. simpl in Heq.
    injection Heq as Heq. by rewrite data_update, Hg in Heq.
  - intros Hall. apply list_eq. intros i.
    rewrite !list_lookup_fmap, list_lookup_imap.
    destruct (parameters (model w) !! i) as [p|] eqn:Hi; [|done]. simpl.
    f_equal. rewrite data_update.
    destruct (grad (spec_gradients loss i p)) as [g|] eqn:Hg; [|done].
    by apply (Hall i).
Qed.

(** ** The optimizer of a phase *)

Lemma fit_states_Ok opt epochs lr tl vl w s e w' :
  fit_states opt epochs lr tl vl w = Ok ((s, e), w') ↔
  opt_check opt lr = Ok () ∧
  s = opt_new opt (parameters (model w)) lr ∧
  ∃ history, fit_loop opt epochs s tl vl w = Ok ((history, e), w').
Proof.
  unfold fit_states. split.
  - intros Hrun. apply bind_Ok in Hrun as (o & w1 & H1 & Hrun).
    apply fit_optimizer_Ok in H1 as (Hc & -> & ->).
    apply bind_Ok in Hrun as ([h o'] & w2 & H2 & [= <- <- <-]).
    split; [done|]. split; [done|]. by exists h.
  - intros (Hc & -> & history & Hrun).
    erewrite bind_step; [|by apply fit_optimizer_Ok].
    by rewrite (bind_step _ _ _ _ _ Hrun).
Qed.

(** C1, as amended.  Every call of [fit] creates its optimizer anew, from
    the parameters of the model and the learning rate of the call: when two
    phases follow one another, the second starts in the state the first has
    left the model and the generator in, but its optimizer starts in the
    state of a fresh optimizer, whatever the state of the optimizer of the
    first phase was at its end.  For SGD the fresh state holds the learning
    rate of the phase and no momentum buffer. *)
Theorem next_phase_starts_fresh opt e1 lr1 e2 lr2 tl vl w
    start1 end1 start2 end2 w2 :
  (r1 ← fit_states opt e1 lr1 tl vl;
   r2 ← fit_states opt e2 lr2 tl vl;
   mret (r1, r2)) w = Ok (((start1, end1), (start2, end2)), w2) →
  ∃ w1 h1 h2,
    fit e1 lr1 tl vl opt w = Ok (h1, w1) ∧
    fit e2 lr2 tl vl opt w1 = Ok (h2, w2) ∧
    start2 = opt_new opt (parameters (model w1)) lr2 ∧
    (∀ momentum,
       opt_new (SGD_with momentum) (parameters (model w1)) lr2 =
       mkSGD lr2 momentum ∅).
Proof.
  intros Hrun.
  apply bind_Ok in Hrun as ([s1 e1'] & w1 & H1 & Hrun).
  apply bind_Ok in Hrun as ([s2 e2'] & w2' & H2 & Hrun).
  apply ret_Ok in Hrun as [[= <- <- <- <-] <-].
  apply fit_states_Ok in H1 as (Hc1 & -> & h1 & H1).
  apply fit_states_Ok in H2 as (Hc2 & -> & h2 & H2).
  exists w1, h1, h2. split; [apply fit_Ok; eauto|].
  split; [apply fit_Ok; eauto|]. by split.
Qed.

(** ** The forward pass *)

Lemma bind_ret {A} (m : M A) w : (m ≫= mret) w = m w.
Proof. unfold mbind, StateRes_bind. by destruct (m w) as [[??]|?]. Qed.

Lemma forward_staged xb w : forward xb w = staged_forward xb w.
Proof.
  unfold forward, staged_forward, stage, classifier.
  repeat first [ rewrite bind_assoc | apply bind_ext; intros ? ? ].
  apply bind_ret.
Qed.

Lemma call_conv_Ok attr out w y :
  Conv2d_forward (attr (model w)) out = Ok y → call_conv attr out w = Ok (y, w).
Proof. intros H. unfold call_conv, get_model, mbind, StateRes_bind, lift. by rewrite H. Qed.

Lemma call_linear_Ok attr out w y :
  Linear_forward (attr (model w)) out = Ok y →
  call_linear attr out w = Ok (y, w).
Proof. intros H. unfold call_linear, get_model, mbind, StateRes_bind, lift. by rewrite H. Qed.

Lemma call_maxpool1_Ok out w y :
  MaxPool2d_forward (maxpool1 (model w)) out = Ok y →
  call_maxpool1 out w = Ok (y, w).
Proof. intros H. unfold call_maxpool1, get_model, mbind, StateRes_bind, lift. by rewrite H. Qed.

Lemma call_bn_Ok a out w y bn' :
  BatchNorm2d_forward (getattr_bn a (model w)) (training (model w)) out
  = Ok (y, bn') →
  call_bn a out w =
  Ok (y, mkWorld (setattr_bn a bn' (model w)) (rng w) (stdout w)).
Proof. intros H. unfold call_bn, get_model, mbind, StateRes_bind, lift. by rewrite H. Qed.

(** Dropout is the identity, and draws nothing, unless the model is in
    training mode. *)
Lemma call_dropout1_eval out w :
  training (model w) = false → call_dropout1 out w = Ok (out, w).
Proof.
  intros H. unfold call_dropout1, get_model, mbind, StateRes_bind,
    Dropout2d_forward. by rewrite H.
Qed.

Lemma call_dropout1_train out w :
  training (model w) = true →
  call_dropout1 out w =
  Ok ((dropout2d_sample out (dropout1 (model w)) (rng w)).1,
      mkWorld (model w)
        (dropout2d_sample out (dropout1 (model w)) (rng w)).2 (stdout w)).
Proof.
  intros H. unfold call_dropout1, get_model, mbind, StateRes_bind,
    Dropout2d_forward, with_rng, draw. rewrite H.
  by destruct (dropout2d_sample _ _ _).
Qed.

(** Each call of [forward] runs each batch-norm module twice, on the
    module's own buffers. *)
Lemma forward_counts xb w out w' :
  forward xb w = Ok (out, w') →
  learnable (model w') = learnable (model w) ∧
  ∀ a, tracked a w' = tracked a w + (if training (model w) then 2 else 0).
Proof.
  intros Hrun. by destruct (runs_forward _ _ _ _ Hrun) as (? & _ & ? & _).
Qed.

Lemma runs_stage conv_a conv_b bn out :
  runs (stage conv_a conv_b bn out) (λ a, 2 * tick bn a).
Proof.
  eapply runs_weaken; cycle 1.
  - unfold stage. runs_seq.
  - intros a. simpl. lia.
Qed.

Lemma runs_classifier out : runs (classifier out) (λ _, 0).
Proof.
  eapply runs_weaken; cycle 1.
  - unfold classifier. runs_seq.
  - by intros [].
Qed.


(** *** The forward pass as a function *)

Lemma bind_run {S A C} (m : StateRes S A) (f : A → StateRes S C) s :
  (m ≫= f) s =
  match m s with Ok (a, s1) => f a s1 | Raise e => Raise e end.
Proof. reflexivity. Qed.

Lemma call_conv_run attr out w :
  call_conv attr out w =
  match claimed_conv (attr (model w)) out with
  | Ok y => Ok (y, w)
  | Raise e => Raise e
  end.
Proof. reflexivity. Qed.

Lemma call_linear_run attr out w :
  call_linear attr out w =
  match claimed_linear (attr (model w)) out with
  | Ok y => Ok (y, w)
  | Raise e => Raise e
  end.
Proof. reflexivity. Qed.

Lemma call_maxpool1_run out w :
  call_maxpool1 out w =
  match F_max_pool2d out (maxpool1 (model w)).1 (maxpool1 (model w)).2 with
  | Ok y => Ok (y, w)
  | Raise e => Raise e
  end.
Proof. reflexivity. Qed.

Lemma call_bn_run a out w :
  call_bn a out w =
  match claimed_batch_norm (training (model w)) (getattr_bn a (model w))
          out with
  | Ok (y, b) =>
      Ok (y, mkWorld (setattr_bn a b (model w)) (rng w) (stdout w))
  | Raise e => Raise e
  end.
Proof.
  unfold call_bn, mbind, StateRes_bind, get_model, lift.
  change (BatchNorm2d_forward (getattr_bn a (model w)) (training (model w))
            out)
    with (claimed_batch_norm (training (model w)) (getattr_bn a (model w))
            out).
  by destruct (claimed_batch_norm _ _ _) as [[y b]|e].
Qed.

Lemma call_dropout1_run out w :
  call_dropout1 out w =
  let '(y, g) :=
    if training (model w)
    then dropout2d_sample out (dropout1 (model w)) (rng w)
    else (out, rng w) in
  Ok (y, mkWorld (model w) g (stdout w)).
Proof.
  unfold call_dropout1, mbind, StateRes_bind, get_model, Dropout2d_forward,
    with_rng, draw.
  destruct (training (model w)).
  - by destruct (dropout2d_sample _ _ _).
  - by destruct w.
Qed.

Lemma stage_claimed conv_a conv_b a x w :
  (∀ b m, conv_b (setattr_bn a b m) = conv_b m) →
  stage conv_a conv_b a x w =
  match claimed_stage (training (model w)) (conv_a (model w))
          (conv_b (model w)) (maxpool1 (model w)) (getattr_bn a (model w))
          x with
  | Ok (y, b) =>
      Ok (y, mkWorld (setattr_bn a b (model w)) (rng w) (stdout w))
  | Raise e => Raise e
  end.
Proof.
  intros Hb. unfold stage, relu, claimed_stage.
  rewrite bind_run, call_conv_run.
  destruct (claimed_conv (conv_a (model w)) x) as [x1|e]; [|reflexivity].
  cbn [mbind Res_bind].
  rewrite bind_run. cbn [mret StateRes_ret]. rewrite bind_run, call_bn_run.
  destruct (claimed_batch_norm _ _ (F_relu x1)) as [[x2 b1]|e];
    [|reflexivity].
  cbn [mbind Res_bind].
  rewrite bind_run, call_conv_run. cbn [model]. rewrite Hb.
  destruct (claimed_conv (conv_b (model w)) x2) as [x3|e]; [|reflexivity].
  cbn [mbind Res_bind].
  rewrite bind_run. cbn [mret StateRes_ret]. rewrite bind_run, call_bn_run.
  cbn [model rng stdout].
  assert (training (setattr_bn a b1 (model w)) = training (model w)) as ->
    by reflexivity.
  assert (getattr_bn a (setattr_bn a b1 (model w)) = b1) as ->
    by (by destruct a).
  destruct (claimed_batch_norm _ b1 (F_relu x3)) as [[x4 b2]|e];
    [|reflexivity].
  cbn [mbind Res_bind].
  rewrite call_maxpool1_run. cbn [model].
  assert (maxpool1 (setattr_bn a b2 (setattr_bn a b1 (model w)))
          = maxpool1 (model w)) as -> by reflexivity.
  destruct (F_max_pool2d x4 _ _) as [x5|e]; [|reflexivity].
  cbn [mbind Res_bind mret Res_ret]. do 3 f_equal. by destruct a.
Qed.

Lemma classifier_claimed x w :
  classifier x w =
  match claimed_classifier (model w) (rng w) x with
  | Ok (y, g) => Ok (y, mkWorld (model w) g (stdout w))
  | Raise e => Raise e
  end.
Proof.
  unfold classifier, flatten, relu, claimed_classifier.
  rewrite bind_run. cbn [mret StateRes_ret].
  rewrite bind_run, call_linear_run.
  destruct (claimed_linear (linear1 (model w)) _) as [x1|e]; [|reflexivity].
  cbn [mbind Res_bind].
  rewrite bind_run. cbn [mret StateRes_ret].
  rewrite bind_run, call_dropout1_run.
  destruct (if training (model w) then _ else _) as [x2 g].
  rewrite call_linear_run. cbn [model].
  by destruct (claimed_linear (linear2 (model w)) x2) as [x3|e].
Qed.

Lemma forward_claimed xb w :
  forward xb w =
  match claimed_forward (model w) (rng w) xb with
  | Ok (out, m, g) => Ok (out, mkWorld m g (stdout w))
  | Raise e => Raise e
  end.
Proof.
  rewrite forward_staged. unfold staged_forward, claimed_forward.
  rewrite bind_run, stage_claimed by done. cbn [getattr_bn].
  destruct (claimed_stage _ _ _ _ (bn1 (model w)) xb) as [[x1 b1]|e];
    [|reflexivity].
  cbn [mbind Res_bind].
  rewrite bind_run, stage_claimed by done. cbn [model rng stdout getattr_bn].
  change (claimed_stage _ _ _ _ _ x1)
    with (claimed_stage (training (model w)) (conv3 (model w))
            (conv4 (model w)) (maxpool1 (model w)) (bn2 (model w)) x1).
  destruct (claimed_stage _ _ _ _ (bn2 (model w)) x1) as [[x2 b2]|e];
    [|reflexivity].
  cbn [mbind Res_bind].
  rewrite bind_run, stage_claimed by done. cbn [model rng stdout getattr_bn].
  change (claimed_stage _ _ _ _ _ x2)
    with (claimed_stage (training (model w)) (conv5 (model w))
            (conv6 (model w)) (maxpool1 (model w)) (bn3 (model w)) x2).
  destruct (claimed_stage _ _ _ _ (bn3 (model w)) x2) as [[x3 b3]|e];
    [|reflexivity].
  cbn [mbind Res_bind].
  rewrite classifier_claimed. cbn [model rng stdout].
  set (m3 := setattr_bn attr_bn3 b3 _).
  assert (claimed_classifier m3 (rng w) x3
          = claimed_classifier (model w) (rng w) x3) as -> by reflexivity.
  destruct (claimed_classifier (model w) (rng w) x3) as [[x4 g]|e];
    [|reflexivity].
  reflexivity.
Qed.

(** in training mode the forward pass leaves the generator where the
    dropout has left it *)
Lemma claimed_forward_draws m g xb out m' g' :
  claimed_forward m g xb = Ok (out, m', g') → training m = true →
  ∃ x, g' = (dropout2d_sample (F_relu x) (dropout1 m) g).2.
Proof.
  unfold claimed_forward. intros H Htr.
  apply Res_bind_Ok in H as ([x1 b1] & _ & H).
  apply Res_bind_Ok in H as ([x2 b2] & _ & H).
  apply Res_bind_Ok in H as ([x3 b3] & _ & H).
  apply Res_bind_Ok in H as ([x4 g4] & Hc & [= _ _ <-]).
  unfold claimed_classifier in Hc. rewrite Htr in Hc.
  apply Res_bind_Ok in Hc as (y1 & _ & Hc). exists y1.
  destruct (dropout2d_sample _ _ _) as [y2 g2].
  by apply Res_bind_Ok in Hc as (y3 & _ & [= _ <-]).
Qed.

Lemma validation_step_draws batch w r w' :
  training (model w) = true → validation_step batch w = Ok (r, w') →
  ∃ x, rng w' = (dropout2d_sample (F_relu x) (dropout1 (model w)) (rng w)).2.
Proof.
  destruct batch as [images labels]. unfold validation_step.
  intros Htr H. apply bind_Ok in H as (out & w1 & Hf & H).
  apply bind_Ok in H as (loss & w2 & [_ <-]%lift_Ok & H).
  apply bind_Ok in H as (acc & w3 & [_ <-]%lift_Ok & H).
  apply ret_Ok in H as [_ <-].
  rewrite forward_claimed in Hf.
  destruct (claimed_forward _ _ _) as [[[out' m'] g']|e] eqn:Hc; [|done].
  injection Hf as _ <-. cbn [rng].
  by eapply claimed_forward_draws.
Qed.


(** ** The split and the loaders *)

Lemma py_slice_range {A} (l : list A) lo hi :
  0 ≤ lo ≤ hi → hi ≤ Z.of_nat (length l) →
  py_slice l lo hi = take (Z.to_nat (hi - lo)) (drop (Z.to_nat lo) l).
Proof.
  intros Hlo Hhi. unfold py_slice, slice_bound.
  rewrite !decide_False by lia. by rewrite !Z.min_r by lia.
Qed.

Lemma random_split_two dataset a b g :
  0 ≤ a → 0 ≤ b → a + b = Z.of_nat (len dataset) →
  length (randperm (Z.to_nat (a + b)) g).1 = Z.to_nat (a + b) →
  random_split dataset [a; b] g =
  Ok ([Subset dataset (take (Z.to_nat a) (randperm (Z.to_nat (a + b)) g).1);
       Subset dataset (drop (Z.to_nat a) (randperm (Z.to_nat (a + b)) g).1)],
      (randperm (Z.to_nat (a + b)) g).2).
Proof.
  intros Ha Hb Hsum Hlen. unfold random_split.
  assert (sum_list [a; b] = a + b) as -> by (unfold sum_list; simpl; lia).
  rewrite decide_True by done.
  unfold draw, mbind, StateRes_bind, mret, StateRes_ret.
  destruct (randperm _ g) as [indices g'] eqn:Hperm. simpl in *.
  do 2 f_equal. f_equal; [|f_equal]; f_equal.
  - rewrite py_slice_range by lia.
    replace (0 + a - a) with 0 by lia.
    rewrite drop_0. f_equal. lia.
  - rewrite py_slice_range by lia.
    replace (0 + a + b - b) with a by lia.
    replace (0 + a + b - a) with b by lia.
    apply take_ge. rewrite length_drop. lia.
Qed.

Lemma Res_mapM_Ok {A C} (f : A → Res C) (l : list A) :
  Forall (λ x, ∃ y, f x = Ok y) l → ∃ ys, mapM f l = Ok ys.
Proof.
  induction 1 as [|x l [y Hy] _ [ys Hys]]; [by exists []|].
  exists (y :: ys). simpl. by rewrite Hy, Hys.
Qed.

Lemma fetch_Ok samples indices batch_size shuffle batch :
  Forall (λ i, i < length samples)%nat indices →
  Forall (λ i, i < length indices)%nat batch →
  ∃ b, fetch (mkDataLoader (Subset (CIFAR10 samples) indices)
                batch_size shuffle) batch = Ok b.
Proof.
  intros Hin Hb. unfold fetch. simpl dl_dataset.
  destruct (Res_mapM_Ok
    (dataset_getitem (Subset (CIFAR10 samples) indices)) batch) as [ys Hys].
  - eapply Forall_impl; [exact Hb|]. intros i Hi. simpl.
    destruct (lookup_lt_is_Some_2 indices i Hi) as [j Hj]. rewrite Hj.
    rewrite Forall_forall in Hin.
    destruct (lookup_lt_is_Some_2 samples j) as [x Hx].
    { apply Hin. by eapply list_elem_of_lookup_2. }
    rewrite Hx. by exists x.
  - rewrite Hys. by eexists.
Qed.

Lemma chunks_head n l c cs : chunks n l = c :: cs → c = take n l.
Proof.
  unfold chunks. destruct l as [|x l]; [done|].
  simpl length. cbn [chunks_upto]. by intros [= <- _].
Qed.

Lemma randperm_lt n g :
  (randperm n g).1 ≡ₚ seq 0 n → Forall (λ i, i < n)%nat (randperm n g).1.
Proof.
  intros ->. apply Forall_forall. intros i Hi%elem_of_seq. lia.
Qed.

Lemma sampler_Ok loader g :
  (∀ n g, (randperm n g).1 ≡ₚ seq 0 n) →
  ∃ order g', sampler loader g = Ok (order, g') ∧
              order ≡ₚ seq 0 (len (dl_dataset loader)).
Proof.
  intros Hperm. unfold sampler. destruct (dl_shuffle loader).
  - unfold draw, mbind, StateRes_bind, mret, StateRes_ret.
    destruct (random_int64 g) as [seed g'] eqn:Hseed.
    eexists _, _. split; [reflexivity|]. apply Hperm.
  - by eexists _, _.
Qed.

Lemma prepare_data_Ok samples test_dataset device g :
  val_size < Z.of_nat (length samples) →
  (∀ n g, (randperm n g).1 ≡ₚ seq 0 n) →
  ∃ g',
    prepare_data (CIFAR10 samples) test_dataset device g =
    Ok (mkLoaders
          (mkDeviceDataLoader
             (mkDataLoader
                (Subset (CIFAR10 samples)
                   (take (Z.to_nat (train_size (CIFAR10 samples)))
                      (randperm (length samples) (manual_seed 43)).1))
                batch_size true) device)
          (mkDeviceDataLoader
             (mkDataLoader
                (Subset (CIFAR10 samples)
                   (drop (Z.to_nat (train_size (CIFAR10 samples)))
                      (randperm (length samples) (manual_seed 43)).1))
                (batch_size * 2) false) device)
          (mkDeviceDataLoader
             (mkDataLoader test_dataset (batch_size * 2) false) device),
        g').
Proof.
  intros Hsize Hperm. unfold prepare_data.
  set (a := train_size (CIFAR10 samples)).
  assert (0 < a ∧ a + val_size = Z.of_nat (length samples)) as [Ha Hsum]
    by (subst a; unfold train_size, val_size in *; simpl len; lia).
  assert (Z.to_nat (a + val_size) = length samples) as Hn by lia.
  pose proof (Hperm (length samples) (manual_seed 43)) as Hp.
  pose proof (Permutation_length Hp) as Hlen. rewrite length_seq in Hlen.
  erewrite bind_step; [|reflexivity].
  erewrite bind_step; cycle 1.
  { apply random_split_two; [lia|unfold val_size; lia|done|].
    by rewrite Hn. }
  rewrite Hn.
  set (indices := (randperm (length samples) (manual_seed 43)).1) in *.
  erewrite bind_step; [|reflexivity]. cbv beta iota.
  unfold DataLoader_new.
  rewrite (decide_False (P := true = true ∧ _)); cycle 1.
  { intros [_ Hz]. simpl in Hz. rewrite length_take in Hz.
    unfold val_size in *. lia. }
  rewrite (decide_False (P := batch_size ≤ 0)) by (unfold batch_size; lia).
  erewrite bind_step; [|reflexivity].
  rewrite (decide_False (P := false = true ∧ _)) by (by intros [? _]).
  rewrite (decide_False (P := batch_size * 2 ≤ 0))
    by (unfold batch_size; lia).
  erewrite bind_step; [|reflexivity].
  erewrite bind_step; [|reflexivity].
  set (train_ds := Subset _ (take _ _)).
  erewrite bind_step; [|apply draw_Ok].
  destruct (sampler_Ok (mkDataLoader train_ds batch_size true)
              (random_int64
                 (randperm (length samples) (manual_seed 43)).2).2 Hperm)
    as (order & g' & Horder & Hord).
  erewrite bind_step; [|exact Horder].
  exists g'.
  destruct (chunks _ order) as [|batch rest] eqn:Hchunks.
  - by erewrite bind_step.
  - apply chunks_head in Hchunks.
    destruct (fetch_Ok samples (take (Z.to_nat a) indices) batch_size true
                batch) as [b Hb].
    + apply Forall_take. rewrite Hp. apply Forall_forall.
      intros i Hi%elem_of_seq. lia.
    + rewrite Hchunks. apply Forall_take. rewrite Hord.
      apply Forall_forall. intros i Hi%elem_of_seq. simpl in Hi. lia.
    + erewrite bind_step; [reflexivity|].
      erewrite bind_step; [reflexivity|]. unfold lift. fold train_ds in Hb.
      by rewrite Hb.
Qed.

Lemma DataLoader_new_Ok dataset bs shuffle loader :
  DataLoader_new dataset bs shuffle = Ok loader ↔
  loader = mkDataLoader dataset bs shuffle ∧ 0 < bs ∧
  (shuffle = true → len dataset ≠ 0%nat).
Proof.
  unfold DataLoader_new. repeat case_decide; split.
  all: try (intros [= <-]); try done.
  - intros (_ & _ & Hs). naive_solver.
  - intros (_ & ? & _). lia.
  - split_and!; [done|lia|]. intros Hs Hl. naive_solver.
  - by intros (-> & _).
Qed.

Lemma prepare_data_loaders dataset test_dataset device g l g' :
  prepare_data dataset test_dataset device g = Ok (l, g') →
  ∃ train_ds val_ds,
    random_split dataset [train_size dataset; val_size] (manual_seed 43)
    = Ok ([train_ds; val_ds],
          (randperm (Z.to_nat (sum_list [train_size dataset; val_size]))
             (manual_seed 43)).2) ∧
    l = mkLoaders
          (mkDeviceDataLoader (mkDataLoader train_ds batch_size true) device)
          (mkDeviceDataLoader
             (mkDataLoader val_ds (batch_size * 2) false) device)
          (mkDeviceDataLoader
             (mkDataLoader test_dataset (batch_size * 2) false) device).
Proof.
  unfold prepare_data. intros H.
  apply bind_Ok in H as ([] & g1 & [= <-] & H).
  apply bind_Ok in H as (parts & g2 & Hsplit & H).
  apply bind_Ok in H as ([train_ds val_ds] & g3 & [Hparts <-]%lift_Ok & H).
  apply bind_Ok in H as (tl & g4 & [Htl <-]%lift_Ok & H).
  apply bind_Ok in H as (vl & g5 & [Hvl <-]%lift_Ok & H).
  apply bind_Ok in H as (tsl & g6 & [Htsl <-]%lift_Ok & H).
  apply bind_Ok in H as (seed & g7' & _ & H).
  apply bind_Ok in H as (order & g7 & _ & H).
  apply bind_Ok in H as ([] & g8 & _ & H).
  apply ret_Ok in H as [<- _].
  apply DataLoader_new_Ok in Htl as (-> & _).
  apply DataLoader_new_Ok in Hvl as (-> & _).
  apply DataLoader_new_Ok in Htsl as (-> & _).
  exists train_ds, val_ds. split; [|done].
  destruct parts as [|a [|b [|c parts]]]; try discriminate Hparts.
  injection Hparts as -> ->. rewrite Hsplit. do 2 f_equal.
  unfold random_split in Hsplit. case_decide; [|done].
  apply bind_Ok in Hsplit as (indices & g9 & [= Hr] & [_ <-]%ret_Ok).
  symmetry. exact (f_equal snd Hr).
Qed.

(** C6.  The script seeds the generator with 43 and splits a corpus of
    50000 images, with a [randperm] that returns a permutation, into a
    training part of 45000 and a validation part of 5000 samples.  The two
    sizes add up to the size of the corpus, the parts are the first 45000
    and the last 5000 entries of the permutation drawn after seeding, no
    index of the corpus is in both parts and every index is in one. *)
Theorem split_sizes_and_disjoint samples test_dataset device g :
  Z.of_nat (length samples) = 50000 →
  (∀ n g, (randperm n g).1 ≡ₚ seq 0 n) →
  ∃ l g' train_indices val_indices,
    prepare_data (CIFAR10 samples) test_dataset device g = Ok (l, g') ∧
    dl_dataset (dl (train_loader l))
    = Subset (CIFAR10 samples) train_indices ∧
    dl_dataset (dl (val_loader l)) = Subset (CIFAR10 samples) val_indices ∧
    train_indices ++ val_indices
    = (randperm (length samples) (manual_seed 43)).1 ∧
    Z.of_nat (len (dl_dataset (dl (train_loader l)))) = 45000 ∧
    Z.of_nat (len (dl_dataset (dl (val_loader l)))) = 5000 ∧
    train_size (CIFAR10 samples) + val_size
    = Z.of_nat (len (CIFAR10 samples)) ∧
    (∀ i, i ∈ train_indices → i ∉ val_indices) ∧
    (∀ i, (i < length samples)%nat →
          i ∈ train_indices ∨ i ∈ val_indices).
Proof.
  intros Hsize Hperm.
  destruct (prepare_data_Ok samples test_dataset device g) as [g' Hrun];
    [unfold val_size; lia|done|].
  pose proof (Hperm (length samples) (manual_seed 43)) as Hp.
  pose proof (Permutation_length Hp) as Hlen. rewrite length_seq in Hlen.
  assert (Z.to_nat (train_size (CIFAR10 samples)) = Z.to_nat 45000) as Hn
    by (unfold train_size, val_size; simpl len; lia).
  rewrite Hn in Hrun.
  eexists _, g', _, _. split; [exact Hrun|]. cbn [train_loader val_loader
    dl dl_dataset len].
  split; [done|]. split; [done|]. split; [apply take_drop|].
  split; [rewrite length_take; lia|].
  split; [rewrite length_drop; lia|].
  split; [unfold train_size, val_size; simpl len; lia|].
  assert (NoDup (take (Z.to_nat 45000)
                   (randperm (length samples) (manual_seed 43)).1 ++
                 drop (Z.to_nat 45000)
                   (randperm (length samples) (manual_seed 43)).1)) as Hnd.
  { rewrite take_drop, Hp. apply NoDup_seq. }
  apply NoDup_app in Hnd as (_ & Hdisj & _). split; [exact Hdisj|].
  intros i Hi. apply elem_of_app. rewrite take_drop, Hp.
  apply elem_of_seq. lia.
Qed.

Lemma train_and_test_phases l w :
  train_and_test l w =
  (r ← evaluate (val_loader l);
   history ← run_phases phases l [r];
   evaluate (test_loader l) ;;
   final_result ← evaluate (test_loader l);
   mret (history, final_result)) w.
Proof.
  unfold train_and_test, run_phases, phases. cbn [for_each fst snd].
  apply bind_ext. intros r w1.
  repeat (rewrite !bind_assoc; apply bind_ext; intros ? ?; rewrite ?ret_bind).
  reflexivity.
Qed.

(** C8, amended.  The hyperparameters of the script are fixed in its text.
    The training loader takes batches of 128 in shuffled order; the
    validation loader and the test loader take batches of 256 in the order
    of their dataset.  The split is drawn from the generator seeded with
    43, so the loaders do not depend on the state of the generator before.
    After the first evaluation the script trains in four phases of 10
    epochs at the rates 1e-1, 1e-2, 1e-3 and 1e-4, in this order, each a
    call of [fit] with plain SGD on the training and the validation
    loader, and it appends the history of each phase. *)
Theorem script_hyperparameters :
  (∀ dataset test_dataset device g l g',
     prepare_data dataset test_dataset device g = Ok (l, g') →
     dl_batch_size (dl (train_loader l)) = 128 ∧
     dl_shuffle (dl (train_loader l)) = true ∧
     dl_batch_size (dl (val_loader l)) = 256 ∧
     dl_shuffle (dl (val_loader l)) = false ∧
     dl_batch_size (dl (test_loader l)) = 256 ∧
     dl_shuffle (dl (test_loader l)) = false ∧
     dl_dataset (dl (test_loader l)) = test_dataset ∧
     random_split dataset [Z.of_nat (len dataset) - 5000; 5000]
       (manual_seed 43)
     = Ok ([dl_dataset (dl (train_loader l));
            dl_dataset (dl (val_loader l))],
           (randperm (len dataset) (manual_seed 43)).2)) ∧
  (∀ dataset test_dataset device g g0,
     prepare_data dataset test_dataset device g
     = prepare_data dataset test_dataset device g0) ∧
  (∀ l w,
     train_and_test l w =
     (r ← evaluate (val_loader l);
      history ← run_phases
        [(10%nat, float_lit 1 (-1)); (10%nat, float_lit 1 (-2));
         (10%nat, float_lit 1 (-3)); (10%nat, float_lit 1 (-4))] l [r];
      evaluate (test_loader l) ;;
      final_result ← evaluate (test_loader l);
      mret (history, final_result)) w).
Proof.
  split; [|split].
  - intros dataset test_dataset device g l g' H.
    apply prepare_data_loaders in H as (train_ds & val_ds & Hsplit & ->).
    cbn [train_loader val_loader test_loader dl dl_batch_size dl_shuffle
         dl_dataset].
    split_and!; try reflexivity.
    etrans; [exact Hsplit|]. do 4 f_equal.
    unfold random_split in Hsplit. case_decide as Hsum; [|done].
    rewrite Hsum. apply Nat2Z.id.
  - reflexivity.
  - intros l w. apply train_and_test_phases.
Qed.


(** ** The batches of an iteration *)

Lemma chunks_upto_concat fuel n l :
  (0 < n)%nat → (length l ≤ fuel)%nat → concat (chunks_upto fuel n l) = l.
Proof.
  intros Hn. revert l. induction fuel as [|fuel IH]; intros l Hl.
  - destruct l; [done|simpl in Hl; lia].
  - destruct l as [|x l]; [done|].
    cbn [chunks_upto concat]. rewrite IH, take_drop; [done|].
    rewrite length_drop. simpl in *. lia.
Qed.

Lemma chunks_upto_bounds fuel n l :
  (0 < n)%nat →
  Forall (λ c, 0 < length c ≤ n)%nat (chunks_upto fuel n l).
Proof.
  intros Hn. revert l. induction fuel as [|fuel IH]; intros l; [constructor|].
  destruct l as [|x l]; [constructor|].
  cbn [chunks_upto]. constructor; [|apply IH].
  rewrite length_take. simpl. lia.
Qed.

Lemma chunks_upto_length fuel n l :
  (0 < n)%nat → (length l ≤ fuel)%nat →
  Z.of_nat (length (chunks_upto fuel n l))
  = (Z.of_nat (length l) + Z.of_nat n - 1) `div` Z.of_nat n.
Proof.
  intros Hn. revert l. induction fuel as [|fuel IH]; intros l Hl.
  - destruct l; [|simpl in Hl; lia]. simpl.
    symmetry. apply Z.div_small. lia.
  - destruct l as [|x l].
    { simpl. symmetry. apply Z.div_small. lia. }
    cbn [chunks_upto length]. rewrite Nat2Z.inj_succ, IH; cycle 1.
    { rewrite length_drop. simpl in *. lia. }
    rewrite length_drop. cbn [length].
    set (k := S (length l)) in *.
    destruct (decide (k ≤ n)%nat) as [Hle|Hgt].
    + replace (k - n)%nat with 0%nat by lia.
      rewrite (Z.div_small (_ + _ - 1)) by lia.
      apply (Z.div_unique _ _ 1 (Z.of_nat k - 1)); lia.
    + replace (Z.of_nat k + Z.of_nat n - 1)
        with ((Z.of_nat (k - n) + Z.of_nat n - 1) + 1 * Z.of_nat n) by lia.
      rewrite Z.div_add by lia. lia.
Qed.

Lemma sampler_length loader g order g' :
  (∀ n g, length (randperm n g).1 = n) →
  sampler loader g = Ok (order, g') →
  length order = len (dl_dataset loader).
Proof.
  intros Hlen. unfold sampler. destruct (dl_shuffle loader).
  - intros H. apply bind_Ok in H as (seed & g1 & _ & [= <- _]). apply Hlen.
  - intros [= <- _]. apply length_seq.
Qed.

Lemma batch_indices_Ok loader w batches w' :
  batch_indices loader w = Ok (batches, w') ↔
  ∃ order g',
    sampler loader (random_int64 (rng w)).2 = Ok (order, g') ∧
    batches = chunks (Z.to_nat (dl_batch_size loader)) order ∧
    w' = mkWorld (model w) g' (stdout w).
Proof.
  unfold batch_indices, with_rng, mbind, StateRes_bind.
  rewrite draw_Ok. cbn [rng model stdout].
  destruct (sampler loader (random_int64 (rng w)).2) as [[order g']|e].
  - split; [intros [= <- <-]; by exists order, g'|].
    by intros (o & g1 & [= <- <-] & -> & ->).
  - split; [done|]. by intros (o & g1 & [=] & _).
Qed.

(** [len(loader)] is the number of batches an iteration yields. *)
Theorem DeviceDataLoader_len_counts_batches {A} loader
    (body : Batch → M A) w outputs w' :
  0 < dl_batch_size (dl loader) →
  (∀ n g, length (randperm n g).1 = n) →
  for_batches loader body w = Ok (outputs, w') →
  Z.of_nat (length outputs) = DeviceDataLoader_len loader.
Proof.
  intros Hbs Hlen Hrun.
  apply for_batches_Ok in Hrun as (batches & w0 & Hb & Hm).
  apply mapM_length in Hm. rewrite Hm.
  apply batch_indices_Ok in Hb as (order & g' & Hs & -> & _).
  apply sampler_length in Hs; [|done].
  unfold chunks. rewrite chunks_upto_length by lia.
  unfold DeviceDataLoader_len, DataLoader_len.
  by rewrite Hs, Z2Nat.id by lia.
Qed.

(** An iteration visits every sample once: the batches are not empty, hold
    at most [batch_size] indices and, one after the other, are the order
    of the sampler, which is the order of the dataset, or a permutation of
    it when the loader shuffles.  Starting the iteration changes neither
    the model nor the output, but it does move the default generator: the
    iterator draws its base seed from it, and that is all a loader that
    does not shuffle draws. *)
Theorem iteration_visits_every_sample_once loader w batches w' :
  0 < dl_batch_size loader →
  (∀ n g, (randperm n g).1 ≡ₚ seq 0 n) →
  batch_indices loader w = Ok (batches, w') →
  concat batches ≡ₚ seq 0 (len (dl_dataset loader)) ∧
  Forall (λ batch, 0 < Z.of_nat (length batch) ≤ dl_batch_size loader)
    batches ∧
  model w' = model w ∧ stdout w' = stdout w ∧
  (dl_shuffle loader = false →
   concat batches = seq 0 (len (dl_dataset loader)) ∧
   rng w' = (random_int64 (rng w)).2) ∧
  (dl_shuffle loader = true →
   rng w' = (random_int64 (random_int64 (rng w)).2).2).
Proof.
  intros Hbs Hperm Hb.
  apply batch_indices_Ok in Hb as (order & g' & Hs & -> & ->).
  unfold chunks. rewrite chunks_upto_concat by lia.
  split; [|split; [|split; [done|split; [done|split]]]].
  - destruct (sampler_Ok loader (random_int64 (rng w)).2 Hperm)
      as (o & g1 & Ho & Hp).
    rewrite Hs in Ho. by injection Ho as <- <-.
  - eapply Forall_impl; [apply chunks_upto_bounds; lia|].
    intros c Hc. simpl in Hc. lia.
  - intros Hsh. unfold sampler in Hs. rewrite Hsh in Hs.
    by injection Hs as <- <-.
  - intros Hsh. unfold sampler in Hs. rewrite Hsh in Hs.
    apply bind_Ok in Hs as (seed & g1 & Hd & [= _ <-]).
    rewrite draw_Ok in Hd. by injection Hd as _ <-.
Qed.

(** ** What a computation keeps *)

Section Preserves.
Context (R : World → World → Prop).
Context (R_refl : ∀ w, R w w) (R_trans : ∀ w1 w2 w3, R w1 w2 → R w2 w3 → R w1 w3).

Lemma preserves_ret {A} (a : A) : preserves R (mret a).
Proof. intros w b w' [_ <-]%ret_Ok. apply R_refl. Qed.

Lemma preserves_lift {A} (r : Res A) : preserves R (lift r).
Proof. intros w b w' [_ <-]%lift_Ok. apply R_refl. Qed.

Lemma preserves_get_model : preserves R get_model.
Proof. intros w a w' [= _ <-]. apply R_refl. Qed.

Lemma preserves_bind {A C} (m : M A) (f : A → M C) :
  preserves R m → (∀ a, preserves R (f a)) → preserves R (m ≫= f).
Proof.
  intros Hm Hf w c w' Hrun. apply bind_Ok in Hrun as (a & w1 & H1 & H2).
  eapply R_trans; [by eapply Hm|by eapply Hf].
Qed.

Lemma preserves_mapM {A C} (f : A → M C) (l : list A) :
  (∀ x, preserves R (f x)) → preserves R (mapM f l).
Proof.
  intros Hf. induction l as [|x l IH]; intros w r w'.
  - rewrite mapM_nil_Ok. intros [_ <-]. apply R_refl.
  - rewrite mapM_cons_Ok. intros (y & w1 & ys & Hy & Hys & _).
    eapply R_trans; [by eapply Hf|by eapply IH].
Qed.

Lemma preserves_for_each {A St} (l : list A) (s : St)
    (body : A → St → M St) :
  (∀ x s, preserves R (body x s)) → preserves R (for_each l s body).
Proof.
  intros Hb. revert s. induction l as [|x l IH]; intros s.
  - apply preserves_ret.
  - apply preserves_bind; [apply Hb|]. intros s1. apply IH.
Qed.

End Preserves.

Lemma same_mode_refl w : same_mode w w.
Proof. done. Qed.

Lemma same_mode_trans w1 w2 w3 :
  same_mode w1 w2 → same_mode w2 w3 → same_mode w1 w3.
Proof. unfold same_mode. congruence. Qed.

Lemma unchanged_in_eval_refl w : unchanged_in_eval w w.
Proof. done. Qed.

Lemma unchanged_in_eval_trans w1 w2 w3 :
  unchanged_in_eval w1 w2 → unchanged_in_eval w2 w3 →
  unchanged_in_eval w1 w3.
Proof.
  unfold unchanged_in_eval. intros H1 H2 Hw. rewrite <- (H1 Hw).
  apply H2. by rewrite (H1 Hw).
Qed.

(** *** The mode *)

Lemma same_mode_runs {A} (m : M A) k : runs m k → preserves same_mode m.
Proof.
  intros Hm w a w' Hrun. destruct (Hm _ _ _ Hrun) as (Hl & _).
  by apply learnable_training.
Qed.

Lemma same_mode_put_imap f :
  preserves same_mode (self ← get_model; put_model (imap_parameters f self)).
Proof. by intros w a w' [= _ <-]. Qed.

Lemma same_mode_step opt st : preserves same_mode (step opt st).
Proof. by intros w a w' [= _ <-]. Qed.

Lemma same_mode_train_batch opt batch st :
  preserves same_mode (train_batch opt batch st).
Proof.
  unfold train_batch.
  apply preserves_bind; [apply same_mode_trans| |].
  { eapply same_mode_runs, runs_training_step. }
  intros loss. apply preserves_bind; [apply same_mode_trans| |].
  { apply same_mode_put_imap. }
  intros _. apply preserves_bind; [apply same_mode_trans| |].
  { apply same_mode_step. }
  intros o. apply preserves_bind; [apply same_mode_trans| |].
  { apply same_mode_put_imap. }
  intros _. by apply preserves_ret.
Qed.

Lemma same_mode_train_epoch opt loader st :
  preserves same_mode (train_epoch opt loader st).
Proof.
  unfold train_epoch.
  apply preserves_bind; [apply same_mode_trans| |].
  { eapply same_mode_runs, runs_batch_indices. }
  intros batches.
  apply preserves_for_each; [done|apply same_mode_trans|].
  intros indices o. apply preserves_bind; [apply same_mode_trans| |].
  { eapply same_mode_runs, runs_next_batch. }
  intros batch. apply same_mode_train_batch.
Qed.

Lemma same_mode_evaluate loader : preserves same_mode (evaluate loader).
Proof.
  intros w r w' Hrun.
  destruct (evaluate_frame _ _ _ _ Hrun) as (batches & w0 & _ & Hl & _).
  by apply learnable_training.
Qed.

Lemma same_mode_epoch_end epoch result :
  preserves same_mode (epoch_end epoch result).
Proof.
  unfold epoch_end.
  apply preserves_bind; [apply same_mode_trans| |].
  { by apply preserves_lift. }
  intros l. apply preserves_bind; [apply same_mode_trans| |].
  { by apply preserves_lift. }
  intros a w u w' H. unfold print in H. by simplify_eq.
Qed.

Lemma same_mode_fit_epoch opt tl vl epoch s :
  preserves same_mode (fit_epoch opt tl vl epoch s).
Proof.
  destruct s as [h o]. unfold fit_epoch.
  apply preserves_bind; [apply same_mode_trans| |].
  { apply same_mode_train_epoch. }
  intros o1. apply preserves_bind; [apply same_mode_trans| |].
  { apply same_mode_evaluate. }
  intros r. apply preserves_bind; [apply same_mode_trans| |].
  { apply same_mode_epoch_end. }
  intros _. by apply preserves_ret.
Qed.

Lemma same_mode_fit epochs lr tl vl opt :
  preserves same_mode (fit epochs lr tl vl opt).
Proof.
  intros w h w' Hrun. apply fit_Ok in Hrun as (Hc & o & Hrun).
  revert Hrun. apply preserves_for_each; [done|apply same_mode_trans|].
  intros epoch s. apply same_mode_fit_epoch.
Qed.

(** *** The running statistics *)

Lemma observed_refl w : observed w w.
Proof. intros a. by exists []. Qed.

Lemma observed_trans w1 w2 w3 :
  observed w1 w2 → observed w2 w3 → observed w1 w3.
Proof.
  intros H1 H2 a. destruct (H1 a) as [l1 E1]. destruct (H2 a) as [l2 E2].
  exists (l1 ++ l2). by rewrite foldl_app, <- E1.
Qed.

Lemma observed_same_model w w' : model w' = model w → observed w w'.
Proof. intros E a. exists []. by rewrite E. Qed.

Lemma observed_reads {A} (f : CIFAR10Model → Res A) :
  preserves observed (self ← get_model; lift (f self)).
Proof.
  intros w a w' H. apply bind_Ok in H as (m & w1 & [= _ <-] & H).
  apply lift_Ok in H as [_ <-]. apply observed_refl.
Qed.

Lemma observed_with_rng {A} (r : R A) : preserves observed (with_rng r).
Proof.
  intros w a w'. unfold with_rng.
  destruct (r (rng w)) as [[a' g]|e]; [|done]. intros [= _ <-].
  by apply observed_same_model.
Qed.

Lemma observed_call_dropout1 out : preserves observed (call_dropout1 out).
Proof.
  intros w a w' H. unfold call_dropout1, Dropout2d_forward in H.
  apply bind_Ok in H as (m & w1 & [= <- <-] & H).
  destruct (training (model w)).
  - by eapply observed_with_rng.
  - apply ret_Ok in H as [_ <-]. apply observed_refl.
Qed.

(** a call of a module in training mode adds its input to what the module
    has observed; the other modules are not touched *)
Lemma observed_call_bn a out : preserves observed (call_bn a out).
Proof.
  intros w y w' H. unfold call_bn in H.
  apply bind_Ok in H as (m & w1 & [= <- <-] & H1).
  apply bind_Ok in H1 as ([out' bn'] & w2 & Hbn & H2).
  apply lift_Ok in Hbn as [Hbn <-].
  apply bind_Ok in H2 as (u & w3 & Hp & H3).
  apply ret_Ok in H3 as [_ <-]. injection Hp as <- <-. cbn [model].
  unfold BatchNorm2d_forward in Hbn. intros a'.
  destruct (training (model w)).
  - apply Res_bind_Ok in Hbn as (y' & _ & [= _ <-]).
    destruct (decide (a' = a)) as [->|Hne].
    + exists [out]. destruct a; reflexivity.
    + exists []. by destruct a, a'.
  - apply Res_bind_Ok in Hbn as (y' & _ & [= _ <-]).
    exists []. by destruct a, a'.
Qed.

Lemma observed_forward xb : preserves observed (forward xb).
Proof.
  unfold forward, relu, flatten, call_conv, call_linear, call_maxpool1.
  repeat (apply preserves_bind;
          [apply observed_trans
          |first [ apply observed_reads | apply observed_call_bn
                 | apply observed_call_dropout1
                 | apply preserves_ret, observed_refl ]
          |intros ?]).
  apply preserves_ret, observed_refl.
Qed.

Lemma observed_evaluate loader : preserves observed (evaluate loader).
Proof.
  unfold evaluate, for_batches.
  apply preserves_bind; [apply observed_trans| |].
  2: { intros outputs. apply preserves_lift, observed_refl. }
  apply preserves_bind; [apply observed_trans| |].
  { unfold batch_indices.
    apply preserves_bind; [apply observed_trans|apply observed_with_rng|].
    intros _.
    apply preserves_bind; [apply observed_trans|apply observed_with_rng|].
    intros order. apply preserves_ret, observed_refl. }
  intros batches.
  apply preserves_mapM; [apply observed_refl|apply observed_trans|].
  intros indices. apply preserves_bind; [apply observed_trans| |].
  { unfold next_batch.
    apply preserves_bind;
      [apply observed_trans|apply preserves_lift, observed_refl|].
    intros b. apply preserves_ret, observed_refl. }
  intros [images labels]. unfold validation_step.
  apply preserves_bind; [apply observed_trans|apply observed_forward|].
  intros out.
  apply preserves_bind;
    [apply observed_trans|apply preserves_lift, observed_refl|].
  intros loss.
  apply preserves_bind;
    [apply observed_trans|apply preserves_lift, observed_refl|].
  intros acc. apply preserves_ret, observed_refl.
Qed.

Lemma observe_counts inputs bn :
  num_batches_tracked (foldl bn_observe bn inputs)
  = num_batches_tracked bn + Z.of_nat (length inputs).
Proof.
  revert bn. induction inputs as [|x inputs IH]; intros bn; simpl; [lia|].
  rewrite IH. simpl. lia.
Qed.

(** C3, as amended.  [evaluate] changes no parameter and no gradient, does
    not switch the mode of the model and prints nothing; what it does
    change are the buffers of the batch-norm modules: the model is
    evaluated in the mode it is in, and in training mode, which the script
    never leaves, every batch is counted twice by each of the three
    modules, and each module has moved its running mean and its running
    variance once for each of these two inputs per batch.  A model in
    evaluation mode is left as it was. *)
Theorem evaluate_changes_buffers_only loader w result w' :
  evaluate loader w = Ok (result, w') →
  parameters (model w') = parameters (model w) ∧
  learnable (model w') = learnable (model w) ∧
  stdout w' = stdout w ∧
  (training (model w) = false → model w' = model w) ∧
  ∃ batches w0,
    batch_indices (dl loader) w = Ok (batches, w0) ∧
    (∀ a, tracked a w' =
          tracked a w +
          (if training (model w) then 2 * Z.of_nat (length batches) else 0)) ∧
    (training (model w) = true →
     ∀ a, ∃ inputs,
       length inputs = (2 * length batches)%nat ∧
       getattr_bn a (model w')
       = foldl bn_observe (getattr_bn a (model w)) inputs).
Proof.
  intros Hrun.
  destruct (evaluate_frame _ _ _ _ Hrun) as (batches & w0 & Hb & Hf).
  destruct Hf as (Hl & Ho & Ht & He).
  split_and!; try done.
  - by apply learnable_parameters.
  - exists batches, w0. split_and!; try done.
    intros Htr a. destruct (observed_evaluate _ _ _ _ Hrun a) as [inputs Hi].
    exists inputs. split; [|done].
    specialize (Ht a). unfold tracked in Ht.
    rewrite Hi, observe_counts, Htr in Ht. lia.
Qed.

(** *** The script as a whole *)

Lemma fit_records epochs lr tl vl opt w history w' :
  fit epochs lr tl vl opt w = Ok (history, w') →
  length history = epochs ∧
  Forall (λ record, keys record = {[ "val_loss"; "val_acc" ]}) history ∧
  ∃ lines, stdout w' = stdout w ++ lines ∧ length lines = epochs.
Proof.
  rewrite fit_Ok. intros (Hc & o & Hrun).
  destruct (fit_loop_history _ _ _ _ _ _ _ _ _ Hrun)
    as (Hlen & Hkeys & lines & Hout & Hlines & _).
  eauto.
Qed.

Lemma evaluate_keys loader w r w' :
  evaluate loader w = Ok (r, w') →
  keys r = {[ "val_loss"; "val_acc" ]}.
Proof.
  intros (l & a & ->)%evaluate_result. apply keys_result.
Qed.

Lemma train_and_test_Ok l w history final_result w' :
  train_and_test l w = Ok ((history, final_result), w') →
  length history = 41%nat ∧
  Forall (λ record, keys record = {[ "val_loss"; "val_acc" ]}) history ∧
  keys final_result = {[ "val_loss"; "val_acc" ]} ∧
  (∃ lines, stdout w' = stdout w ++ lines ∧ length lines = 40%nat) ∧
  training (model w') = training (model w).
Proof.
  unfold train_and_test. intros H.
  apply bind_Ok in H as (r & w0 & Hr & H).
  apply bind_Ok in H as (h1 & w1 & H1 & H).
  apply bind_Ok in H as (h2 & w2 & H2 & H).
  apply bind_Ok in H as (h3 & w3 & H3 & H).
  apply bind_Ok in H as (h4 & w4 & H4 & H).
  apply bind_Ok in H as (r5 & w5 & H5 & H).
  apply bind_Ok in H as (r6 & w6 & H6 & H).
  apply ret_Ok in H as [[= <- <-] <-].
  pose proof (same_mode_evaluate _ _ _ _ Hr) as M0.
  pose proof (same_mode_fit _ _ _ _ _ _ _ _ H1) as M1.
  pose proof (same_mode_fit _ _ _ _ _ _ _ _ H2) as M2.
  pose proof (same_mode_fit _ _ _ _ _ _ _ _ H3) as M3.
  pose proof (same_mode_fit _ _ _ _ _ _ _ _ H4) as M4.
  pose proof (same_mode_evaluate _ _ _ _ H5) as M5.
  pose proof (same_mode_evaluate _ _ _ _ H6) as M6.
  pose proof (silent_evaluate _ _ _ _ Hr) as S0.
  pose proof (silent_evaluate _ _ _ _ H5) as S5.
  pose proof (silent_evaluate _ _ _ _ H6) as S6.
  apply evaluate_keys in Hr, H6.
  apply fit_records in H1 as (L1 & K1 & l1 & O1 & N1).
  apply fit_records in H2 as (L2 & K2 & l2 & O2 & N2).
  apply fit_records in H3 as (L3 & K3 & l3 & O3 & N3).
  apply fit_records in H4 as (L4 & K4 & l4 & O4 & N4).
  split; [cbn [length]; rewrite !length_app; lia|].
  split; [constructor; [done|]; by repeat (apply Forall_app; split)|].
  split; [done|]. split.
  - exists (l1 ++ l2 ++ l3 ++ l4).
    split; [|rewrite !length_app; lia].
    rewrite S6, S5, O4, O3, O2, O1, S0. by rewrite <- !app_assoc.
  - unfold same_mode in *. congruence.
Qed.

(** The run of the script after the loaders are made: the history holds
    the record of the first evaluation and one record for each of the 40
    epochs, 41 records with a validation loss and a validation accuracy
    each; 40 lines are printed; the record of the test set has the same
    two keys; and the model is in the mode it was in at the start, through
    every evaluation. *)
Theorem train_and_test_history l w history final_result w' :
  train_and_test l w = Ok ((history, final_result), w') →
  length history = 41%nat ∧
  Forall (λ record, keys record = {[ "val_loss"; "val_acc" ]}) history ∧
  keys final_result = {[ "val_loss"; "val_acc" ]} ∧
  (∃ lines, stdout w' = stdout w ++ lines ∧ length lines = 40%nat) ∧
  training (model w') = training (model w).
Proof. apply train_and_test_Ok. Qed.

(** The script creates the model in training mode and never leaves it:
    whatever the data, the seed and the device, a run of the script that
    comes to its end has evaluated the test set with the model in training
    mode. *)
Theorem main_stays_in_training_mode dataset test_dataset device g result w' :
  main dataset test_dataset device g = Ok (result, w') →
  training (model w') = true ∧ length result.1 = 41%nat.
Proof.
  unfold main. intros H.
  apply Res_bind_Ok in H as ([loaders g1] & _ & H).
  destruct (CIFAR10Model_init g1) as [m g2] eqn:Hinit.
  destruct result as [history final_result].
  destruct (train_and_test loaders _) as [[[h f] w1]|e] eqn:Hrun; [|done].
  injection H as <- <- <-.
  apply train_and_test_Ok in Hrun as (Hlen & _ & _ & _ & Hmode).
  split; [|done]. rewrite Hmode. simpl.
  unfold CIFAR10Model_init, Conv2d_init, Linear_init, new_param in Hinit.
  repeat destruct (init_uniform _ _ _) as [? ?] in Hinit.
  by injection Hinit as <- _.
Qed.

(** *** Evaluation mode *)

Lemma unchanged_call_conv attr out :
  preserves unchanged_in_eval (call_conv attr out).
Proof.
  intros w a w' H _. apply bind_Ok in H as (m & w1 & [= _ <-] & H).
  by apply lift_Ok in H as [_ <-].
Qed.

Lemma unchanged_call_linear attr out :
  preserves unchanged_in_eval (call_linear attr out).
Proof.
  intros w a w' H _. apply bind_Ok in H as (m & w1 & [= _ <-] & H).
  by apply lift_Ok in H as [_ <-].
Qed.

Lemma unchanged_call_maxpool1 out :
  preserves unchanged_in_eval (call_maxpool1 out).
Proof.
  intros w a w' H _. apply bind_Ok in H as (m & w1 & [= _ <-] & H).
  by apply lift_Ok in H as [_ <-].
Qed.

Lemma unchanged_call_dropout1 out :
  preserves unchanged_in_eval (call_dropout1 out).
Proof.
  intros w a w' H Hw. rewrite call_dropout1_eval in H by done.
  by injection H as _ <-.
Qed.

Lemma unchanged_runs {A} (m : M A) k :
  runs m k → (∀ w a w', m w = Ok (a, w') → rng w' = rng w) →
  preserves unchanged_in_eval m.
Proof.
  intros Hm Hrng w a w' Hrun Hw.
  destruct (Hm _ _ _ Hrun) as (_ & Hout & _ & Hmodel).
  specialize (Hmodel Hw). specialize (Hrng _ _ _ Hrun).
  destruct w, w'; simpl in *. by subst.
Qed.

Lemma unchanged_call_bn a out : preserves unchanged_in_eval (call_bn a out).
Proof.
  eapply unchanged_runs; [apply runs_call_bn|].
  intros w y w' H. unfold call_bn in H.
  apply bind_Ok in H as (m & w1 & [= _ <-] & H).
  apply bind_Ok in H as ([out' bn'] & w2 & [_ <-]%lift_Ok & H).
  apply bind_Ok in H as (u & w3 & [= _ <-] & H).
  by apply ret_Ok in H as [_ <-].
Qed.

Lemma unchanged_forward xb : preserves unchanged_in_eval (forward xb).
Proof.
  unfold forward, relu, flatten.
  repeat (apply preserves_bind;
          [apply unchanged_in_eval_trans
          |first [ apply unchanged_call_conv | apply unchanged_call_bn
                 | apply unchanged_call_maxpool1 | apply unchanged_call_linear
                 | apply unchanged_call_dropout1
                 | by apply preserves_ret ]
          |intros ?]).
  by apply preserves_ret.
Qed.

Lemma unchanged_validation_step batch :
  preserves unchanged_in_eval (validation_step batch).
Proof.
  destruct batch as [images labels]. unfold validation_step.
  apply preserves_bind; [apply unchanged_in_eval_trans| |].
  { apply unchanged_forward. }
  intros out. apply preserves_bind; [apply unchanged_in_eval_trans| |].
  { by apply preserves_lift. }
  intros loss. apply preserves_bind; [apply unchanged_in_eval_trans| |].
  { by apply preserves_lift. }
  intros acc. by apply preserves_ret.
Qed.

Lemma repeatable_ret {A} (a : A) : repeatable_in_eval (mret a).
Proof. by intros w b w' _ [<- <-]%ret_Ok. Qed.

Lemma repeatable_lift {A} (r : Res A) : repeatable_in_eval (lift r).
Proof.
  intros w b w' _ [-> <-]%lift_Ok. done.
Qed.

Lemma repeatable_bind {A C} (m : M A) (f : A → M C) :
  repeatable_in_eval m → (∀ a, repeatable_in_eval (f a)) →
  repeatable_in_eval (m ≫= f).
Proof.
  intros Hm Hf w c w' Hw Hrun.
  apply bind_Ok in Hrun as (a & w1 & H1 & H2).
  destruct (Hm _ _ _ Hw H1) as [-> Hg1].
  destruct (Hf _ _ _ _ Hw H2) as [-> Hg2].
  split; [done|]. intros g. rewrite (bind_step _ _ _ _ _ (Hg1 g)).
  apply Hg2.
Qed.

Lemma repeatable_mapM {A C} (f : A → M C) (l : list A) :
  (∀ x, repeatable_in_eval (f x)) → repeatable_in_eval (mapM f l).
Proof.
  intros Hf. induction l as [|x l IH]; intros w r w' Hw.
  - rewrite mapM_nil_Ok. by intros [-> <-].
  - rewrite mapM_cons_Ok. intros (y & w1 & ys & Hy & Hys & ->).
    destruct (Hf _ _ _ _ Hw Hy) as [-> Hg1].
    destruct (IH _ _ _ Hw Hys) as [-> Hg2].
    split; [done|]. intros g. apply mapM_cons_Ok.
    exists y, (with_generator g w), ys. eauto.
Qed.

Lemma repeatable_reads {A} (f : CIFAR10Model → Res A) :
  repeatable_in_eval (self ← get_model; lift (f self)).
Proof.
  intros w a w' _ H. apply bind_Ok in H as (m & w1 & [= <- <-] & H).
  apply lift_Ok in H as [H <-]. split; [done|]. intros g.
  unfold mbind, StateRes_bind, get_model, lift, with_generator.
  cbn [model]. by rewrite H.
Qed.

Lemma repeatable_call_bn a out : repeatable_in_eval (call_bn a out).
Proof.
  intros w y w' Hw H.
  pose proof (unchanged_call_bn a out _ _ _ H Hw) as ->.
  split; [done|]. intros g. revert H.
  unfold call_bn, mbind, StateRes_bind, get_model, lift, put_model, mret,
    StateRes_ret, with_generator. cbn [model rng stdout].
  destruct (BatchNorm2d_forward _ _ _) as [[out' bn']|e]; [|done].
  intros [= <- Hm]. apply (f_equal model) in Hm. cbn [model] in Hm.
  by rewrite Hm.
Qed.

Lemma repeatable_call_dropout1 out : repeatable_in_eval (call_dropout1 out).
Proof.
  intros w y w' Hw H. rewrite call_dropout1_eval in H by done.
  injection H as <- <-. split; [done|]. intros g.
  by rewrite call_dropout1_eval.
Qed.

Lemma repeatable_forward xb : repeatable_in_eval (forward xb).
Proof.
  unfold forward, relu, flatten, call_conv, call_linear, call_maxpool1.
  repeat (apply repeatable_bind;
          [first [ apply repeatable_reads | apply repeatable_call_bn
                 | apply repeatable_call_dropout1 | apply repeatable_ret ]
          |intros ?]).
  apply repeatable_ret.
Qed.

Lemma repeatable_validation_step batch :
  repeatable_in_eval (validation_step batch).
Proof.
  destruct batch as [images labels]. unfold validation_step.
  apply repeatable_bind; [apply repeatable_forward|].
  intros out. apply repeatable_bind; [apply repeatable_lift|].
  intros loss. apply repeatable_bind; [apply repeatable_lift|].
  intros acc. apply repeatable_ret.
Qed.

Lemma evaluate_eval_mode loader w result w' :
  training (model w) = false → dl_shuffle (dl loader) = false →
  evaluate loader w = Ok (result, w') →
  w' = with_generator (random_int64 (rng w)).2 w ∧
  ∀ g, evaluate loader (with_generator g w)
       = Ok (result, with_generator (random_int64 g).2 w).
Proof.
  intros Hw Hsh Hrun. apply evaluate_Ok in Hrun as (outputs & Hrun & Hend).
  apply for_batches_Ok in Hrun as (batches & w0 & Hb & Hm).
  apply batch_indices_Ok in Hb as (order & g' & Hs & -> & ->).
  unfold sampler in Hs. rewrite Hsh in Hs. injection Hs as <- <-.
  set (body := λ indices, _) in Hm.
  assert (repeatable_in_eval
            (mapM body
               (chunks (Z.to_nat (dl_batch_size (dl loader)))
                  (seq 0 (len (dl_dataset (dl loader))))))) as Hrep.
  { apply repeatable_mapM. intros indices. subst body.
    apply repeatable_bind.
    - unfold next_batch. apply repeatable_bind; [apply repeatable_lift|].
      intros b. apply repeatable_ret.
    - intros batch. apply repeatable_validation_step. }
  destruct (Hrep (with_generator (random_int64 (rng w)).2 w) _ _ Hw Hm)
    as [-> Hg].
  split; [done|]. intros g.
  apply evaluate_Ok. exists outputs. split; [|done].
  apply for_batches_Ok.
  exists (chunks (Z.to_nat (dl_batch_size (dl loader)))
            (seq 0 (len (dl_dataset (dl loader))))),
    (with_generator (random_int64 g).2 w).
  split.
  - apply batch_indices_Ok.
    exists (seq 0 (len (dl_dataset (dl loader)))), (random_int64 g).2.
    split; [|done]. unfold sampler. by rewrite Hsh.
  - apply (Hg (random_int64 g).2).
Qed.

(** With the model in evaluation mode and a loader that does not shuffle,
    [evaluate] changes neither the model nor the output; of the default
    generator it takes one number, the base seed of the iterator, and its
    metrics do not depend on the generator: run again, from the state it
    has left or with any other generator, it returns the same metrics. *)
Theorem evaluate_in_eval_mode_is_repeatable loader w result w' :
  training (model w) = false → dl_shuffle (dl loader) = false →
  evaluate loader w = Ok (result, w') →
  model w' = model w ∧ stdout w' = stdout w ∧
  rng w' = (random_int64 (rng w)).2 ∧
  (∃ w'', evaluate loader w' = Ok (result, w'')) ∧
  ∀ g, evaluate loader (with_generator g w)
       = Ok (result, with_generator (random_int64 g).2 w).
Proof.
  intros Hw Hsh Hrun.
  destruct (evaluate_eval_mode _ _ _ _ Hw Hsh Hrun) as [-> Hg].
  repeat split; [|done]. eexists. apply Hg.
Qed.

(** *** Errors in [fit] *)

Lemma fit_loop_raises opt k n o tl vl w s w1 e :
  fit_loop opt k o tl vl w = Ok (s, w1) →
  fit_epoch opt tl vl k s w1 = Raise e →
  (k < n)%nat →
  fit_loop opt n o tl vl w = Raise e.
Proof.
  intros Hk He Hn. unfold fit_loop in *.
  replace n with (k + S (n - S k))%nat by lia.
  rewrite seq_app, for_each_app. rewrite (bind_step _ _ _ _ _ Hk).
  cbn [seq for_each]. simpl. by rewrite (bind_Raise _ _ _ _ He).
Qed.

Lemma fit_unfold epochs lr tl vl opt w :
  fit epochs lr tl vl opt w =
  match opt_check opt lr with
  | Raise e => Raise e
  | Ok _ =>
      match fit_loop opt epochs (opt_new opt (parameters (model w)) lr)
              tl vl w with
      | Ok (r, w') => Ok (r.1, w')
      | Raise e => Raise e
      end
  end.
Proof.
  unfold fit, fit_optimizer, mbind, StateRes_bind, get_model, lift.
  destruct (opt_check opt lr) as [[]|e]; [|done]. simpl.
  by destruct (fit_loop _ _ _ _ _ _) as [[[h o] w']|e].
Qed.

Lemma batch_indices_empty loader w :
  len (dl_dataset loader) = 0%nat → dl_shuffle loader = false →
  batch_indices loader w
  = Ok ([], mkWorld (model w) (random_int64 (rng w)).2 (stdout w)).
Proof.
  intros Hlen Hsh. apply batch_indices_Ok.
  exists [], (random_int64 (rng w)).2. unfold sampler.
  by rewrite Hsh, Hlen.
Qed.

(** The optimizer is created first: when it refuses the learning rate, as
    [SGD] refuses a negative one, [fit] raises its error whatever the
    number of epochs.  Otherwise [fit] with no epoch returns the empty
    history and changes nothing, without a look at the loaders; and when
    an epoch raises after [k] epochs have been completed, [fit] raises:
    the [k] records, which a call for [k] epochs returns, are not returned
    by a call for more. *)
Theorem fit_returns_no_partial_history opt lr tl vl w :
  (∀ n e, opt_check opt lr = Raise e → fit n lr tl vl opt w = Raise e) ∧
  (∀ n, float_is_negative lr = true →
        fit n lr tl vl SGD w = Raise (ValueError "Invalid learning rate")) ∧
  (opt_check opt lr = Ok () → fit 0 lr tl vl opt w = Ok ([], w)) ∧
  ∀ k n s w1 e,
    opt_check opt lr = Ok () →
    fit_loop opt k (opt_new opt (parameters (model w)) lr) tl vl w
    = Ok (s, w1) →
    fit_epoch opt tl vl k s w1 = Raise e →
    (k < n)%nat →
    fit k lr tl vl opt w = Ok (s.1, w1) ∧
    length s.1 = k ∧
    fit n lr tl vl opt w = Raise e.
Proof.
  split; [|split; [|split]].
  - intros n e Hc. by rewrite fit_unfold, Hc.
  - intros n Hneg. rewrite fit_unfold. cbn [opt_check SGD SGD_with].
    unfold sgd_check. by rewrite Hneg.
  - intros Hc. by rewrite fit_unfold, Hc.
  - intros k n s w1 e Hc Hk He Hn. rewrite !fit_unfold, Hc, Hk.
    split; [done|]. split.
    + destruct s as [h o].
      by destruct (fit_loop_history _ _ _ _ _ _ _ _ _ Hk) as (Hlen & _).
    + by rewrite (fit_loop_raises _ _ _ _ _ _ _ _ _ _ Hk He Hn).
Qed.

(** With a validation loader over no sample, every call of [fit] with at
    least one epoch raises: the error of the optimizer when it refuses the
    learning rate, else the error of the training batches of the first
    epoch when they raise one, else the error of [torch.stack] on the
    empty list of validation results. *)
Theorem fit_needs_validation_batches opt epochs lr tl vl w :
  len (dl_dataset (dl vl)) = 0%nat → dl_shuffle (dl vl) = false →
  (0 < epochs)%nat →
  fit epochs lr tl vl opt w =
  match opt_check opt lr with
  | Raise e => Raise e
  | Ok _ =>
      match train_epoch opt tl (opt_new opt (parameters (model w)) lr) w with
      | Raise e => Raise e
      | Ok _ => Raise (RuntimeError "stack expects a non-empty TensorList")
      end
  end.
Proof.
  intros Hlen Hsh Hn. rewrite fit_unfold.
  destruct (opt_check opt lr) as [[]|e]; [|done].
  set (o := opt_new opt (parameters (model w)) lr).
  destruct (train_epoch opt tl o w) as [[o1 w1]|e] eqn:Ht.
  - rewrite (fit_loop_raises opt 0 epochs o tl vl w ([], o) w
               (RuntimeError "stack expects a non-empty TensorList"));
      [done|done| |done].
    unfold fit_epoch. rewrite (bind_step _ _ _ _ _ Ht).
    apply bind_Raise. unfold evaluate, for_batches.
    by rewrite (bind_step _ _ _ _ _
                  (bind_step _ _ _ _ _ (batch_indices_empty _ w1 Hlen Hsh))).
  - rewrite (fit_loop_raises opt 0 epochs o tl vl w ([], o) w e);
      [done|done| |done].
    unfold fit_epoch. by rewrite (bind_Raise _ _ _ _ Ht).
Qed.

(** *** Reading a key from every record *)

Lemma getitem_Some {V} key (d : gmap string V) v :
  d !! key = Some v → getitem key d = Ok v.
Proof. unfold getitem. by intros ->. Qed.

Lemma getitem_None {V} key (d : gmap string V) :
  d !! key = None → getitem key d = Raise (KeyError key).
Proof. unfold getitem. by intros ->. Qed.

Lemma mapM_getitem_Ok {V} key (l : list (gmap string V)) :
  Forall (λ d, is_Some (d !! key)) l →
  ∃ vs, mapM (getitem key) l = Ok vs ∧ length vs = length l ∧
        ∀ i d, l !! i = Some d → d !! key = vs !! i.
Proof.
  induction 1 as [|d l [v Hv] _ (vs & Hvs & Hlen & Hi)].
  - exists []. by split_and!.
  - exists (v :: vs). split_and!.
    + cbn [mapM]. rewrite (getitem_Some _ _ _ Hv). simpl. by rewrite Hvs.
    + simpl. by rewrite Hlen.
    + intros [|i] d'; simpl; [by intros [= <-]|apply Hi].
Qed.

Lemma mapM_getitem_KeyError {V} key (l : list (gmap string V)) d :
  d ∈ l → d !! key = None → mapM (getitem key) l = Raise (KeyError key).
Proof.
  intros Hd Hk. induction l as [|d' l IH]; [by apply elem_of_nil in Hd|].
  cbn [mapM].
  destruct (d' !! key) as [v|] eqn:Hv; [|by rewrite (getitem_None _ _ Hv)].
  apply elem_of_cons in Hd as [->|Hd]; [congruence|].
  rewrite (getitem_Some _ _ _ Hv). simpl. by rewrite IH.
Qed.

Lemma keys_lookup (record : gmap string Scalar) :
  keys record = {[ "val_loss"; "val_acc" ]} →
  is_Some (record !! "val_loss") ∧ is_Some (record !! "val_acc").
Proof.
  unfold keys. intros Hk.
  split; apply elem_of_dom; rewrite Hk; set_solver.
Qed.

(** [plot_losses] and [plot_accuracies] plot one number per record, the
    loss and the accuracy of the record, in the order of the history,
    when every record has the two keys, as the records of [fit] and of
    [evaluate] have; a record without the key makes them raise
    [KeyError]. *)
Theorem plots_follow_history history :
  (Forall (λ record, keys record = {[ "val_loss"; "val_acc" ]}) history →
   ∃ losses accuracies,
     plot_losses history = Ok losses ∧
     plot_accuracies history = Ok accuracies ∧
     length losses = length history ∧
     length accuracies = length history ∧
     ∀ i record, history !! i = Some record →
       record !! "val_loss" = losses !! i ∧
       record !! "val_acc" = accuracies !! i) ∧
  (∀ record, record ∈ history → record !! "val_loss" = None →
     plot_losses history = Raise (KeyError "val_loss")) ∧
  (∀ record, record ∈ history → record !! "val_acc" = None →
     plot_accuracies history = Raise (KeyError "val_acc")).
Proof.
  split; [|split].
  - intros Hkeys.
    destruct (mapM_getitem_Ok "val_loss" history) as (ls & Hls & Hll & Hli).
    { eapply Forall_impl; [exact Hkeys|]. by intros r [? _]%keys_lookup. }
    destruct (mapM_getitem_Ok "val_acc" history) as (accs & Has & Hal & Hai).
    { eapply Forall_impl; [exact Hkeys|]. by intros r [_ ?]%keys_lookup. }
    exists ls, accs. split_and!; try done.
    intros i record Hi. split; [by apply Hli|by apply Hai].
  - intros record. apply mapM_getitem_KeyError.
  - intros record. apply mapM_getitem_KeyError.
Qed.

(** [validation_epoch_end] raises [KeyError] when the result of a batch
    lacks the loss, or when all have a loss and one lacks the accuracy. *)
Theorem validation_epoch_end_KeyError outputs output :
  output ∈ outputs →
  (output !! "val_loss" = None →
   validation_epoch_end outputs = Raise (KeyError "val_loss")) ∧
  (Forall (λ o, is_Some (o !! "val_loss")) outputs →
   output !! "val_acc" = None →
   validation_epoch_end outputs = Raise (KeyError "val_acc")).
Proof.
  intros Hin. unfold validation_epoch_end. split.
  - intros Hk. by rewrite (mapM_getitem_KeyError _ _ _ Hin Hk).
  - intros Hall Hk.
    destruct (mapM_getitem_Ok "val_loss" outputs Hall) as (ls & -> & Hl & _).
    destruct ls as [|l ls].
    { destruct outputs; [by apply elem_of_nil in Hin|done]. }
    simpl. by rewrite (mapM_getitem_KeyError _ _ _ Hin Hk).
Qed.

(** *** [to_device] *)

Lemma to_device_data_tensors device data :
  tensors (to_device_data data device)
  = (λ t, tensor_to t device) <$> tensors data.
Proof.
  revert data. fix IH 1. intros [t|l|l]; cbn [to_device_data tensors].
  - done.
  - induction l as [|x l IHl]; [done|].
    cbn [fmap list_fmap concat]. rewrite fmap_app, IH. f_equal. exact IHl.
  - induction l as [|x l IHl]; [done|].
    cbn [fmap list_fmap concat]. rewrite fmap_app, IH. f_equal. exact IHl.
Qed.

Lemma to_device_data_lists device data :
  has_tuple (to_device_data data device) = false.
Proof.
  revert data. fix IH 1. intros [t|l|l]; cbn [to_device_data has_tuple].
  - done.
  - induction l as [|x l IHl]; [done|].
    cbn [fmap list_fmap existsb]. by rewrite IH, IHl.
  - induction l as [|x l IHl]; [done|].
    cbn [fmap list_fmap existsb]. by rewrite IH, IHl.
Qed.

(** [to_device] moves every tensor of its argument and keeps their order;
    what it returns holds lists only, also where it was given tuples; on a
    batch it is the list of the moved images and the moved labels. *)
Theorem to_device_moves_every_tensor device :
  (∀ data,
     tensors (to_device_data data device)
     = (λ t, tensor_to t device) <$> tensors data) ∧
  (∀ data, has_tuple (to_device_data data device) = false) ∧
  (∀ batch,
     to_device_data (batch_data batch) device
     = batch_data (to_device batch device)) ∧
  (∀ batch,
     to_device_data (DTuple [DTensor batch.1; DTensor batch.2]) device
     = batch_data (to_device batch device)).
Proof.
  split; [apply to_device_data_tensors|].
  split; [apply to_device_data_lists|]. done.
Qed.

(** *** The images of each class *)

Lemma py_index_Ok {A} (l : list A) (i : Z) :
  0 ≤ i < Z.of_nat (length l) →
  ∃ x, l !! Z.to_nat i = Some x ∧ py_index l i = Ok x.
Proof.
  intros Hi. unfold py_index.
  rewrite (decide_False (P := i < 0)), decide_True by lia.
  destruct (lookup_lt_is_Some_2 l (Z.to_nat i)) as [x Hx]; [lia|].
  exists x. by rewrite Hx.
Qed.

Lemma class_count_step_Ok classes counts sample :
  0 ≤ sample.2 < Z.of_nat (length classes) →
  ∃ label,
    classes !! Z.to_nat sample.2 = Some label ∧
    class_count_step classes counts sample
    = Ok (<[label := default 0 (counts !! label) + 1]> counts).
Proof.
  intros Hi. destruct (py_index_Ok classes _ Hi) as (label & Hl & Hp).
  exists label. split; [done|]. unfold class_count_step.
  rewrite Hp. simpl. destruct (counts !! label) as [n|] eqn:Hn.
  - rewrite (getitem_Some _ _ _ Hn). done.
  - rewrite (getitem_Some _ _ 0) by apply lookup_insert_eq.
    simpl. by rewrite insert_insert_eq.
Qed.

Lemma class_count_from_Ok classes samples counts :
  Forall (λ sample, 0 ≤ sample.2 < Z.of_nat (length classes)) samples →
  ∃ result,
    class_count_from classes samples counts = Ok result ∧
    ∀ label,
      result !! label =
      if decide (images_of classes samples label = 0%nat)
      then counts !! label
      else Some (default 0 (counts !! label)
                 + Z.of_nat (images_of classes samples label)).
Proof.
  intros Hall. revert counts.
  induction Hall as [|sample samples Hi _ IH]; intros counts.
  - exists counts. split; [done|]. intros label. by rewrite decide_True.
  - destruct (class_count_step_Ok classes counts sample Hi)
      as (label & Hl & Hstep).
    destruct (IH (<[label := default 0 (counts !! label) + 1]> counts))
      as (result & Hrun & Hres).
    exists result. split.
    { cbn [class_count_from]. rewrite Hstep. exact Hrun. }
    intros label'. rewrite Hres. unfold images_of.
    rewrite filter_cons. cbn beta. rewrite Hl.
    set (k := length (filter _ samples)).
    destruct (decide (label = label')) as [<-|Hne].
    + rewrite (decide_True (P := Some label = Some label)) by done.
      rewrite lookup_insert_eq. cbn [length default]. fold k.
      rewrite (decide_False (P := S k = 0%nat)) by done.
      case_decide as Hz; [rewrite Hz|]; f_equal; unfold id; lia.
    + rewrite (decide_False (P := Some label = Some label')) by congruence.
      by rewrite lookup_insert_ne.
Qed.

(** When every label is an index of [dataset.classes], the loop over the
    dataset returns, for every class that has an image, the number of its
    images, and no entry for a class without image.  A label beyond the
    classes makes it raise [IndexError]. *)
Theorem class_count_counts classes samples :
  (Forall (λ sample, 0 ≤ sample.2 < Z.of_nat (length classes)) samples →
   ∃ result,
     class_count classes samples = Ok result ∧
     ∀ label,
       result !! label =
       if decide (images_of classes samples label = 0%nat) then None
       else Some (Z.of_nat (images_of classes samples label))) ∧
  (∀ image index rest,
     Z.of_nat (length classes) ≤ index →
     class_count classes ((image, index) :: rest) = Raise IndexError).
Proof.
  split.
  - intros Hall.
    destruct (class_count_from_Ok classes samples ∅ Hall)
      as (result & Hrun & Hres).
    exists result. split; [exact Hrun|]. intros label.
    rewrite Hres, lookup_empty. case_decide; [done|]. simpl. f_equal; lia.
  - intros image index rest Hi. unfold class_count.
    cbn [class_count_from]. unfold class_count_step, py_index. cbn [snd].
    rewrite (decide_False (P := index < 0)), decide_True by lia.
    rewrite lookup_ge_None_2 by lia. done.
Qed.

(** *** The size of the network *)

Lemma count_parameters_module_to numel device m :
  (∀ t d, numel (tensor_to t d) = numel t) →
  count_parameters numel (module_to device m) = count_parameters numel m.
Proof.
  intros Hto. unfold count_parameters. f_equal.
  destruct m as [[] [] ? [] [] [] [] [] [] ? [] [] [] ?].
  cbn. by rewrite !Hto.
Qed.

(** Whatever the initial values, the network of the script has 81804
    parameter entries, when the layers create their tensors with the
    shapes they are asked for; moving the model to a device does not
    change the number. *)
Theorem count_parameters_of_the_network numel device g :
  (∀ shape fan_in g,
     numel (init_uniform shape fan_in g).1 = entries shape) →
  (∀ shape, numel (ones shape) = entries shape) →
  (∀ shape, numel (zeros shape) = entries shape) →
  (∀ t d, numel (tensor_to t d) = numel t) →
  count_parameters numel (CIFAR10Model_init g).1 = 81804 ∧
  count_parameters numel (module_to device (CIFAR10Model_init g).1) = 81804.
Proof.
  intros Hinit Hones Hzeros Hto.
  rewrite count_parameters_module_to by done.
  assert (count_parameters numel (CIFAR10Model_init g).1 = 81804) as H;
    [|by split].
  unfold CIFAR10Model_init, Conv2d_init, Linear_init, new_param.
  repeat match goal with
  | |- context [init_uniform ?s ?f ?g] =>
      let H := fresh "Hn" in
      pose proof (Hinit s f g) as H;
      destruct (init_uniform s f g) as [? ?]; cbn [fst] in H
  end.
  unfold count_parameters, BatchNorm2d_init. cbn.
  rewrite !Hones, !Hzeros.
  repeat match goal with H : numel _ = _ |- _ => rewrite H; clear H end.
  reflexivity.
Qed.

(** *** The two steps *)

(** [validation_step] is [training_step] followed by the accuracy: it
    runs the same forward pass from the same state, so with the same
    effect on the batch-norm buffers and the generator, takes the same
    loss, detached, and fails where [training_step] fails. *)
Theorem validation_step_extends_training_step batch w :
  (∀ loss w1,
     training_step batch w = Ok (loss, w1) →
     ∃ out,
       forward batch.1 w = Ok (out, w1) ∧
       F_cross_entropy out batch.2 = Ok loss ∧
       validation_step batch w =
       (acc ← lift (accuracy out batch.2);
        mret ({[ "val_loss" := detach loss; "val_acc" := acc ]}
                : gmap string Tensor)) w1) ∧
  (∀ e, training_step batch w = Raise e → validation_step batch w = Raise e).
Proof.
  destruct batch as [images labels]. unfold training_step, validation_step.
  cbn [fst snd]. split.
  - intros loss w1 H. apply bind_Ok in H as (out & w0 & Hf & H).
    apply bind_Ok in H as (loss' & w2 & [Hl <-]%lift_Ok & [-> <-]%ret_Ok).
    exists out. split; [done|]. split; [done|].
    rewrite (bind_step _ _ _ _ _ Hf).
    erewrite bind_step; [done|]. by apply lift_Ok.
  - intros e H.
    destruct (forward images w) as [[out w0]|e'] eqn:Hf.
    + rewrite (bind_step _ _ _ _ _ Hf) in H. rewrite (bind_step _ _ _ _ _ Hf).
      cbv beta in H |- *.
      destruct (F_cross_entropy out labels) as [loss|e''] eqn:Hl.
      * discriminate H.
      * injection H as <-. reflexivity.
    + rewrite (bind_Raise _ _ _ _ Hf) in H. injection H as <-.
      by rewrite (bind_Raise _ _ _ _ Hf).
Qed.

End Theory.

(** * The shapes the network accepts *)

Section ShapeTheory.
Local Existing Instance Shapes.backend.

Lemma conv2d_same n c co h w :
  (1 ≤ h)%nat → (1 ≤ w)%nat →
  Shapes.conv2d [n; c; h; w] [co; c; 3; 3]%nat [co] 1 = Ok [n; co; h; w].
Proof.
  intros Hh Hw. unfold Shapes.conv2d. case_decide as Hd.
  - do 4 f_equal; [lia|]. f_equal. lia.
  - exfalso. apply Hd. lia.
Qed.

Lemma max_pool2d_half n c h w :
  (2 ≤ h)%nat → (2 ≤ w)%nat →
  Shapes.max_pool2d [n; c; h; w] 2 2 = Ok [n; c; h / 2; w / 2]%nat.
Proof.
  intros Hh Hw. unfold Shapes.max_pool2d. case_decide as Hd.
  - assert (∀ k, 2 ≤ k → (k - 2) / 2 + 1 = k / 2)%nat as Hhalf.
    { intros k Hk. replace k with (k - 2 + 1 * 2)%nat at 2 by lia.
      by rewrite Nat.div_add. }
    by rewrite !Hhalf.
  - exfalso. apply Hd. lia.
Qed.

Lemma batch_norm_train_same n c h w :
  (1 ≤ n)%nat → (2 ≤ h)%nat → (1 ≤ w)%nat →
  Shapes.batch_norm_train [n; c; h; w] [c] [c] () = Ok [n; c; h; w].
Proof.
  intros Hn Hh Hw. unfold Shapes.batch_norm_train, Shapes.batch_norm.
  case_decide as Hd; [|exfalso; apply Hd; nia].
  case_decide as Hc; [done|]. exfalso. by apply Hc.
Qed.


Lemma bn_forward_shape bn n c h w :
  data (bn_weight bn) = [c] → data (bn_bias bn) = [c] →
  (1 ≤ n)%nat → (2 ≤ h)%nat → (1 ≤ w)%nat →
  BatchNorm2d_forward bn true [n; c; h; w] =
  Ok ([n; c; h; w],
      mkBatchNorm2d (bn_features bn) (bn_weight bn) (bn_bias bn)
        (running_mean bn) (running_var bn) (num_batches_tracked bn + 1)).
Proof.
  intros Hw Hb Hn Hh Hw'. unfold BatchNorm2d_forward. rewrite Hw, Hb.
  cbn [batch_norm_batch_stats Shapes.backend].
  by rewrite batch_norm_train_same.
Qed.

Lemma as_created_inv W :
  as_created W →
  ∃ b1 b2 b3 g o,
    W = mkWorld
          (mkModel (conv1 Shapes.model0) (conv2 Shapes.model0) (2, 2)%nat
             (conv3 Shapes.model0) (conv4 Shapes.model0)
             (conv5 Shapes.model0) (conv6 Shapes.model0)
             (linear1 Shapes.model0) (linear2 Shapes.model0) ()
             (mkBatchNorm2d 9 (mkParam [9%nat] None) (mkParam [9%nat] None)
                b1.1.1 b1.1.2 b1.2)
             (mkBatchNorm2d 18 (mkParam [18%nat] None) (mkParam [18%nat] None)
                b2.1.1 b2.1.2 b2.2)
             (mkBatchNorm2d 36 (mkParam [36%nat] None) (mkParam [36%nat] None)
                b3.1.1 b3.1.2 b3.2)
             true) g o.
Proof.
  destruct W as [[c1 c2 mp c3 c4 c5 c6 l1 l2 d [f1 w1 bb1 m1 v1 t1]
                    [f2 w2 bb2 m2 v2 t2] [f3 w3 bb3 m3 v3 t3] tr] g o].
  unfold as_created, learnable, bn_learnable. simpl. intros [=]. subst.
  by exists (m1, v1, t1), (m2, v2, t2), (m3, v3, t3), g, o.
Qed.

(** one step of a stage on a known shape *)
Ltac conv_step ci co :=
  erewrite bind_step;
  [| apply call_conv_Ok; apply (conv2d_same _ ci co); lia];
  rewrite ret_bind.
Ltac bn_step :=
  erewrite bind_step;
  [| apply call_bn_Ok; apply bn_forward_shape; [reflexivity..|lia|lia|lia]].
Ltac pool_step :=
  erewrite call_maxpool1_Ok; [reflexivity | apply max_pool2d_half; lia].

Lemma stage1_shape W n h w :
  as_created W → (1 ≤ n)%nat → (2 ≤ h)%nat → (2 ≤ w)%nat →
  fst <$> stage conv1 conv2 attr_bn1 [n; 3; h; w]%nat W
  = Ok [n; 9; h / 2; w / 2]%nat.
Proof.
  intros HW Hn Hh Hw.
  destruct (as_created_inv _ HW) as (b1 & b2 & b3 & g & o & ->).
  unfold stage, relu.
  conv_step 3%nat 9%nat. bn_step. conv_step 9%nat 9%nat. bn_step.
  pool_step.
Qed.

Lemma stage2_shape W n h w :
  as_created W → (1 ≤ n)%nat → (2 ≤ h)%nat → (2 ≤ w)%nat →
  fst <$> stage conv3 conv4 attr_bn2 [n; 9; h; w]%nat W
  = Ok [n; 18; h / 2; w / 2]%nat.
Proof.
  intros HW Hn Hh Hw.
  destruct (as_created_inv _ HW) as (b1 & b2 & b3 & g & o & ->).
  unfold stage, relu.
  conv_step 9%nat 18%nat. bn_step. conv_step 18%nat 18%nat. bn_step.
  pool_step.
Qed.

Lemma stage3_shape W n h w :
  as_created W → (1 ≤ n)%nat → (2 ≤ h)%nat → (2 ≤ w)%nat →
  fst <$> stage conv5 conv6 attr_bn3 [n; 18; h; w]%nat W
  = Ok [n; 36; h / 2; w / 2]%nat.
Proof.
  intros HW Hn Hh Hw.
  destruct (as_created_inv _ HW) as (b1 & b2 & b3 & g & o & ->).
  unfold stage, relu.
  conv_step 18%nat 36%nat. bn_step. conv_step 36%nat 36%nat. bn_step.
  pool_step.
Qed.

Lemma stage_as_created conv_a conv_b bn out W out' W' :
  stage conv_a conv_b bn out W = Ok (out', W') → as_created W → as_created W'.
Proof.
  intros Hrun HW. unfold as_created.
  destruct (runs_stage _ _ _ _ _ _ _ Hrun) as (-> & _). exact HW.
Qed.

Lemma claimed_stage_shape conv_a conv_b a x W y :
  as_created W →
  (∀ b m, conv_b (setattr_bn a b m) = conv_b m) →
  fst <$> stage conv_a conv_b a x W = Ok y →
  fst <$> claimed_stage true (conv_a (model W)) (conv_b (model W))
            (maxpool1 (model W)) (getattr_bn a (model W)) x = Ok y.
Proof.
  intros HW Hb. rewrite stage_claimed by done.
  assert (training (model W) = true) as ->.
  { by destruct (as_created_inv _ HW) as (b1 & b2 & b3 & g & o & ->). }
  by destruct (claimed_stage _ _ _ _ _ x) as [[y' b]|e].
Qed.

(** the classifier wants 576 = 36 * 4 * 4 features per image *)
Lemma linear1_shape n c h w :
  Linear_forward (linear1 Shapes.model0) (torch_flatten [n; c; h; w] 1) =
  if decide (c * (h * w) = 576)%nat then Ok [n; 100%nat]
  else Shapes.shape_error.
Proof.
  change (Shapes.linear [n; (c * (h * (w * 1)))%nat] [100; 576]%nat [100%nat] =
          if decide (c * (h * w) = 576)%nat then Ok [n; 100%nat]
          else Shapes.shape_error).
  unfold Shapes.linear. rewrite Nat.mul_1_r.
  case_decide as H1; case_decide as H2; try done.
  - exfalso. apply H2. by destruct H1.
  - exfalso. apply H1. by split.
Qed.

Lemma classifier_shape W n c h w :
  as_created W →
  fst <$> classifier [n; c; h; w] W =
  if decide (c * (h * w) = 576)%nat then Ok [n; 10%nat]
  else Shapes.shape_error.
Proof.
  intros HW.
  destruct (as_created_inv _ HW) as (b1 & b2 & b3 & g & o & ->).
  match goal with |- context [classifier _ ?W] => set (W0 := W) end.
  assert (linear1 (model W0) = linear1 Shapes.model0) as H1 by reflexivity.
  assert (linear2 (model W0) = linear2 Shapes.model0) as H2 by reflexivity.
  assert (training (model W0) = true) as Htr by reflexivity.
  clearbody W0. clear HW.
  pose proof (linear1_shape n c h w) as Hl.
  unfold classifier, flatten, relu. rewrite ret_bind.
  case_decide as Hc.
  - erewrite bind_step; [|apply call_linear_Ok; rewrite H1; exact Hl].
    rewrite ret_bind.
    erewrite bind_step; [|by apply call_dropout1_train].
    erewrite call_linear_Ok; [reflexivity|]. cbn [model]. by rewrite H2.
  - erewrite bind_Raise; [reflexivity|].
    unfold call_linear, get_model, mbind, StateRes_bind, lift.
    by rewrite H1, Hl.
Qed.

(** On a batch of 32 x 32 images with 3 channels the network returns 10
    scores per image. *)
Lemma forward_shape W n :
  as_created W → (1 ≤ n)%nat →
  fst <$> forward [n; 3; 32; 32]%nat W = Ok [n; 10%nat].
Proof.
  intros HW Hn. rewrite forward_staged. unfold staged_forward.
  pose proof (stage1_shape W n 32 32 HW Hn ltac:(lia) ltac:(lia)) as H1.
  destruct (stage _ _ _ _ W) as [[s1 W1]|e] eqn:Hs1; [|discriminate H1].
  injection H1 as ->. rewrite (bind_step _ _ _ _ _ Hs1).
  apply stage_as_created in Hs1; [|done].
  pose proof (stage2_shape W1 n 16 16 Hs1 Hn ltac:(lia) ltac:(lia)) as H2.
  change (32 / 2)%nat with 16%nat.
  destruct (stage _ _ _ _ W1) as [[s2 W2]|e] eqn:Hs2; [|discriminate H2].
  injection H2 as ->. rewrite (bind_step _ _ _ _ _ Hs2).
  apply stage_as_created in Hs2; [|done].
  pose proof (stage3_shape W2 n 8 8 Hs2 Hn ltac:(lia) ltac:(lia)) as H3.
  change (16 / 2)%nat with 8%nat.
  destruct (stage _ _ _ _ W2) as [[s3 W3]|e] eqn:Hs3; [|discriminate H3].
  injection H3 as ->. rewrite (bind_step _ _ _ _ _ Hs3).
  apply stage_as_created in Hs3; [|done].
  change (8 / 2)%nat with 4%nat.
  by rewrite (classifier_shape W3 n 36 4 4 Hs3).
Qed.


(** The network takes the images whose height and width, halved three
    times, leave 16 positions, as 32 x 32 images do and 28 x 28 images do
    not: for every other size of at least 8 x 8 the first linear layer
    refuses the flattened features. *)
Theorem forward_accepts_16_positions W n h w :
  as_created W → (1 ≤ n)%nat → (8 ≤ h)%nat → (8 ≤ w)%nat →
  fst <$> forward [n; 3; h; w]%nat W =
  if decide ((h / 2 / 2 / 2) * (w / 2 / 2 / 2) = 16)%nat
  then Ok [n; 10%nat] else Shapes.shape_error.
Proof.
  intros HW Hn Hh Hw. rewrite forward_staged. unfold staged_forward.
  assert (4 ≤ h / 2 ∧ 4 ≤ w / 2)%nat as [Hh2 Hw2]
    by (split; apply Nat.div_le_lower_bound; lia).
  assert (2 ≤ h / 2 / 2 ∧ 2 ≤ w / 2 / 2)%nat as [Hh4 Hw4]
    by (split; apply Nat.div_le_lower_bound; lia).
  assert (2 ≤ h ∧ 2 ≤ w)%nat as [Hh1 Hw1] by lia.
  pose proof (stage1_shape W n h w HW Hn Hh1 Hw1) as H1.
  destruct (stage _ _ _ _ W) as [[s1 W1]|e] eqn:Hs1; [|discriminate H1].
  injection H1 as ->. rewrite (bind_step _ _ _ _ _ Hs1).
  apply stage_as_created in Hs1; [|done].
  assert (2 ≤ h / 2 ∧ 2 ≤ w / 2)%nat as [Hh3 Hw3] by lia.
  pose proof (stage2_shape W1 n _ _ Hs1 Hn Hh3 Hw3) as H2.
  destruct (stage _ _ _ _ W1) as [[s2 W2]|e] eqn:Hs2; [|discriminate H2].
  injection H2 as ->. rewrite (bind_step _ _ _ _ _ Hs2).
  apply stage_as_created in Hs2; [|done].
  pose proof (stage3_shape W2 n _ _ Hs2 Hn Hh4 Hw4) as H3.
  destruct (stage _ _ _ _ W2) as [[s3 W3]|e] eqn:Hs3; [|discriminate H3].
  injection H3 as ->. rewrite (bind_step _ _ _ _ _ Hs3).
  apply stage_as_created in Hs3; [|done].
  rewrite (classifier_shape W3 n 36 _ _ Hs3).
  repeat case_decide; try done; exfalso;
    repeat match goal with
    | H : context [(Nat.divmod ?x 1 0 1).1] |- _ =>
        change ((Nat.divmod x 1 0 1).1) with (x / 2)%nat in H
    end;
    set (p := (h / 2 / 2 / 2 * (w / 2 / 2 / 2))%nat) in *; lia.
Qed.


(** ** The script on CIFAR images *)

Lemma fetch_cifar loader batch :
  cifar_dataset (dl_dataset loader) →
  batch ≠ [] → Forall (λ i, i < len (dl_dataset loader))%nat batch →
  ∃ b, fetch loader batch = Ok b ∧ cifar_batch (length batch) b.
Proof.
  intros Hd Hne Hall. unfold fetch.
  assert (∃ ys, mapM (dataset_getitem (dl_dataset loader)) batch = Ok ys ∧
                length ys = length batch ∧
                Forall cifar_sample ys) as (ys & Hys & Hl & Hs).
  { clear Hne. induction Hall as [|i batch Hi _ (ys & Hys & Hl & Hs)].
    - exists []. by split_and!.
    - destruct (Hd i Hi) as (sample & Hsample & Hok).
      exists (sample :: ys). split_and!.
      + cbn [mapM]. rewrite Hsample. simpl.
        destruct (mapM _ batch) as [k|e]; [|discriminate Hys].
        by injection Hys as ->.
      + simpl. f_equal. exact Hl.
      + by constructor. }
  destruct (mapM _ batch) as [ys'|e] eqn:Hm; [|discriminate Hys].
  injection Hys as ->. eexists. split; [reflexivity|].
  unfold cifar_batch. cbn. split_and!.
  - destruct Hs as [|y ys [Hy _] _]; [by destruct batch|].
    simpl in *. by rewrite Hy, Hl.
  - by rewrite length_fmap.
  - apply Forall_fmap. eapply Forall_impl; [exact Hs|].
    intros [image label] [_ Hlabel]. simpl in *.
    unfold Shapes.label_code. rewrite !decide_False by lia. lia.
Qed.

Lemma as_created_frame k W W' : frame k W W' → as_created W → as_created W'.
Proof. unfold as_created. by intros (-> & _). Qed.

Lemma cross_entropy_cifar n (labels : list nat) :
  length labels = n → Forall (λ code, 2 ≤ code < 12)%nat labels →
  Shapes.cross_entropy [n; 10%nat] labels = Ok [].
Proof.
  intros Hl Hall. unfold Shapes.cross_entropy.
  rewrite decide_True by done. rewrite decide_True; [done|].
  eapply Forall_impl; [exact Hall|]. intros code Hc. simpl in *. lia.
Qed.

Lemma training_step_cifar W n batch :
  as_created W → (1 ≤ n)%nat → cifar_batch n batch →
  ∃ W', training_step batch W = Ok ([], W') ∧ as_created W'.
Proof.
  intros HW Hn. destruct batch as [images labels].
  intros (Hi & Hl & Hall). simpl in Hi, Hl, Hall. subst images.
  pose proof (forward_shape W n HW Hn) as Hf.
  destruct (forward _ W) as [[out W']|e] eqn:Hrun; [|discriminate Hf].
  injection Hf as ->. exists W'. split.
  - unfold training_step. rewrite (bind_step _ _ _ _ _ Hrun).
    cbn [F_cross_entropy Shapes.backend].
    by rewrite (cross_entropy_cifar n labels Hl Hall).
  - eapply as_created_frame; [by eapply runs_forward|done].
Qed.

Lemma validation_step_cifar W n batch :
  as_created W → (1 ≤ n)%nat → cifar_batch n batch →
  ∃ r W', validation_step batch W = Ok (r, W') ∧ as_created W'.
Proof.
  intros HW Hn. destruct batch as [images labels].
  intros (Hi & Hl & Hall). simpl in Hi, Hl, Hall. subst images.
  pose proof (forward_shape W n HW Hn) as Hf.
  destruct (forward _ W) as [[out W']|e] eqn:Hrun; [|discriminate Hf].
  injection Hf as ->. eexists _, W'. split.
  - unfold validation_step. rewrite (bind_step _ _ _ _ _ Hrun).
    cbn [F_cross_entropy Shapes.backend].
    rewrite (cross_entropy_cifar n labels Hl Hall).
    unfold accuracy, truediv. cbn.
    rewrite (decide_False (P := Z.of_nat n = 0)) by lia. reflexivity.
  - eapply as_created_frame; [by eapply runs_forward|done].
Qed.

Lemma train_batch_cifar W n batch o :
  as_created W → (1 ≤ n)%nat → cifar_batch n batch →
  ∃ o' W', train_batch SGD batch o W = Ok (o', W') ∧ as_created W'.
Proof.
  intros HW Hn Hb.
  destruct (training_step_cifar W n batch HW Hn Hb) as (W1 & Hstep & HW1).
  unfold train_batch. rewrite (bind_step _ _ _ _ _ Hstep).
  destruct (as_created_inv _ HW1) as (b1 & b2 & b3 & g & out & ->).
  eexists _, _. split; [reflexivity|]. reflexivity.
Qed.

Lemma batch_indices_shapes loader W :
  ∃ W0,
    batch_indices loader W
    = Ok (chunks (Z.to_nat (dl_batch_size loader))
            (seq 0 (len (dl_dataset loader))), W0) ∧
    model W0 = model W ∧ stdout W0 = stdout W.
Proof.
  unfold batch_indices, with_rng, sampler.
  destruct (dl_shuffle loader); by eexists.
Qed.

Lemma chunks_valid bs n :
  (0 < bs)%nat →
  Forall (λ batch, batch ≠ [] ∧ Forall (λ i, i < n)%nat batch)
    (chunks bs (seq 0 n)).
Proof.
  intros Hbs. apply Forall_forall. intros batch Hb. split.
  - pose proof (chunks_upto_bounds (length (seq 0 n)) bs (seq 0 n) Hbs) as H.
    rewrite Forall_forall in H. specialize (H _ Hb).
    intros ->. simpl in H. lia.
  - apply Forall_forall. intros i Hi.
    assert (i ∈ concat (chunks bs (seq 0 n))) as Hc.
    { apply list_elem_of_In, in_concat. exists batch.
      by rewrite <- !list_elem_of_In. }
    unfold chunks in Hc. rewrite chunks_upto_concat in Hc by (done || lia).
    apply elem_of_seq in Hc. lia.
Qed.

Lemma next_batch_cifar loader batch W :
  cifar_loader loader →
  batch ≠ [] → Forall (λ i, i < len (dl_dataset (dl loader)))%nat batch →
  ∃ b, next_batch loader batch W = Ok (b, W) ∧ cifar_batch (length batch) b.
Proof.
  intros [_ Hd] Hne Hall. unfold next_batch.
  destruct (fetch_cifar _ _ Hd Hne Hall) as ([images labels] & Hf & Hb).
  exists (images, labels). split; [|done].
  erewrite bind_step; [|apply lift_Ok; split; [exact Hf|done]].
  reflexivity.
Qed.

Lemma train_batches_cifar loader batches o W :
  cifar_loader loader →
  Forall (λ batch, batch ≠ [] ∧
            Forall (λ i, i < len (dl_dataset (dl loader)))%nat batch)
    batches →
  as_created W →
  ∃ o' W',
    for_each batches o
      (λ indices optimizer,
         batch ← next_batch loader indices;
         train_batch SGD batch optimizer) W = Ok (o', W') ∧
    as_created W'.
Proof.
  intros Hl Hall. revert o W.
  induction Hall as [|batch batches [Hne Hb] _ IH]; intros o W HW.
  - by exists o, W.
  - assert (1 ≤ length batch)%nat as Hn by (destruct batch; simpl; [done|lia]).
    destruct (next_batch_cifar _ _ W Hl Hne Hb) as (b & Hnext & Hcb).
    destruct (train_batch_cifar W (length batch) b o HW Hn Hcb)
      as (o1 & W1 & Hstep & HW1).
    destruct (IH o1 W1 HW1) as (o' & W' & Hrest & HW').
    exists o', W'. split; [|done].
    cbn [for_each]. erewrite bind_step; [exact Hrest|].
    by rewrite (bind_step _ _ _ _ _ Hnext).
Qed.

Lemma train_epoch_cifar loader o W :
  cifar_loader loader → as_created W →
  ∃ o' W', train_epoch SGD loader o W = Ok (o', W') ∧ as_created W'.
Proof.
  intros Hl HW. unfold train_epoch.
  destruct (batch_indices_shapes (dl loader) W) as (W0 & Hb & Hm & _).
  rewrite (bind_step _ _ _ _ _ Hb).
  apply train_batches_cifar; [done| |].
  - apply chunks_valid. destruct Hl. lia.
  - unfold as_created. by rewrite Hm.
Qed.

Lemma validate_batches_cifar loader batches W :
  cifar_loader loader →
  Forall (λ batch, batch ≠ [] ∧
            Forall (λ i, i < len (dl_dataset (dl loader)))%nat batch)
    batches →
  as_created W →
  ∃ las W',
    mapM (λ indices, batch ← next_batch loader indices; validation_step batch)
      batches W = Ok (step_result <$> las, W') ∧
    length las = length batches ∧ as_created W'.
Proof.
  intros Hl Hall. revert W.
  induction Hall as [|batch batches [Hne Hb] _ IH]; intros W HW.
  - by exists [], W.
  - assert (1 ≤ length batch)%nat as Hn by (destruct batch; simpl; [done|lia]).
    destruct (next_batch_cifar _ _ W Hl Hne Hb) as (b & Hnext & Hcb).
    destruct (validation_step_cifar W (length batch) b HW Hn Hcb)
      as (r & W1 & Hstep & HW1).
    destruct (validation_step_result _ _ _ _ Hstep) as [la ->].
    destruct (IH W1 HW1) as (las & W' & Hrest & Hlen & HW').
    exists (la :: las), W'. split; [|split; [cbn [length]; congruence|done]].
    apply mapM_cons_Ok. exists (step_result la), W1, (step_result <$> las).
    split; [|done].
    by rewrite (bind_step _ _ _ _ _ Hnext).
Qed.

Lemma evaluate_cifar loader W :
  cifar_loader loader → (0 < len (dl_dataset (dl loader)))%nat →
  as_created W →
  ∃ r W', evaluate loader W = Ok (r, W') ∧ as_created W' ∧
          stdout W' = stdout W.
Proof.
  intros Hl Hlen HW.
  destruct (batch_indices_shapes (dl loader) W) as (W0 & Hb & Hm & Hout).
  destruct (validate_batches_cifar loader
              (chunks (Z.to_nat (dl_batch_size (dl loader)))
                 (seq 0 (len (dl_dataset (dl loader))))) W0 Hl)
    as (las & W' & Hrun & Hlas & HW').
  { apply chunks_valid. destruct Hl. lia. }
  { unfold as_created. by rewrite Hm. }
  destruct las as [|first rest].
  { exfalso. simpl in Hlas. symmetry in Hlas.
    apply length_zero_iff_nil in Hlas. unfold chunks in Hlas.
    destruct (seq 0 _) eqn:Hs; [|done].
    apply (f_equal length) in Hs. rewrite length_seq in Hs. simpl in Hs. lia. }
  assert (evaluate loader W
          = Ok ({[ "val_loss" := mean_of first.1 (rest.*1);
                   "val_acc" := mean_of first.2 (rest.*2) ]}, W')) as Hev.
  { apply evaluate_Ok. eexists. split.
    - apply for_batches_Ok. eauto.
    - apply validation_epoch_end_cons. }
  eexists _, W'. split; [exact Hev|]. split; [done|].
  by apply silent_evaluate in Hev.
Qed.

Lemma fit_cifar epochs lr tl vl W :
  cifar_loader tl → cifar_loader vl →
  (0 < len (dl_dataset (dl vl)))%nat → as_created W →
  ∃ history W', fit epochs lr tl vl SGD W = Ok (history, W') ∧
                as_created W'.
Proof.
  intros Htl Hvl Hlen HW.
  assert (∃ s W', fit_loop SGD epochs (opt_new SGD (parameters (model W)) lr)
                    tl vl W = Ok (s, W') ∧ as_created W')
    as ([h o] & W' & Hrun & HW').
  { induction epochs as [|n (s & W1 & Hn & HW1)].
    - by eexists _, W.
    - destruct s as [h o].
      destruct (train_epoch_cifar tl o W1 Htl HW1) as (o1 & W2 & Ht & HW2).
      destruct (evaluate_cifar vl W2 Hvl Hlen HW2)
        as (r & W3 & He & HW3 & _).
      destruct (evaluate_result _ _ _ _ He) as (l & a & ->).
      eexists (_, o1), _. split.
      + rewrite fit_loop_S, (bind_step _ _ _ _ _ Hn). unfold fit_epoch.
        rewrite (bind_step _ _ _ _ _ Ht), (bind_step _ _ _ _ _ He).
        unfold epoch_end, getitem.
        rewrite lookup_insert_eq, lookup_insert_ne, lookup_singleton_eq
          by done.
        reflexivity.
      + exact HW3. }
  exists h, W'. split; [|done]. apply fit_Ok. split; [done|]. by exists o.
Qed.

Lemma train_and_test_cifar loaders W :
  cifar_loader (train_loader loaders) → cifar_loader (val_loader loaders) →
  cifar_loader (test_loader loaders) →
  (0 < len (dl_dataset (dl (val_loader loaders))))%nat →
  (0 < len (dl_dataset (dl (test_loader loaders))))%nat →
  as_created W →
  ∃ result W', train_and_test loaders W = Ok (result, W').
Proof.
  intros Htl Hvl Hts Hv Ht HW. unfold train_and_test.
  destruct (evaluate_cifar _ W Hvl Hv HW) as (r & W0 & H0 & HW0 & _).
  rewrite (bind_step _ _ _ _ _ H0).
  destruct (fit_cifar 10 (float_lit 1 (-1)) _ _ W0 Htl Hvl Hv HW0)
    as (h1 & W1 & H1 & HW1).
  rewrite (bind_step _ _ _ _ _ H1).
  destruct (fit_cifar 10 (float_lit 1 (-2)) _ _ W1 Htl Hvl Hv HW1)
    as (h2 & W2 & H2 & HW2).
  rewrite (bind_step _ _ _ _ _ H2).
  destruct (fit_cifar 10 (float_lit 1 (-3)) _ _ W2 Htl Hvl Hv HW2)
    as (h3 & W3 & H3 & HW3).
  rewrite (bind_step _ _ _ _ _ H3).
  destruct (fit_cifar 10 (float_lit 1 (-4)) _ _ W3 Htl Hvl Hv HW3)
    as (h4 & W4 & H4 & HW4).
  rewrite (bind_step _ _ _ _ _ H4).
  destruct (evaluate_cifar _ W4 Hts Ht HW4) as (r5 & W5 & H5 & HW5 & _).
  rewrite (bind_step _ _ _ _ _ H5).
  destruct (evaluate_cifar _ W5 Hts Ht HW5) as (r6 & W6 & H6 & HW6 & _).
  rewrite (bind_step _ _ _ _ _ H6).
  by eexists _, _.
Qed.

Lemma cifar_dataset_CIFAR10 (samples : list (Tensor * Z)) :
  Forall cifar_sample samples → cifar_dataset (CIFAR10 samples).
Proof.
  intros Hall i Hi. simpl in *.
  destruct (lookup_lt_is_Some_2 samples i Hi) as [sample Hs].
  rewrite Hs. exists sample. split; [done|].
  rewrite Forall_forall in Hall.
  exact (Hall _ (list_elem_of_lookup_2 _ _ _ Hs)).
Qed.

Lemma cifar_dataset_Subset (samples : list (Tensor * Z)) indices :
  Forall cifar_sample samples →
  Forall (λ i, i < length samples)%nat indices →
  cifar_dataset (Subset (CIFAR10 samples) indices).
Proof.
  intros Hall Hin i Hi. cbn [len] in Hi. cbn [dataset_getitem].
  destruct (lookup_lt_is_Some_2 indices i Hi) as [j Hj]. rewrite Hj.
  rewrite Forall_forall in Hin.
  apply (cifar_dataset_CIFAR10 samples Hall).
  apply Hin. by eapply list_elem_of_lookup_2.
Qed.

Lemma main_cifar (samples test_samples : list (Tensor * Z)) :
  5000 < Z.of_nat (length samples) → test_samples ≠ [] →
  Forall cifar_sample samples → Forall cifar_sample test_samples →
  ∃ result W',
    main (CIFAR10 samples) (CIFAR10 test_samples) () () = Ok (result, W').
Proof.
  intros Hsize Hne Hs Ht.
  destruct (prepare_data_Ok samples (CIFAR10 test_samples) () ())
    as ([] & Hprep); [done|done|].
  unfold main. rewrite Hprep. cbn [mbind Res_bind].
  destruct (CIFAR10Model_init _) as [m g] eqn:Hinit.
  pose proof (f_equal fst Hinit) as Hm.
  change (Shapes.model0 = m) in Hm. subst m. clear Hinit.
  change ((randperm (length samples) (manual_seed 43)).1)
    with (seq 0 (length samples)).
  match goal with |- context [train_and_test ?l ?W] =>
    destruct (train_and_test_cifar l W) as (result & W' & Hrun)
  end.
  - split; [done|]. cbn [dl dl_dataset train_loader].
    apply cifar_dataset_Subset; [done|].
    apply Forall_take, Forall_forall. intros i Hi%elem_of_seq. lia.
  - split; [done|]. cbn [dl dl_dataset val_loader].
    apply cifar_dataset_Subset; [done|].
    apply Forall_drop, Forall_forall. intros i Hi%elem_of_seq. lia.
  - split; [done|]. by apply cifar_dataset_CIFAR10.
  - cbn [dl dl_dataset val_loader len].
    rewrite length_drop, length_seq. unfold train_size, val_size.
    cbn [len]. lia.
  - cbn [dl dl_dataset test_loader len]. destruct test_samples; [done|].
    simpl. lia.
  - reflexivity.
  - exists result, W'. exact Hrun.
Qed.

Lemma cross_entropy_label_out_of_range n (labels : list Z) label :
  10 ≤ label → length labels = n →
  Shapes.cross_entropy [S n; 10%nat]
    (Shapes.label_code <$> label :: labels) = Raise IndexError.
Proof.
  intros Hlabel Hlen. unfold Shapes.cross_entropy.
  rewrite decide_True
    by (cbn [length fmap list_fmap]; rewrite length_fmap; lia).
  rewrite decide_False; [done|].
  intros Hall. apply Forall_inv in Hall. revert Hall.
  unfold Shapes.label_code. rewrite !decide_False by lia. lia.
Qed.

(** The calls of the script from the first evaluation on, lines 274 to
    300, on loaders of CIFAR samples: images of 3 x 32 x 32 with labels
    from 0 to 9, at least one to validate and one to test on.  With the
    network as the script creates it every call returns: no shape and no
    label is refused, no key is missing, no stack is empty and no division
    is by zero, and the history has its 41 records.  The labels matter: on
    a batch of such images with a label of 10 or more, [training_step]
    raises the IndexError of [F.cross_entropy]. *)
Theorem script_runs_on_cifar_images loaders W :
  cifar_loader (train_loader loaders) → cifar_loader (val_loader loaders) →
  cifar_loader (test_loader loaders) →
  (0 < len (dl_dataset (dl (val_loader loaders))))%nat →
  (0 < len (dl_dataset (dl (test_loader loaders))))%nat →
  as_created W →
  (∃ result W', train_and_test loaders W = Ok (result, W') ∧
                length result.1 = 41%nat) ∧
  ∀ n (labels : list Z) label,
    10 ≤ label → length labels = n →
    training_step
      ([S n; 3; 32; 32]%nat, Shapes.label_code <$> label :: labels) W
    = Raise IndexError.
Proof.
  intros Htl Hvl Hts Hv Ht HW. split.
  - destruct (train_and_test_cifar loaders W Htl Hvl Hts Hv Ht HW)
      as ([history final] & W' & Hrun).
    exists (history, final), W'. split; [done|].
    by pose proof (train_and_test_Ok _ _ _ _ _ Hrun) as (Hlen & _).
  - intros n labels label Hlabel Hlen.
    pose proof (forward_shape W (S n) HW ltac:(lia)) as Hf.
    destruct (forward _ W) as [[out W']|e] eqn:Hrun; [|discriminate Hf].
    injection Hf as ->.
    unfold training_step. rewrite (bind_step _ _ _ _ _ Hrun).
    apply bind_Raise. unfold lift.
    cbn [F_cross_entropy Shapes.backend].
    by rewrite (cross_entropy_label_out_of_range n labels label Hlabel Hlen).
Qed.

End ShapeTheory.

(** C5, as amended.  The forward pass is three stages followed by the
    classifier: as a function of the model, the generator and the input it
    is [claimed_forward].  A stage is two convolutions, each followed by
    the activation and by the one batch-norm module of the stage, and a
    pooling that halves height and width: both calls of a stage go to the
    same module, which in training mode counts two batches per forward
    pass.  The classifier flattens, applies the first linear layer, the
    activation, the dropout and the second linear layer.  Dropout follows
    the mode of the model, not the phase of the run: it is the identity
    and draws no random number in evaluation mode, and in training mode,
    which the forward pass does not leave, it draws its mask in every
    forward pass, those of [validation_step] included.  On the network as
    created the stages map [n, 3, h, w] to [n, 9, h/2, w/2], then to 18 and
    to 36 channels, each time halving height and width, and a batch of
    32 x 32 images comes out as 10 scores per image. *)
Theorem forward_is_three_stages_and_classifier :
  (∀ (B : Backend) xb w,
     forward xb w =
     match claimed_forward (model w) (rng w) xb with
     | Ok (out, m, g) => Ok (out, mkWorld m g (stdout w))
     | Raise e => Raise e
     end) ∧
  (∀ (B : Backend) xb w out w',
     forward xb w = Ok (out, w') →
     learnable (model w') = learnable (model w) ∧
     ∀ a, tracked a w' = tracked a w + (if training (model w) then 2 else 0)) ∧
  (∀ (B : Backend) out w,
     training (model w) = false → call_dropout1 out w = Ok (out, w)) ∧
  (∀ (B : Backend) out w,
     training (model w) = true →
     call_dropout1 out w =
     Ok ((dropout2d_sample out (dropout1 (model w)) (rng w)).1,
         mkWorld (model w)
           (dropout2d_sample out (dropout1 (model w)) (rng w)).2
           (stdout w))) ∧
  (∀ (B : Backend) batch w r w',
     training (model w) = true → validation_step batch w = Ok (r, w') →
     training (model w') = true ∧
     ∃ x, rng w' =
          (dropout2d_sample (F_relu x) (dropout1 (model w)) (rng w)).2) ∧
  (∀ W n h w,
     as_created W → (1 ≤ n)%nat → (2 ≤ h)%nat → (2 ≤ w)%nat →
     fst <$> claimed_stage (B := Shapes.backend) true (conv1 (model W))
               (conv2 (model W)) (maxpool1 (model W)) (bn1 (model W))
               [n; 3; h; w]%nat = Ok [n; 9; h / 2; w / 2]%nat ∧
     fst <$> claimed_stage (B := Shapes.backend) true (conv3 (model W))
               (conv4 (model W)) (maxpool1 (model W)) (bn2 (model W))
               [n; 9; h; w]%nat = Ok [n; 18; h / 2; w / 2]%nat ∧
     fst <$> claimed_stage (B := Shapes.backend) true (conv5 (model W))
               (conv6 (model W)) (maxpool1 (model W)) (bn3 (model W))
               [n; 18; h; w]%nat = Ok [n; 36; h / 2; w / 2]%nat) ∧
  (∀ W n,
     as_created W → (1 ≤ n)%nat →
     fst <$> forward (B := Shapes.backend) [n; 3; 32; 32]%nat W
     = Ok [n; 10%nat]).
Proof.
  split; [intros; apply forward_claimed|].
  split; [intros B xb w out w'; apply forward_counts|].
  split; [intros; by apply call_dropout1_eval|].
  split; [intros; by apply call_dropout1_train|].
  split.
  { intros B batch w r w' Htr Hrun. split.
    - destruct (runs_validation_step _ _ _ _ Hrun) as (Hl & _).
      by rewrite (learnable_training _ _ Hl).
    - by eapply validation_step_draws. }
  split.
  - intros W n h w HW Hn Hh Hw.
    split; [|split].
    + apply (claimed_stage_shape conv1 conv2 attr_bn1); [done..|].
      by apply stage1_shape.
    + apply (claimed_stage_shape conv3 conv4 attr_bn2); [done..|].
      by apply stage2_shape.
    + apply (claimed_stage_shape conv5 conv6 attr_bn3); [done..|].
      by apply stage3_shape.
  - intros W n HW Hn. by apply forward_shape.
Qed.

Lemma forward_is_three_stages_and_classifier_witness :
  as_created (mkWorld (B := Shapes.backend) Shapes.model0 () []) ∧
  fst <$> forward (B := Shapes.backend) [128; 3; 32; 32]%nat
            (mkWorld (B := Shapes.backend) Shapes.model0 () [])
  = Ok [128; 10]%nat.
Proof.
  split; [reflexivity|].
  apply (proj2 (proj2 (proj2 (proj2 (proj2 (proj2
           forward_is_three_stages_and_classifier)))))).
  - reflexivity.
  - lia.
Defined.

(** * Closed examples in the instance [Toy] *)

Section Examples.
Local Existing Instance Toy.backend.

(** C3, the claim as stated fails: after one evaluation of the four samples
    in two batches the model is not the model it was: each batch-norm
    module has counted four batches, and the running mean of the first
    has moved from 0 to 2417/5000. *)
Lemma evaluate_mutates_model :
  ∃ result w',
    evaluate Example.val_loader Example.world = Ok (result, w') ∧
    tracked attr_bn1 Example.world = 0 ∧
    tracked attr_bn1 w' = 4 ∧
    running_mean (bn1 (model Example.world)) = [Toy.const 0] ∧
    running_mean (bn1 (model w')) = [Toy.const (2417 # 5000)] ∧
    model w' ≠ model Example.world.
Proof.
  assert ((λ r, (tracked attr_bn1 r.2, running_mean (bn1 (model r.2)))) <$>
          evaluate Example.val_loader Example.world
          = Ok (4, [Toy.const (2417 # 5000)])) as H
    by (vm_compute; reflexivity).
  destruct (evaluate _ _) as [[result w']|e]; [|discriminate H].
  injection H as H Hm. exists result, w'.
  split; [reflexivity|]. split; [vm_compute; reflexivity|].
  split; [exact H|]. split; [vm_compute; reflexivity|].
  split; [exact Hm|].
  intros Heq. unfold tracked in H. rewrite Heq in H.
  vm_compute in H. discriminate H.
Qed.

Lemma evaluate_changes_buffers_only_witness :
  ∃ result w',
    evaluate Example.val_loader Example.world = Ok (result, w') ∧
    parameters (model w') = parameters (model Example.world) ∧
    (∀ a, tracked a w' = tracked a Example.world + 4) ∧
    ∀ a, ∃ inputs,
      length inputs = 4%nat ∧
      getattr_bn a (model w')
      = foldl bn_observe (getattr_bn a (model Example.world)) inputs.
Proof.
  assert ((λ _, ()) <$> evaluate Example.val_loader Example.world = Ok ())
    as H by (vm_compute; reflexivity).
  assert (training (model Example.world) = true) as Htr
    by (vm_compute; reflexivity).
  assert ((λ r, length r.1) <$>
          batch_indices (dl Example.val_loader) Example.world = Ok 2%nat)
    as Hn by (vm_compute; reflexivity).
  destruct (evaluate _ _) as [[result w']|e] eqn:Hrun; [|discriminate H].
  exists result, w'. split; [reflexivity|].
  destruct (evaluate_changes_buffers_only _ _ _ _ Hrun)
    as (Hp & _ & _ & _ & batches & w0 & Hb & Ht & Hobs).
  split; [exact Hp|].
  rewrite Hb in Hn. injection Hn as Hn.
  rewrite Htr, Hn in Ht. rewrite Hn in Hobs.
  split; [exact Ht|exact (Hobs Htr)].
Defined.

(** C2, the claim as stated fails: two evaluations in succession, with no
    training step in between, return different losses. *)
Lemma evaluate_twice_differs :
  ∃ r1 w1 r2 w2,
    evaluate Example.val_loader Example.world = Ok (r1, w1) ∧
    evaluate Example.val_loader w1 = Ok (r2, w2) ∧
    r1 !! "val_loss" = Some (417 # 256)%Q ∧
    r2 !! "val_loss" = Some (201 # 128)%Q ∧
    r1 ≠ r2.
Proof.
  pose (both := (r1 ← evaluate Example.val_loader;
                 r2 ← evaluate Example.val_loader;
                 mret (r1, r2)) : M (gmap string Q * gmap string Q)).
  assert ((λ r, (r.1.1 !! "val_loss", r.1.2 !! "val_loss")) <$>
          both Example.world
          = Ok (Some (417 # 256)%Q, Some (201 # 128)%Q)) as H
    by (vm_compute; reflexivity).
  destruct (both Example.world) as [[[r1 r2] w2]|e] eqn:Hrun;
    [|discriminate H].
  subst both.
  apply bind_Ok in Hrun as (r1' & w1 & H1 & Hrun).
  apply bind_Ok in Hrun as (r2' & w2' & H2 & Hrun).
  apply ret_Ok in Hrun as [[= <- <-] <-].
  injection H as Hl1 Hl2.
  exists r1', w1, r2', w2'.
  split; [exact H1|]. split; [exact H2|].
  split; [exact Hl1|]. split; [exact Hl2|].
  intros Heq. rewrite Heq, Hl2 in Hl1. discriminate Hl1.
Qed.

Lemma evaluate_again_same_generator_witness :
  ∃ result w1,
    evaluate Example.val_loader Example.world = Ok (result, w1) ∧
    ∃ w2, evaluate Example.val_loader
            (mkWorld (model w1) (rng Example.world) (stdout w1))
          = Ok (result, w2).
Proof.
  assert ((λ _, ()) <$> evaluate Example.val_loader Example.world = Ok ())
    as H by (vm_compute; reflexivity).
  destruct (evaluate _ _) as [[result w1]|e] eqn:Hrun; [|discriminate H].
  exists result, w1. split; [reflexivity|].
  exact (evaluate_again_same_generator _ _ _ _ Hrun).
Defined.


(** C1, the claim as stated fails: with momentum the optimizer of the
    first phase ends with a buffer for each of the 22 parameters, and the
    second phase starts without any. *)
Lemma next_phase_forgets_momentum :
  ∃ start1 end1 start2 end2 w2,
    (r1 ← fit_states Example.SGD_momentum 1 (1 # 10)%Q
            Example.pair_train Example.pair_val;
     r2 ← fit_states Example.SGD_momentum 1 (1 # 100)%Q
            Example.pair_train Example.pair_val;
     mret (r1, r2)) Example.world
    = Ok (((start1, end1), (start2, end2)), w2) ∧
    size (sgd_buffers end1) = 22%nat ∧
    size (sgd_buffers start2) = 0%nat ∧
    start2 ≠ end1.
Proof.
  pose (both :=
    (r1 ← fit_states Example.SGD_momentum 1 (1 # 10)%Q
            Example.pair_train Example.pair_val;
     r2 ← fit_states Example.SGD_momentum 1 (1 # 100)%Q
            Example.pair_train Example.pair_val;
     mret (r1, r2)) : M ((SGD_state * SGD_state) * (SGD_state * SGD_state))).
  assert ((λ r, (size (sgd_buffers r.1.1.2), size (sgd_buffers r.1.2.1)))
          <$> both Example.world = Ok (22%nat, 0%nat)) as H
    by (vm_compute; reflexivity).
  fold both.
  destruct (both Example.world)
    as [[[[start1 end1] [start2 end2]] w2]|e]; [|discriminate H].
  injection H as H1 H2.
  exists start1, end1, start2, end2, w2.
  split; [reflexivity|]. split; [exact H1|]. split; [exact H2|].
  intros Heq. rewrite Heq, H1 in H2. discriminate H2.
Qed.

Lemma next_phase_starts_fresh_witness :
  ∃ start1 end1 start2 end2 w2,
    (r1 ← fit_states Example.SGD_momentum 1 (1 # 10)%Q
            Example.pair_train Example.pair_val;
     r2 ← fit_states Example.SGD_momentum 1 (1 # 100)%Q
            Example.pair_train Example.pair_val;
     mret (r1, r2)) Example.world
    = Ok (((start1, end1), (start2, end2)), w2) ∧
    ∃ w1 h1 h2,
      fit 1 (1 # 10)%Q Example.pair_train Example.pair_val
        Example.SGD_momentum Example.world = Ok (h1, w1) ∧
      fit 1 (1 # 100)%Q Example.pair_train Example.pair_val
        Example.SGD_momentum w1 = Ok (h2, w2) ∧
      start2 = opt_new Example.SGD_momentum (parameters (model w1))
                 (1 # 100)%Q ∧
      (∀ momentum,
         opt_new (SGD_with momentum) (parameters (model w1)) (1 # 100)%Q =
         mkSGD (1 # 100)%Q momentum ∅).
Proof.
  pose (both :=
    (r1 ← fit_states Example.SGD_momentum 1 (1 # 10)%Q
            Example.pair_train Example.pair_val;
     r2 ← fit_states Example.SGD_momentum 1 (1 # 100)%Q
            Example.pair_train Example.pair_val;
     mret (r1, r2)) : M ((SGD_state * SGD_state) * (SGD_state * SGD_state))).
  assert ((λ _, ()) <$> both Example.world = Ok ()) as H
    by (vm_compute; reflexivity).
  fold both.
  destruct (both Example.world)
    as [[[[start1 end1] [start2 end2]] w2]|e] eqn:Hrun; [|discriminate H].
  exists start1, end1, start2, end2, w2. split; [reflexivity|].
  exact (next_phase_starts_fresh Example.SGD_momentum _ _ _ _ _ _ _
           _ _ _ _ _ Hrun).
Defined.

(** C5, the claim as stated fails: the dropout is not active only during
    training.  The model is in training mode from its creation on, and a
    validation step draws a dropout mask from the generator, here one
    that zeroes every sample; with the model in evaluation mode the same
    step draws nothing.  So [evaluate] leaves the generator beyond the
    base seed of its iterator, which is all it draws in evaluation
    mode. *)
Lemma dropout_active_in_validation :
  training (model Example.world) = true ∧
  (∃ r w', validation_step Example.batch02 Example.world = Ok (r, w') ∧
           rng Example.world = 7 ∧ rng w' = 642666333) ∧
  (∃ y w', call_dropout1 [Toy.const 1; Toy.const 1; Toy.const 1]
             Example.world = Ok (y, w') ∧
           y = [Toy.const 0; Toy.const 0; Toy.const 0]) ∧
  (∃ r w', validation_step Example.batch02 Example.eval_world = Ok (r, w') ∧
           rng w' = 7) ∧
  (∃ r w', evaluate Example.val_loader Example.world = Ok (r, w') ∧
           (random_int64 (rng Example.world)).2 = 1282168116 ∧
           rng w' = 2131988640) ∧
  (∃ r w', evaluate Example.val_loader Example.eval_world = Ok (r, w') ∧
           rng w' = 1282168116).
Proof.
  split; [reflexivity|]. split; [|split; [|split; [|split]]]; cycle 3.
  { assert ((λ r, rng r.2) <$>
            evaluate Example.val_loader Example.world = Ok 2131988640)
      as H by (vm_compute; reflexivity).
    destruct (evaluate _ _) as [[r w']|e]; [|discriminate H].
    injection H as H. exists r, w'. by split_and!. }
  { assert ((λ r, rng r.2) <$>
            evaluate Example.val_loader Example.eval_world = Ok 1282168116)
      as H by (vm_compute; reflexivity).
    destruct (evaluate _ _) as [[r w']|e]; [|discriminate H].
    injection H as H. by exists r, w'. }
  - assert ((λ r, rng r.2) <$>
            validation_step Example.batch02 Example.world = Ok 642666333)
      as H by (vm_compute; reflexivity).
    destruct (validation_step _ _) as [[r w']|e]; [|discriminate H].
    injection H as H. exists r, w'. by split_and!.
  - assert (fst <$> call_dropout1 [Toy.const 1; Toy.const 1; Toy.const 1]
                      Example.world
            = Ok [Toy.const 0; Toy.const 0; Toy.const 0]) as H
      by (vm_compute; reflexivity).
    destruct (call_dropout1 _ _) as [[y w']|e]; [|discriminate H].
    injection H as H. by exists y, w'.
  - assert ((λ r, rng r.2) <$>
            validation_step Example.batch02 Example.eval_world = Ok 7)
      as H by (vm_compute; reflexivity).
    destruct (validation_step _ _) as [[r w']|e]; [|discriminate H].
    injection H as H. by exists r, w'.
Qed.

(** C7, the claim as stated fails: the loss of the batch is 1 and the
    learning rate is 1/10, and the update leaves every parameter as it
    was. *)
Lemma zero_gradient_step_changes_nothing :
  ∃ loss w1 st' w',
    training_step Example.batch02 Example.stationary = Ok (loss, w1) ∧
    item loss = 1%Q ∧
    train_batch SGD Example.batch02 (mkSGD (1 # 10)%Q None ∅)
      Example.stationary = Ok (st', w') ∧
    data <$> parameters (model w') =
    data <$> parameters (model Example.stationary).
Proof.
  assert (item <$> (fst <$> training_step Example.batch02 Example.stationary)
          = Ok 1%Q) as Hloss by (vm_compute; reflexivity).
  assert ((λ r, data <$> parameters (model r.2)) <$>
          train_batch SGD Example.batch02 (mkSGD (1 # 10)%Q None ∅)
            Example.stationary
          = Ok (data <$> parameters (model Example.stationary))) as Hstep
    by (vm_compute; reflexivity).
  destruct (training_step _ _) as [[loss w1]|e]; [|discriminate Hloss].
  destruct (train_batch _ _ _ _) as [[st' w']|e]; [|discriminate Hstep].
  injection Hloss as Hloss.
  exists loss, w1, st', w'.
  split; [reflexivity|]. split; [exact Hloss|]. split; [reflexivity|].
  exact (f_equal (λ r, match r with Ok l => l | Raise _ => [] end) Hstep).
Qed.

Lemma sgd_update_visible_witness :
  ∃ st' w',
    train_batch SGD Example.batch02 (mkSGD (1 # 10)%Q None ∅)
      Example.world = Ok (st', w') ∧
    ∃ loss w1,
      training_step Example.batch02 Example.world = Ok (loss, w1) ∧
      parameters (model w') =
      imap (λ i p,
              clear_grad (spec_descend (1 # 10)%Q (spec_gradients loss i p)))
        (parameters (model Example.world)) ∧
      (data <$> parameters (model w')
       = data <$> parameters (model Example.world) ↔
       ∀ i p g,
         parameters (model Example.world) !! i = Some p →
         grad (spec_gradients loss i p) = Some g →
         add_alpha (data p) g (float_neg (1 # 10)%Q) = data p).
Proof.
  assert ((λ _, ()) <$>
          train_batch SGD Example.batch02 (mkSGD (1 # 10)%Q None ∅)
            Example.world = Ok ()) as H by (vm_compute; reflexivity).
  destruct (train_batch _ _ _ _) as [[st' w']|e] eqn:Hrun; [|discriminate H].
  exists st', w'. split; [reflexivity|].
  exact (sgd_update_visible _ _ _ _ _ Hrun).
Defined.

(** C9, the claim as stated fails: the record of an epoch holds the
    validation loss and the validation accuracy and no epoch index. *)
Lemma history_record_has_no_epoch :
  ∃ record w',
    fit 1 (1 # 10)%Q Example.pair_train Example.pair_val SGD Example.world
    = Ok ([record], w') ∧
    record !! "epoch" = None ∧
    is_Some (record !! "val_loss") ∧ is_Some (record !! "val_acc").
Proof.
  assert ((λ r : list (gmap string Q) * World,
             fmap (M := list)
               (λ record : gmap string Q,
                  (record !! "epoch",
                   (λ _, ()) <$> (record !! "val_loss"),
                   (λ _, ()) <$> (record !! "val_acc"))) r.1)
          <$> fit 1 (1 # 10)%Q Example.pair_train Example.pair_val SGD
                Example.world
          = Ok [(None, Some (), Some ())]) as H by (vm_compute; reflexivity).
  destruct (fit _ _ _ _ _ _) as [[history w']|e]; [|discriminate H].
  injection H as H.
  destruct history as [|record [|record' history]]; try discriminate H.
  injection H as He Hl Ha.
  exists record, w'. split; [reflexivity|]. split; [exact He|].
  split.
  - apply fmap_Some in Hl as (x & Hx & _). exists x. exact Hx.
  - apply fmap_Some in Ha as (x & Hx & _). exists x. exact Hx.
Qed.

Lemma fit_history_witness :
  ∃ history w',
    fit 1 (1 # 10)%Q Example.pair_train Example.pair_val SGD Example.world
    = Ok (history, w') ∧
    length history = 1%nat ∧
    Forall (λ record, keys record = {[ "val_loss"; "val_acc" ]}) history ∧
    (∀ k, (k ≤ 1)%nat →
       ∃ wk, fit k (1 # 10)%Q Example.pair_train Example.pair_val SGD
               Example.world = Ok (take k history, wk)) ∧
    ∃ lines,
      stdout w' = stdout Example.world ++ lines ∧ length lines = 1%nat ∧
      ∀ epoch record, history !! epoch = Some record →
        ∃ line, lines !! epoch = Some line ∧ printed_as epoch record line.
Proof.
  assert ((λ _, ()) <$>
          fit 1 (1 # 10)%Q Example.pair_train Example.pair_val SGD
            Example.world = Ok ()) as H by (vm_compute; reflexivity).
  destruct (fit _ _ _ _ _ _) as [[history w']|e] eqn:Hrun; [|discriminate H].
  exists history, w'. split; [reflexivity|].
  exact (fit_history _ _ _ _ _ _ _ _ Hrun).
Defined.

Lemma evaluate_aggregates_witness :
  ∃ w0,
    batch_indices (dl Example.val_loader) Example.world
    = Ok ([[0; 1]; [2; 3]]%nat, w0) ∧
    ([[0; 1]; [2; 3]]%nat ≠ [] → ∀ outputs w',
     for_batches Example.val_loader validation_step Example.world
     = Ok (outputs, w') →
     ∃ first rest,
       outputs = step_result <$> first :: rest ∧
       length outputs = length [[0; 1]; [2; 3]]%nat ∧
       evaluate Example.val_loader Example.world =
       Ok ({[ "val_loss" := mean_of first.1 (rest.*1);
              "val_acc" := mean_of first.2 (rest.*2) ]}, w')) ∧
    ∃ result w', evaluate Example.val_loader Example.world = Ok (result, w').
Proof.
  assert (fst <$> batch_indices (dl Example.val_loader) Example.world
          = Ok [[0; 1]; [2; 3]]%nat) as H by (vm_compute; reflexivity).
  assert ((λ _, ()) <$> evaluate Example.val_loader Example.world = Ok ())
    as He by (vm_compute; reflexivity).
  destruct (batch_indices _ _) as [[batches w0]|e] eqn:Hb; [|discriminate H].
  injection H as ->. exists w0. split; [reflexivity|].
  split; [exact (proj1 (proj2 (evaluate_aggregates _ _ _ _ Hb)))|].
  destruct (evaluate _ _) as [[result w']|e]; [|discriminate He].
  by exists result, w'.
Defined.

(** An evaluation over no batch at all raises. *)
Lemma evaluate_empty_raises :
  evaluate Example.empty_loader Example.world =
  Raise (RuntimeError "stack expects a non-empty TensorList").
Proof. reflexivity. Qed.

(** The permutation the instance draws is a rotation of the identity. *)
Lemma Toy_randperm_Permutation n (g : Z) : (randperm n g).1 ≡ₚ seq 0 n.
Proof.
  cbn [randperm Toy.backend fst]. unfold Toy.rotate.
  rewrite Permutation_app_comm. by rewrite take_drop.
Qed.

Lemma split_sizes_and_disjoint_witness :
  ∃ l g' train_indices val_indices,
    prepare_data (CIFAR10 Example.corpus) Example.dataset () 7
    = Ok (l, g') ∧
    dl_dataset (dl (train_loader l))
    = Subset (CIFAR10 Example.corpus) train_indices ∧
    dl_dataset (dl (val_loader l))
    = Subset (CIFAR10 Example.corpus) val_indices ∧
    train_indices ++ val_indices
    = (randperm (length Example.corpus) (manual_seed 43)).1 ∧
    Z.of_nat (len (dl_dataset (dl (train_loader l)))) = 45000 ∧
    Z.of_nat (len (dl_dataset (dl (val_loader l)))) = 5000 ∧
    train_size (CIFAR10 Example.corpus) + val_size
    = Z.of_nat (len (CIFAR10 Example.corpus)) ∧
    (∀ i, i ∈ train_indices → i ∉ val_indices) ∧
    (∀ i, (i < length Example.corpus)%nat →
          i ∈ train_indices ∨ i ∈ val_indices).
Proof.
  apply (split_sizes_and_disjoint Example.corpus Example.dataset () 7).
  - vm_compute. reflexivity.
  - exact Toy_randperm_Permutation.
Defined.

(** C8, the claim as stated fails: the loaders of the validation and of
    the test set take batches of 256, not of 128. *)
Lemma validation_loader_takes_256 :
  ∃ l g',
    prepare_data (CIFAR10 Example.corpus) Example.dataset () 7
    = Ok (l, g') ∧
    dl_batch_size (dl (train_loader l)) = 128 ∧
    dl_batch_size (dl (val_loader l)) = 256 ∧
    dl_batch_size (dl (test_loader l)) = 256 ∧
    dl_batch_size (dl (val_loader l)) ≠ 128.
Proof.
  assert ((λ r, (dl_batch_size (dl (train_loader r.1)),
                 dl_batch_size (dl (val_loader r.1)),
                 dl_batch_size (dl (test_loader r.1)))) <$>
          prepare_data (CIFAR10 Example.corpus) Example.dataset () 7
          = Ok (128, 256, 256)) as H by (vm_compute; reflexivity).
  destruct (prepare_data _ _ _ _) as [[l g']|e]; [|discriminate H].
  injection H as Ht Hv Hs. exists l, g'.
  split; [reflexivity|]. split; [exact Ht|]. split; [exact Hv|].
  split; [exact Hs|]. intros H. rewrite H in Hv. discriminate Hv.
Qed.

Lemma script_hyperparameters_witness :
  ∃ l g',
    prepare_data (CIFAR10 Example.corpus) Example.dataset () 7
    = Ok (l, g') ∧
    dl_batch_size (dl (train_loader l)) = 128 ∧
    dl_shuffle (dl (train_loader l)) = true ∧
    dl_batch_size (dl (val_loader l)) = 256 ∧
    dl_shuffle (dl (val_loader l)) = false ∧
    dl_batch_size (dl (test_loader l)) = 256 ∧
    dl_shuffle (dl (test_loader l)) = false ∧
    dl_dataset (dl (test_loader l)) = Example.dataset ∧
    random_split (CIFAR10 Example.corpus)
      [Z.of_nat (len (CIFAR10 Example.corpus)) - 5000; 5000]
      (manual_seed 43)
    = Ok ([dl_dataset (dl (train_loader l));
           dl_dataset (dl (val_loader l))],
          (randperm (len (CIFAR10 Example.corpus)) (manual_seed 43)).2).
Proof.
  assert ((λ _, ()) <$>
          prepare_data (CIFAR10 Example.corpus) Example.dataset () 7
          = Ok ()) as H by (vm_compute; reflexivity).
  destruct (prepare_data _ _ _ _) as [[l g']|e] eqn:Hrun; [|discriminate H].
  exists l, g'. split; [reflexivity|].
  exact (proj1 script_hyperparameters _ _ _ _ _ _ Hrun).
Defined.


(** ** More runs in the instance [Toy] *)

Lemma Toy_randperm_length n (g : Z) : length (randperm n g).1 = n.
Proof.
  rewrite (Permutation_length (Toy_randperm_Permutation n g)).
  apply length_seq.
Qed.

Lemma DeviceDataLoader_len_counts_batches_witness :
  ∃ outputs w',
    for_batches Example.val_loader validation_step Example.world
    = Ok (outputs, w') ∧
    Z.of_nat (length outputs) = DeviceDataLoader_len Example.val_loader.
Proof.
  assert ((λ _, ()) <$>
          for_batches Example.val_loader validation_step Example.world
          = Ok ()) as H by (vm_compute; reflexivity).
  destruct (for_batches _ _ _) as [[outputs w']|e] eqn:Hrun; [|discriminate H].
  exists outputs, w'. split; [reflexivity|].
  apply (DeviceDataLoader_len_counts_batches Example.val_loader
           validation_step Example.world outputs w').
  - reflexivity.
  - exact Toy_randperm_length.
  - exact Hrun.
Defined.

Lemma iteration_visits_every_sample_once_witness :
  (∃ batches w',
     batch_indices (dl Example.train_loader) Example.world
     = Ok (batches, w') ∧
     batches = [[2; 3]; [0; 1]]%nat ∧
     concat batches ≡ₚ seq 0 (len (dl_dataset (dl Example.train_loader))) ∧
     model w' = model Example.world ∧
     rng w' = (random_int64 (random_int64 (rng Example.world)).2).2) ∧
  (∃ batches w',
     batch_indices (dl Example.val_loader) Example.world
     = Ok (batches, w') ∧
     concat batches = seq 0 (len (dl_dataset (dl Example.val_loader))) ∧
     model w' = model Example.world ∧ stdout w' = stdout Example.world ∧
     rng w' = (random_int64 (rng Example.world)).2 ∧
     rng w' ≠ rng Example.world).
Proof.
  split.
  - assert (fst <$> batch_indices (dl Example.train_loader) Example.world
            = Ok [[2; 3]; [0; 1]]%nat) as H by (vm_compute; reflexivity).
    destruct (batch_indices _ _) as [[batches w']|e] eqn:Hrun;
      [|discriminate H].
    injection H as H. exists batches, w'. split; [reflexivity|].
    split; [exact H|].
    destruct (iteration_visits_every_sample_once (dl Example.train_loader)
                Example.world batches w')
      as (Hp & _ & Hm & _ & _ & Hg).
    + reflexivity.
    + exact Toy_randperm_Permutation.
    + exact Hrun.
    + split; [exact Hp|]. split; [exact Hm|]. apply Hg. reflexivity.
  - assert ((λ r, rng r.2) <$>
            batch_indices (dl Example.val_loader) Example.world
            = Ok 1282168116) as H by (vm_compute; reflexivity).
    destruct (batch_indices _ _) as [[batches w']|e] eqn:Hrun;
      [|discriminate H].
    injection H as H. exists batches, w'. split; [reflexivity|].
    destruct (iteration_visits_every_sample_once (dl Example.val_loader)
                Example.world batches w')
      as (_ & _ & Hm & Ho & Hs & _).
    + reflexivity.
    + exact Toy_randperm_Permutation.
    + exact Hrun.
    + destruct (Hs eq_refl) as [Hc Hg].
      split; [exact Hc|]. split; [exact Hm|]. split; [exact Ho|].
      split; [exact Hg|]. rewrite H. discriminate.
Defined.

Lemma evaluate_in_eval_mode_is_repeatable_witness :
  ∃ result w',
    evaluate Example.val_loader Example.eval_world = Ok (result, w') ∧
    model w' = model Example.eval_world ∧
    stdout w' = stdout Example.eval_world ∧
    rng w' = (random_int64 (rng Example.eval_world)).2 ∧
    (∃ w'', evaluate Example.val_loader w' = Ok (result, w'')) ∧
    ∀ g, evaluate Example.val_loader (with_generator g Example.eval_world)
         = Ok (result,
               with_generator (random_int64 g).2 Example.eval_world).
Proof.
  assert ((λ _, ()) <$> evaluate Example.val_loader Example.eval_world
          = Ok ()) as H by (vm_compute; reflexivity).
  destruct (evaluate _ _) as [[result w']|e] eqn:Hrun; [|discriminate H].
  exists result, w'. split; [reflexivity|].
  apply (evaluate_in_eval_mode_is_repeatable Example.val_loader
           Example.eval_world result w').
  - reflexivity.
  - reflexivity.
  - exact Hrun.
Defined.

Lemma fit_returns_no_partial_history_witness :
  fit 3 (-1 # 10)%Q Example.pair_train Example.pair_val SGD Example.world
  = Raise (ValueError "Invalid learning rate") ∧
  ∃ s w1,
    fit_loop Example.breaking 1 0%nat Example.pair_train Example.pair_val
      Example.world = Ok (s, w1) ∧
    fit_epoch Example.breaking Example.pair_train Example.pair_val 1 s w1
    = Raise (RuntimeError "shape mismatch") ∧
    fit 1 (1 # 10)%Q Example.pair_train Example.pair_val Example.breaking
      Example.world = Ok (s.1, w1) ∧
    length s.1 = 1%nat ∧
    fit 3 (1 # 10)%Q Example.pair_train Example.pair_val Example.breaking
      Example.world = Raise (RuntimeError "shape mismatch").
Proof.
  destruct (fit_returns_no_partial_history (B := Toy.backend)
              Example.breaking (1 # 10)%Q Example.pair_train Example.pair_val
              Example.world) as (_ & _ & _ & Hpartial).
  destruct (fit_returns_no_partial_history (B := Toy.backend)
              SGD (-1 # 10)%Q Example.pair_train Example.pair_val
              Example.world) as (_ & Hneg & _).
  split; [exact (Hneg 3%nat eq_refl)|].
  pose (both := (s ← fit_loop Example.breaking 1 0%nat Example.pair_train
                      Example.pair_val;
                 fit_epoch Example.breaking Example.pair_train
                   Example.pair_val 1 s)
                : M (list (gmap string Q) * nat)).
  assert ((λ _, ()) <$>
          fit_loop Example.breaking 1 0%nat Example.pair_train
            Example.pair_val Example.world = Ok ()) as H1
    by (vm_compute; reflexivity).
  assert (match both Example.world with
          | Raise e => Some e
          | Ok _ => None
          end = Some (RuntimeError "shape mismatch")) as H2
    by (vm_compute; reflexivity).
  destruct (fit_loop Example.breaking 1 0%nat _ _ Example.world)
    as [[s w1]|e] eqn:Hk; [|discriminate H1].
  assert (fit_epoch Example.breaking Example.pair_train Example.pair_val 1 s
            w1 = Raise (RuntimeError "shape mismatch")) as He.
  { subst both. rewrite (bind_step _ _ _ _ _ Hk) in H2.
    destruct (fit_epoch _ _ _ _ _ _) as [r|e]; [discriminate H2|].
    by injection H2 as ->. }
  exists s, w1. split; [reflexivity|]. split; [exact He|].
  exact (Hpartial 1%nat 3%nat s w1 _ eq_refl Hk He ltac:(lia)).
Defined.

Lemma fit_needs_validation_batches_witness :
  fit 1 (1 # 10)%Q Example.pair_train Example.empty_loader SGD Example.world
  = match opt_check SGD (1 # 10)%Q with
    | Raise e => Raise e
    | Ok _ =>
        match train_epoch SGD Example.pair_train
                (opt_new SGD (parameters (model Example.world)) (1 # 10)%Q)
                Example.world with
        | Raise e => Raise e
        | Ok _ => Raise (RuntimeError "stack expects a non-empty TensorList")
        end
    end.
Proof.
  apply (fit_needs_validation_batches (B := Toy.backend) SGD 1 (1 # 10)%Q
           Example.pair_train Example.empty_loader Example.world).
  - reflexivity.
  - reflexivity.
  - lia.
Defined.

Lemma validation_epoch_end_KeyError_witness :
  (∅ : gmap string Tensor) ∈ [(∅ : gmap string Tensor)] ∧
  ((∅ : gmap string Tensor) !! "val_loss" = None →
   validation_epoch_end [∅] = Raise (KeyError "val_loss")) ∧
  (Forall (λ o : gmap string Tensor, is_Some (o !! "val_loss")) [∅] →
   (∅ : gmap string Tensor) !! "val_acc" = None →
   validation_epoch_end [∅] = Raise (KeyError "val_acc")).
Proof.
  assert ((∅ : gmap string Tensor) ∈ [(∅ : gmap string Tensor)]) as H
    by apply list_elem_of_here.
  split; [exact H|].
  exact (validation_epoch_end_KeyError [∅] ∅ H).
Defined.

End Examples.

(** * Closed examples in the instance [Shapes] *)

Section ShapeExamples.
Local Existing Instance Shapes.backend.

Lemma train_and_test_history_witness :
  ∃ history final_result w',
    train_and_test ShapeExample.loaders ShapeExample.world
    = Ok ((history, final_result), w') ∧
    length history = 41%nat ∧
    Forall (λ record, keys record = {[ "val_loss"; "val_acc" ]}) history ∧
    keys final_result = {[ "val_loss"; "val_acc" ]} ∧
    (∃ lines, stdout w' = stdout ShapeExample.world ++ lines ∧
              length lines = 40%nat) ∧
    training (model w') = training (model ShapeExample.world).
Proof.
  assert ((λ _, ()) <$> train_and_test ShapeExample.loaders ShapeExample.world
          = Ok ()) as H by (vm_compute; reflexivity).
  destruct (train_and_test _ _) as [[[history final_result] w']|e] eqn:Hrun;
    [|discriminate H].
  exists history, final_result, w'. split; [reflexivity|].
  exact (train_and_test_history _ _ _ _ _ Hrun).
Defined.

Lemma corpus_images : Forall cifar_sample ShapeExample.corpus.
Proof. apply Forall_replicate. split; [reflexivity|simpl; lia]. Qed.

Lemma images_loader (shuffle : bool) :
  cifar_loader
    (mkDeviceDataLoader
       (mkDataLoader ShapeExample.images 2 shuffle) ()).
Proof.
  split; [reflexivity|]. apply cifar_dataset_CIFAR10, Forall_replicate.
  split; [reflexivity|simpl; lia].
Qed.

Lemma main_stays_in_training_mode_witness :
  ∃ result w',
    main (CIFAR10 ShapeExample.corpus) ShapeExample.images () ()
    = Ok (result, w') ∧
    training (model w') = true ∧ length result.1 = 41%nat.
Proof.
  destruct (main_cifar ShapeExample.corpus (replicate 3 ShapeExample.image))
    as (result & w' & Hrun).
  - vm_compute. reflexivity.
  - discriminate.
  - exact corpus_images.
  - apply Forall_replicate. split; [reflexivity|simpl; lia].
  - exists result, w'. split; [exact Hrun|].
    exact (main_stays_in_training_mode _ _ _ _ _ _ Hrun).
Defined.

Lemma script_runs_on_cifar_images_witness :
  (∃ result W',
     train_and_test ShapeExample.loaders ShapeExample.world
     = Ok (result, W') ∧ length result.1 = 41%nat) ∧
  training_step ([2; 3; 32; 32]%nat, Shapes.label_code <$> [10; 3])
    ShapeExample.world = Raise IndexError.
Proof.
  destruct (script_runs_on_cifar_images ShapeExample.loaders
              ShapeExample.world) as [Hrun Hlabel].
  - exact (images_loader true).
  - exact (images_loader false).
  - exact (images_loader false).
  - simpl. lia.
  - simpl. lia.
  - reflexivity.
  - split; [exact Hrun|].
    exact (Hlabel 1%nat [3] 10 ltac:(lia) eq_refl).
Defined.

(** C10, the claim as stated fails: a partition of three images of
    28 x 28 positions yields two batches, and [evaluate] returns no
    result: the first linear layer refuses the 324 features of the first
    batch. *)
Lemma evaluate_raises_on_a_batch :
  fst <$> batch_indices (dl ShapeExample.small_val) ShapeExample.world
  = Ok [[0; 1]; [2]]%nat ∧
  evaluate ShapeExample.small_val ShapeExample.world
  = Raise (RuntimeError "shape mismatch") ∧
  fst <$> (out ← stage conv1 conv2 attr_bn1 [2; 3; 28; 28]%nat;
           out ← stage conv3 conv4 attr_bn2 out;
           out ← stage conv5 conv6 attr_bn3 out;
           flatten out 1) ShapeExample.world
  = Ok [2; 324]%nat ∧
  lin_in (linear1 (model ShapeExample.world)) = 576%nat.
Proof.
  split; [vm_compute; reflexivity|].
  split; [reflexivity|].
  split; [vm_compute; reflexivity|reflexivity].
Qed.

Lemma count_parameters_of_the_network_witness :
  count_parameters (B := Shapes.backend) entries (CIFAR10Model_init ()).1
  = 81804 ∧
  count_parameters (B := Shapes.backend) entries
    (module_to () (CIFAR10Model_init ()).1) = 81804.
Proof.
  apply (count_parameters_of_the_network (B := Shapes.backend)
           entries () ()).
  - reflexivity.
  - reflexivity.
  - reflexivity.
  - reflexivity.
Defined.

Lemma forward_accepts_16_positions_witness :
  fst <$> forward [128; 3; 28; 28]%nat ShapeExample.world =
  if decide ((28 / 2 / 2 / 2) * (28 / 2 / 2 / 2) = 16)%nat
  then Ok [128; 10]%nat else Shapes.shape_error.
Proof.
  apply (forward_accepts_16_positions ShapeExample.world 128 28 28).
  - reflexivity.
  - lia.
  - lia.
  - lia.
Defined.

End ShapeExamples.
